(** * LinkedIn AI news agents: a shallow embedding and its properties

    The repository holds two agents.  [LinkedInAINewsAgent]
    (linkedin-ai-news-agent.js) searches DuckDuckGo, normalises and
    filters the hits and builds posts from templates.  [AIGoodNewsAgent]
    (ai-agent.js) keeps a list of seen URLs, ranks articles with Gemini
    or with a local heuristic, and asks Gemini for the post text.

    Conventions of the embedding.
    - A JavaScript string is the list of its UTF-16 code units, so
      [length] is [String.prototype.length] and [substring] cuts where
      JavaScript cuts (an emoji counts for two).
    - Numbers that hold scores are rationals: the arithmetic of the
      source is read exactly, without the rounding of IEEE doubles.
    - Library calls whose full semantics is outside this development
      ([String.prototype.toLowerCase], [new URL(..).hostname], regular
      expressions built from a query word other than literal words and
      the dot, [JSON.parse], the file system, the network) are
      parameters: a theorem stated over them holds for all their
      behaviours.
    - [Math.random] is a parameter of the functions that draw from it:
      the natural number given stands for the index drawn. *)

From Stdlib Require Import String Ascii DecimalString.
From Stdlib Require Import ZArith NArith QArith Qminmax Lia Lqa Bool.
From Stdlib Require Import List Permutation.
Import ListNotations.

Set Implicit Arguments.

(** ** JavaScript strings and arrays *)

Module JS.

Definition str := list N.

(** An ASCII literal of the source, as code units. *)
Fixpoint lit (s : string) : str :=
  match s with
  | EmptyString => []
  | String c r => N_of_ascii c :: lit r
  end.

Definition nl : str := [10%N].

Fixpoint eqb (a b : str) : bool :=
  match a, b with
  | [], [] => true
  | x :: a', y :: b' => N.eqb x y && eqb a' b'
  | _, _ => false
  end.

Fixpoint startsWith (p s : str) : bool :=
  match p, s with
  | [], _ => true
  | x :: p', y :: s' => N.eqb x y && startsWith p' s'
  | _ :: _, [] => false
  end.

(** [s.includes(sub)] *)
Fixpoint includes (s sub : str) : bool :=
  startsWith sub s ||
  match s with
  | [] => false
  | _ :: r => includes r sub
  end.

(** [s.substring(0, e)]: a negative or NaN end counts as 0, an end
    beyond the length as the length. *)
Definition substring0 (s : str) (e : Z) : str := firstn (Z.to_nat e) s.

Definition len (s : str) : Z := Z.of_nat (length s).

(** [a.slice(0, n)] on arrays, for a count [n >= 0]. *)
Definition slice0 {A} (l : list A) (n : nat) : list A := firstn n l.

(** [a.join(sep)] *)
Fixpoint join (sep : str) (l : list str) : str :=
  match l with
  | [] => []
  | [x] => x
  | x :: r => x ++ sep ++ join sep r
  end.

(** [s.split(sep)] for a separator that is one code unit, and
    [s.split(/[...]/)] for a class of code units: every separator ends a
    piece, so pieces can be empty and the result never is. *)
Fixpoint splitBy (isSep : N -> bool) (s : str) : list str :=
  match s with
  | [] => [[]]
  | c :: r =>
      if isSep c then [] :: splitBy isSep r
      else match splitBy isSep r with
           | [] => [[c]]
           | p :: ps => (c :: p) :: ps
           end
  end.

(** [s.split(/[...]+/)]: a run of separators ends one piece. *)
Fixpoint splitByRuns (isSep : N -> bool) (s : str) : list str :=
  match s with
  | [] => [[]]
  | c :: r =>
      if isSep c then
        match r with
        | d :: _ => if isSep d then splitByRuns isSep r
                    else [] :: splitByRuns isSep r
        | [] => [] :: splitByRuns isSep r
        end
      else match splitByRuns isSep r with
           | [] => [[c]]
           | p :: ps => (c :: p) :: ps
           end
  end.

(** White space and line terminators of ECMAScript, as [trim] removes
    them. *)
Definition isWhiteSpace (c : N) : bool :=
  existsb (N.eqb c)
    [9; 10; 11; 12; 13; 32; 160; 5760; 8232; 8233; 8239; 8287; 12288;
     65279]%N
  || (N.leb 8192 c && N.leb c 8202).

Fixpoint trimStart (s : str) : str :=
  match s with
  | [] => []
  | c :: r => if isWhiteSpace c then trimStart r else s
  end.

Definition trim (s : str) : str := rev (trimStart (rev (trimStart s))).

(** [s.replace(/<[^>]*>/g, EMPTY)]: a [<] starts a tag when a [>]
    follows somewhere; the tag runs to the first such [>]. *)
Fixpoint stripTagsFrom (inTag : bool) (s : str) : str :=
  match s with
  | [] => []
  | c :: r =>
      if inTag then stripTagsFrom (negb (N.eqb c 62)) r
      else if N.eqb c 60 && existsb (N.eqb 62) r then stripTagsFrom true r
      else c :: stripTagsFrom false r
  end.

Definition stripTags (s : str) : str := stripTagsFrom false s.

(** [s.replace(pat, EMPTY)] with a string pattern: the first occurrence
    goes. *)
Fixpoint removeFirst (pat s : str) : str :=
  if startsWith pat s then skipn (length pat) s
  else match s with
       | [] => []
       | c :: r => c :: removeFirst pat r
       end.

(** ASCII lower-casing: what [toLowerCase] does on code units below
    128. *)
Definition asciiLowerUnit (c : N) : N :=
  if N.leb 65 c && N.leb c 90 then (c + 32)%N else c.

Definition asciiLower (s : str) : str := map asciiLowerUnit s.

(** Decimal text of a natural number, as a template literal prints
    it. *)
Definition ofNat (n : nat) : str := lit (NilEmpty.string_of_uint (Nat.to_uint n)).

(** A stable sort for [Array.prototype.sort(cmp)]: [before x y] says
    that [cmp(x, y) <= 0].  For a comparator that is a total preorder
    the stable result is unique, so this is the array every conforming
    engine returns. *)
Section Sort.
Context {A : Type} (before : A -> A -> bool).

Fixpoint insertSorted (x : A) (l : list A) : list A :=
  match l with
  | [] => [x]
  | y :: r => if before x y then x :: y :: r else y :: insertSorted x r
  end.

Definition sortBy (l : list A) : list A := fold_right insertSorted [] l.

(** Every element comes before the ones after it. *)
Inductive ordered : list A -> Prop :=
| ordered_nil : ordered []
| ordered_cons x l :
    Forall (fun y => before x y = true) l -> ordered l -> ordered (x :: l).
End Sort.

(** *** Regular expressions built from a word

    [new RegExp(word, 'g')] is modelled for the words whose characters
    are pattern characters or the dot.  Any other word holds a syntax
    character of the pattern language, and its behaviour (it can throw
    a SyntaxError or match otherwise) is left to the engine given as a
    parameter where the function is used. *)

Inductive atom : Type :=
| Lit (c : N)
| Dot.

(** The syntax characters of ECMAScript patterns:
    ^ $ \ . * + ? ( ) [ ] { } | *)
Definition isSyntaxCharacter (c : N) : bool :=
  existsb (N.eqb c) [94; 36; 92; 46; 42; 43; 63; 40; 41; 91; 93; 123; 125; 124]%N.

Fixpoint compile (w : str) : option (list atom) :=
  match w with
  | [] => Some []
  | c :: r =>
      match compile r with
      | None => None
      | Some p =>
          if N.eqb c 46 then Some (Dot :: p)
          else if isSyntaxCharacter c then None
          else Some (Lit c :: p)
      end
  end.

Definition isLineTerminator (c : N) : bool :=
  existsb (N.eqb c) [10; 13; 8232; 8233]%N.

Definition atomMatches (a : atom) (c : N) : bool :=
  match a with
  | Lit d => N.eqb d c
  | Dot => negb (isLineTerminator c)
  end.

Fixpoint matchesAt (p : list atom) (s : str) : bool :=
  match p, s with
  | [], _ => true
  | a :: p', c :: s' => atomMatches a c && matchesAt p' s'
  | _ :: _, [] => false
  end.

(** The number of matches [s.match(re)] returns for a global pattern
    of [p]: after a match at [i] the search goes on at [i + |p|], after
    a failure at [i + 1].  [skip] counts the code units of the last
    match still to pass.  An empty pattern matches at every index and
    at the end. *)
Fixpoint countFrom (p : list atom) (skip : nat) (s : str) : nat :=
  match s with
  | [] => match skip, p with
          | O, [] => 1
          | _, _ => 0
          end
  | _ :: r =>
      match skip with
      | S k => countFrom p k r
      | O => if matchesAt p s
             then S (countFrom p (pred (length p)) r)
             else countFrom p 0 r
      end
  end.

Definition countMatches (p : list atom) (s : str) : nat := countFrom p 0 s.

(** [a.findIndex(p)]: the index of the first element that satisfies
    [p], or -1. *)
Fixpoint findIndexFrom {A} (p : A -> bool) (l : list A) (i : Z) : Z :=
  match l with
  | [] => (-1)%Z
  | x :: r => if p x then i else findIndexFrom p r (i + 1)%Z
  end.

Definition findIndex {A} (p : A -> bool) (l : list A) : Z := findIndexFrom p l 0.

(** [a.filter((x, index) => p(x, index))], counting from [i]. *)
Fixpoint filterIndexed {A} (p : A -> Z -> bool) (l : list A) (i : Z) : list A :=
  match l with
  | [] => []
  | x :: r => if p x i then x :: filterIndexed p r (i + 1)%Z
              else filterIndexed p r (i + 1)%Z
  end.

(** [a[i]] for an array and a number: [undefined] unless [i] is an
    index of [a]. *)
Definition at_ {A} (l : list A) (i : Z) : option A :=
  if (i <? 0)%Z then None else nth_error l (Z.to_nat i).

(** A string is truthy when it is not empty. *)
Definition truthy (s : str) : bool :=
  match s with
  | [] => false
  | _ :: _ => true
  end.

(** A [Set] of strings keeps insertion order and ignores a second
    [add]. *)
Definition setAdd (x : str) (s : list str) : list str :=
  if existsb (eqb x) s then s else s ++ [x].

(** A value or a thrown exception with its message. *)
Inductive result (A : Type) : Type :=
| Ok (a : A)
| Throw (e : str).

Arguments Ok {A} a.
Arguments Throw {A} e.

End JS.

(** ** linkedin-ai-news-agent.js *)

Module LinkedInAINewsAgent.
Import JS.

Open Scope string_scope.
Open Scope list_scope.
Open Scope Q_scope.

(** *** Configuration *)

Record SearchConfig : Type := {
  maxResults : nat;
  timeframe : str;
  minRelevanceScore : Q
}.

Record PostsConfig : Type := {
  maxCharacters : Z;
  optimalCharacters : Z;
  maxHashtags : nat;
  styles : list str;
  defaultStyle : str
}.

Record SourcesConfig : Type := {
  preferred : list str;
  excluded : list str
}.

Record Config : Type := {
  aiKeywords : list str;
  search : SearchConfig;
  posts : PostsConfig;
  sources : SourcesConfig
}.

Definition CONFIG : Config := {|
  aiKeywords :=
    map lit
      ["artificial intelligence"; "machine learning"; "OpenAI"; "ChatGPT";
       "neural networks"; "deep learning"; "AI startups"; "generative AI";
       "AI ethics"; "AI regulation"];
  search := {| maxResults := 10; timeframe := lit "d";
               minRelevanceScore := 0.4 |};
  posts := {| maxCharacters := 3000; optimalCharacters := 1600;
              maxHashtags := 5;
              styles := map lit ["news_share"; "question"; "insight"; "list"];
              defaultStyle := lit "news_share" |};
  sources := {| preferred :=
                  map lit
                    ["techcrunch.com"; "wired.com"; "technologyreview.com";
                     "venturebeat.com"; "theverge.com"; "arstechnica.com"];
                excluded := map lit ["spam-site.com"; "clickbait-news.com"] |}
|}.

(** *** Data *)

Record KeyPoint : Type := {
  text : str;
  importance : Z
}.

(** An article as [parseSearchResults] builds it.  [publishedDate] is
    the clock at the time of the search and is left out: nothing reads
    it. *)
Record Article : Type := {
  title : str;
  url : str;
  summary : str;
  source : str;
  relevanceScore : Q;
  keyPoints : list KeyPoint;
  searchQuery : str
}.

Record ArticleRef : Type := {
  refTitle : str;
  refSource : str
}.

Record Post : Type := {
  content : str;
  hashtags : list str;
  sourceUrl : str;
  style : str;
  characterCount : Z;
  article : ArticleRef
}.

(** The DuckDuckGo answer, as far as [parseSearchResults] reads it.  An
    absent text field and an empty one are both falsy and are both the
    empty string here. *)
Record Item : Type := {
  FirstURL : str;
  Text : str
}.

Record RelatedTopic : Type := {
  topicItem : Item;
  Topics : option (list Item)
}.

Record SearchData : Type := {
  AbstractURL : str;
  AbstractText : str;
  Heading : str;
  RelatedTopics : option (list RelatedTopic);
  Results : option (list Item)
}.

Definition Qlt_bool (a b : Q) : bool := negb (Qle_bool b a).

Section Agent.

(** [String.prototype.toLowerCase]. *)
Variable toLowerCase : str -> str.

(** [new URL(url).hostname], or nothing when the constructor throws. *)
Variable hostname : str -> option str.

(** The number of matches of [new RegExp(word, 'g')] in a text, or the
    exception, for the words [JS.compile] does not cover. *)
Variable regExpEngine : str -> str -> result nat.

Variable config : Config.

(** *** Normalizer *)

Definition isNewsWorthy (text : str) : bool :=
  let lowerText := toLowerCase text in
  let newsIndicators :=
    map lit
      ["announced"; "launched"; "released"; "unveiled"; "introduced";
       "breakthrough"; "development"; "research"; "study"; "report";
       "funding"; "investment"; "acquisition"; "partnership"; "regulation";
       "policy"; "law"; "ruling"; "decision"; "update"; "version"; "feature";
       "improvement"; "innovation"; "company"; "startup"; "corporation";
       "organization"; "technology"; "platform"; "system"; "tool";
       "application"] in
  let aiTerms :=
    map lit
      ["artificial intelligence"; "machine learning"; "neural network";
       "deep learning"; "ai model"; "algorithm"; "automation"; "chatgpt";
       "openai"; "generative"; "llm"; "transformer"] in
  let hasNewsIndicator := existsb (fun indicator => includes lowerText indicator) newsIndicators in
  let hasAITerm := existsb (fun term => includes lowerText term) aiTerms in
  hasNewsIndicator && hasAITerm.

Definition extractDomain (u : str) : str :=
  match hostname u with
  | Some h => removeFirst (lit "www.") h
  | None => lit "unknown-source.com"
  end.

(** The class [.!?] of the two [split] calls. *)
Definition isSentenceEnd (c : N) : bool :=
  existsb (N.eqb c) [46; 33; 63]%N.

Definition extractTitleFromText (t : str) : str :=
  let sentences := splitBy isSentenceEnd t in
  let firstSentence := trim (hd [] sentences) in
  if (100 <? len firstSentence)%Z then substring0 firstSentence 97 ++ lit "..."
  else if truthy firstSentence then firstSentence
  else lit "AI News Article".

Definition matchCount (word lowerText : str) : result nat :=
  match compile word with
  | Some p => Ok (countMatches p lowerText)
  | None => regExpEngine word lowerText
  end.

(** The loop over the query words, from the score so far. *)
Fixpoint queryWordsScore (lowerText : str) (queryWords : list str) (score : Q)
  : result Q :=
  match queryWords with
  | [] => Ok score
  | word :: rest =>
      if (2 <? len word)%Z then
        match matchCount word lowerText with
        | Throw e => Throw e
        | Ok matches =>
            queryWordsScore lowerText rest
              (score + inject_Z (Z.of_nat matches) * 0.15)
        end
      else queryWordsScore lowerText rest score
  end.

(** One of the three loops over a term list. *)
Definition boost (lowerText : str) (terms : list str) (by_ : Q) (score : Q) : Q :=
  fold_left
    (fun sc term => if includes lowerText term then sc + by_ else sc)
    terms score.

Definition highValueTerms : list str :=
  map lit
    ["artificial intelligence"; "machine learning"; "neural network";
     "deep learning"; "generative ai"; "large language model"].

Definition mediumValueTerms : list str :=
  map lit ["ai"; "ml"; "algorithm"; "automation"; "chatgpt"; "openai"].

Definition newsTerms : list str :=
  map lit ["announced"; "launched"; "breakthrough"; "funding"; "research"].

Definition calculateRelevanceScore (t query : str) : result Q :=
  let lowerText := toLowerCase t in
  let queryWords := splitBy (N.eqb 32) (toLowerCase query) in
  match queryWordsScore lowerText queryWords 0 with
  | Throw e => Throw e
  | Ok score =>
      let score := boost lowerText highValueTerms 0.3 score in
      let score := boost lowerText mediumValueTerms 0.2 score in
      let score := boost lowerText newsTerms 0.1 score in
      Ok (Qmin score 1.0)
  end.

(** The article of the direct abstract result, when there is one and
    it is news-worthy. *)
Definition abstractArticle (data : SearchData) (originalQuery : str)
  : option Article :=
  if truthy (AbstractURL data) && truthy (AbstractText data)
     && (50 <? len (AbstractText data))%Z
  then
    let article := {|
      title := if truthy (Heading data) then Heading data
               else extractTitleFromText (AbstractText data);
      url := AbstractURL data;
      summary := AbstractText data;
      source := extractDomain (AbstractURL data);
      relevanceScore := 0.9;
      keyPoints := [];
      searchQuery := originalQuery |} in
    if isNewsWorthy (summary article) then Some article else None
  else None.

(** The body of the loops over related topics and over results: the
    article to push, if any, or the exception of the scoring. *)
Definition itemArticle (item : Item) (originalQuery : str)
  : result (option Article) :=
  if truthy (FirstURL item) && truthy (Text item) then
    let cleanText := trim (stripTags (Text item)) in
    if (100 <? len cleanText)%Z then
      match calculateRelevanceScore cleanText originalQuery with
      | Throw e => Throw e
      | Ok score =>
          let article := {|
            title := extractTitleFromText cleanText;
            url := FirstURL item;
            summary := cleanText;
            source := extractDomain (FirstURL item);
            relevanceScore := score;
            keyPoints := [];
            searchQuery := originalQuery |} in
          if isNewsWorthy (summary article)
             && Qlt_bool 0.3 (relevanceScore article)
          then Ok (Some article) else Ok None
      end
    else Ok None
  else Ok None.

(** A loop stops at the first exception; the articles pushed so far
    stay in the array. *)
Fixpoint processItems (items : list Item) (originalQuery : str)
  (articles : list Article) : list Article * option str :=
  match items with
  | [] => (articles, None)
  | item :: rest =>
      match itemArticle item originalQuery with
      | Throw e => (articles, Some e)
      | Ok None => processItems rest originalQuery articles
      | Ok (Some a) => processItems rest originalQuery (articles ++ [a])
      end
  end.

Definition topicsToProcess (topic : RelatedTopic) : list Item :=
  match Topics topic with
  | Some ts => ts
  | None => [topicItem topic]
  end.

Fixpoint processTopics (topics : list RelatedTopic) (originalQuery : str)
  (articles : list Article) : list Article * option str :=
  match topics with
  | [] => (articles, None)
  | topic :: rest =>
      match processItems (topicsToProcess topic) originalQuery articles with
      | (articles', Some e) => (articles', Some e)
      | (articles', None) => processTopics rest originalQuery articles'
      end
  end.

Definition orEmpty {A} (o : option (list A)) : list A :=
  match o with
  | Some l => l
  | None => []
  end.

(** The [catch] of [parseSearchResults] logs the exception and the
    function returns the articles it has. *)
Definition parseSearchResults (data : SearchData) (originalQuery : str)
  : list Article :=
  let articles :=
    match abstractArticle data originalQuery with
    | Some a => [a]
    | None => []
    end in
  match processTopics (orEmpty (RelatedTopics data)) originalQuery articles with
  | (articles', Some _) => articles'
  | (articles', None) =>
      fst (processItems (orEmpty (Results data)) originalQuery articles')
  end.

(** Where an article of [parseSearchResults] comes from: the direct
    abstract result, or the text of a related topic or of a result,
    scored against the query. *)
Definition fromAbstract (data : SearchData) (q : str) (a : Article) : Prop :=
  abstractArticle data q = Some a /\ relevanceScore a = 0.9.

Definition fromItem (q : str) (a : Article) : Prop :=
  calculateRelevanceScore (summary a) q = Ok (relevanceScore a)
  /\ 0.3 < relevanceScore a
  /\ (100 < len (summary a))%Z.

(** *** Filter and ranking *)

Definition sameUrl (a x : Article) : bool := eqb (url x) (url a).

Definition isExcluded (a : Article) : bool :=
  existsb
    (fun ex => includes (toLowerCase (source a)) (toLowerCase ex))
    (excluded (sources config)).

Definition isPreferred (a : Article) : bool :=
  existsb
    (fun pr => includes (toLowerCase (source a)) (toLowerCase pr))
    (preferred (sources config)).

Definition passesQuality (a : Article) : bool :=
  if isExcluded a then false
  else if Qlt_bool (relevanceScore a) (minRelevanceScore (search config)) then false
  else if (len (summary a) <? 100)%Z then false
  else true.

(** The comparator of the sort. *)
Definition compareArticles (a b : Article) : Q :=
  let aPreferred := isPreferred a in
  let bPreferred := isPreferred b in
  if aPreferred && negb bPreferred then -1
  else if negb aPreferred && bPreferred then 1
  else relevanceScore b - relevanceScore a.

Definition uniqueArticles (articles : list Article) : list Article :=
  filterIndexed
    (fun article index =>
       Z.eqb index (findIndex (fun a => eqb (url a) (url article)) articles))
    articles 0.

Definition filterAndRankArticles (articles : list Article) : list Article :=
  let qualityArticles := filter passesQuality (uniqueArticles articles) in
  let sorted := sortBy (fun a b => Qle_bool (compareArticles a b) 0) qualityArticles in
  slice0 sorted (maxResults (search config)).

(** *** Post synthesis *)

Definition isKeyPoint (sentence : str) : bool :=
  let lowerSentence := toLowerCase sentence in
  let keyIndicators :=
    map lit
      ["announced"; "launched"; "released"; "developed"; "created";
       "breakthrough"; "innovation"; "improvement"; "advancement"; "funding";
       "investment"; "partnership"; "acquisition"; "research"; "study";
       "findings"; "results"; "discovered"; "will"; "can"; "enables";
       "allows"; "provides"; "offers"] in
  existsb (fun indicator => includes lowerSentence indicator) keyIndicators
  && (30 <? len sentence)%Z && (len sentence <? 200)%Z.

(** One of the three [forEach] loops of [calculateImportance]. *)
Definition addPerTerm (lowerSentence : str) (terms : list str) (by_ : Z) (score : Z) : Z :=
  fold_left
    (fun sc term => if includes lowerSentence term then (sc + by_)%Z else sc)
    terms score.

Definition calculateImportance (sentence : str) : Z :=
  let lowerSentence := toLowerCase sentence in
  let score := 0%Z in
  let score :=
    addPerTerm lowerSentence
      (map lit ["breakthrough"; "revolutionary"; "first"; "new"; "major"])
      3 score in
  let score :=
    addPerTerm lowerSentence
      (map lit ["announced"; "launched"; "developed"; "funding"; "partnership"])
      2 score in
  let score :=
    addPerTerm lowerSentence
      (map lit ["artificial intelligence"; "machine learning"; "neural network"; "ai"])
      1 score in
  score.

Definition extractKeyPoints (a : Article) : list KeyPoint :=
  let sentences :=
    filter (fun s => (20 <? len (trim s))%Z)
      (splitByRuns isSentenceEnd (summary a)) in
  let keyPoints :=
    flat_map
      (fun sentence =>
         let trimmed := trim sentence in
         if isKeyPoint trimmed
         then [{| text := trimmed; importance := calculateImportance trimmed |}]
         else [])
      (slice0 sentences 5) in
  slice0
    (sortBy (fun x y => (importance y - importance x <=? 0)%Z) keyPoints)
    3.

Definition hashtagMap : list (str * str) :=
  map (fun kv => (lit (fst kv), lit (snd kv)))
    [("machine learning", "#MachineLearning");
     ("deep learning", "#DeepLearning");
     ("neural network", "#NeuralNetworks");
     ("chatgpt", "#ChatGPT");
     ("openai", "#OpenAI");
     ("generative", "#GenerativeAI");
     ("startup", "#AIStartup");
     ("funding", "#TechFunding");
     ("research", "#AIResearch");
     ("ethics", "#AIEthics");
     ("regulation", "#AIRegulation");
     ("automation", "#Automation");
     ("innovation", "#Innovation");
     ("technology", "#Technology");
     ("future", "#FutureOfWork")].

Definition generateHashtags (a : Article) : list str :=
  let t := toLowerCase (title a ++ lit " " ++ summary a) in
  let hashtags := setAdd (lit "#ArtificialIntelligence") [] in
  let hashtags := setAdd (lit "#AI") hashtags in
  let hashtags :=
    fold_left
      (fun tags kv => if includes t (fst kv) then setAdd (snd kv) tags else tags)
      hashtagMap hashtags in
  slice0 hashtags (maxHashtags (posts config)).

(** [hooks[Math.floor(Math.random() * hooks.length)]], for the index
    [random] drawn. *)
Definition pick (random : nat) (options : list str) : str :=
  nth (random mod length options) options [].

Definition getEngagingHook (random : nat) (a : Article) : str :=
  let hooks :=
    [[55357; 56960]%N ++ lit " Exciting developments in AI:";
     [55357; 56481]%N ++ lit " This caught my attention in today's AI news:";
     [55357; 56613]%N ++ lit " Hot off the press in artificial intelligence:";
     [9889]%N ++ lit " Breaking: Major AI advancement just announced:";
     [55356; 57263]%N ++ lit " Here's what's making waves in the AI world:";
     [55356; 57119]%N ++ lit " Fascinating AI breakthrough to share:";
     [55357; 56520]%N ++ lit " The AI industry just took another big step forward:"] in
  pick random hooks.

Definition createSummary (a : Article) (keyPoints : list KeyPoint) (maxLength : Z) : str :=
  let summary :=
    match keyPoints with
    | kp :: _ => text kp
    | [] => summary a
    end in
  if (maxLength <? len summary)%Z
  then substring0 summary (maxLength - 3) ++ lit "..."
  else summary.

Definition extractMainTopic (a : Article) : str :=
  let t := toLowerCase (title a) in
  if includes t (lit "chatgpt") || includes t (lit "openai") then lit "ChatGPT/OpenAI"
  else if includes t (lit "machine learning") then lit "machine learning"
  else if includes t (lit "deep learning") then lit "deep learning"
  else if includes t (lit "neural network") then lit "neural networks"
  else if includes t (lit "generative") then lit "generative AI"
  else if includes t (lit "startup") then lit "AI startups"
  else if includes t (lit "regulation") || includes t (lit "policy") then lit "AI regulation"
  else if includes t (lit "ethics") then lit "AI ethics"
  else lit "artificial intelligence".

Definition generateInsights (random : nat) (keyPoints : list KeyPoint) : str :=
  match keyPoints with
  | [] => lit "This development represents another step forward in AI capabilities."
  | _ :: _ =>
      pick random
        (map lit
           ["This could significantly impact how businesses approach AI integration.";
            "The implications for the future of work are worth considering.";
            "This advancement opens up new possibilities for AI applications.";
            "The competitive landscape in AI continues to evolve rapidly.";
            "This highlights the accelerating pace of AI innovation."])
  end.

Definition createNewsSharePost (random : nat) (a : Article) (keyPoints : list KeyPoint) : str :=
  let hook := getEngagingHook random a in
  let summary := createSummary a keyPoints 200 in
  hook ++ nl ++ nl ++ summary ++ nl ++ nl
  ++ lit "What are your thoughts on this development?".

Definition createQuestionPost (random : nat) (a : Article) (keyPoints : list KeyPoint) : str :=
  let questions :=
    [lit "How do you think " ++ extractMainTopic a ++ lit " will impact the industry?";
     lit "What's your take on this latest development in AI?";
     lit "Do you see this as a breakthrough or just incremental progress?";
     lit "How might this change the way we work with AI?";
     lit "What opportunities does this create for businesses?"] in
  let randomQuestion := pick random questions in
  let summary := createSummary a keyPoints 150 in
  [55358; 56596]%N ++ lit " " ++ randomQuestion ++ nl ++ nl ++ summary ++ nl ++ nl
  ++ lit "I'd love to hear your perspectives in the comments!".

Definition createInsightPost (random : nat) (a : Article) (keyPoints : list KeyPoint) : str :=
  let insights := generateInsights random keyPoints in
  let summary := createSummary a keyPoints 150 in
  [55357; 56481]%N ++ lit " Key insight from today's AI news:" ++ nl ++ nl
  ++ summary ++ nl ++ nl ++ insights ++ nl ++ nl
  ++ lit "This could be a game-changer for how we approach AI development.".

(** [a.map((point, index) => ...)], counting from [index]. *)
Fixpoint numbered (points : list KeyPoint) (index : nat) : list str :=
  match points with
  | [] => []
  | point :: rest =>
      (ofNat (index + 1) ++ lit ". " ++ text point) :: numbered rest (S index)
  end.

Definition createListPost (a : Article) (keyPoints : list KeyPoint) : str :=
  let summary := createSummary a keyPoints 100 in
  let listItems := join nl (numbered (slice0 keyPoints 3) 0) in
  [55357; 56523]%N ++ lit " Key takeaways from the latest AI news:" ++ nl ++ nl
  ++ summary ++ nl ++ nl ++ lit "Main points:" ++ nl ++ listItems ++ nl ++ nl
  ++ lit "Which point resonates most with you?".

(** The text the style's template gives, before the budget is
    applied. *)
Definition styleContent (random : nat) (a : Article) (style : str) : str :=
  let keyPoints := extractKeyPoints a in
  if eqb style (lit "news_share") then createNewsSharePost random a keyPoints
  else if eqb style (lit "question") then createQuestionPost random a keyPoints
  else if eqb style (lit "insight") then createInsightPost random a keyPoints
  else if eqb style (lit "list") then createListPost a keyPoints
  else createNewsSharePost random a keyPoints.

Definition sourceText (a : Article) : str := nl ++ nl ++ lit "Source: " ++ url a.

Definition maxContentLength (a : Article) : Z :=
  (maxCharacters (posts config)
   - len (join (lit " ") (generateHashtags a))
   - len (sourceText a)
   - 10)%Z.

(** The body after the budget check. *)
Definition fitContent (a : Article) (content : str) : str :=
  if (maxContentLength a <? len content)%Z
  then substring0 content (maxContentLength a - 3) ++ lit "..."
  else content.

Definition createLinkedInPost (random : nat) (a : Article) (style : str) : Post :=
  let hashtags := generateHashtags a in
  let content := styleContent random a style in
  let hashtagString := join (lit " ") hashtags in
  let content := fitContent a content in
  let finalContent := content ++ nl ++ nl ++ hashtagString ++ sourceText a in
  {| content := finalContent;
     hashtags := hashtags;
     sourceUrl := url a;
     style := style;
     characterCount := len finalContent;
     article := {| refTitle := title a; refSource := source a |} |}.

(** *** Search stage

    What a request to the provider can end in: the promise of
    [duckDuckGoSearch] is rejected (time-out, transport error); or it
    resolves to no article because the status is not 200, the body is
    empty or is not JSON; or the body parses. *)
Inductive HttpOutcome : Type :=
| RequestFailed (e : str)
| Unusable
| Json (data : SearchData).

(** The provider: the outcome of the n-th request of the run, for its
    query.  The URL of a request holds the query only. *)
Variable network : nat -> str -> HttpOutcome.

(** A call of [duckDuckGoSearch] with its two arguments; the state of
    the search stage is the list of the calls made. *)
Record Request : Type := {
  reqQuery : str;
  reqTimeframe : str
}.

Definition duckDuckGoSearch (query timeframe : str) (sent : list Request)
  : result (list Article) * list Request :=
  let sent' := sent ++ [{| reqQuery := query; reqTimeframe := timeframe |}] in
  match network (length sent) query with
  | RequestFailed e => (Throw e, sent')
  | Unusable => (Ok [], sent')
  | Json data => (Ok (parseSearchResults data query), sent')
  end.

(** The loop of [performSearch] over the keywords left: a failed
    keyword is logged and skipped. *)
Fixpoint searchKeywords (keywords : list str) (timeframe : str)
  (articles : list Article) (sent : list Request)
  : list Article * list Request :=
  match keywords with
  | [] => (articles, sent)
  | keyword :: rest =>
      match duckDuckGoSearch keyword timeframe sent with
      | (Ok searchResults, sent') =>
          if (0 <? Z.of_nat (length searchResults))%Z
          then searchKeywords rest timeframe (articles ++ searchResults) sent'
          else searchKeywords rest timeframe articles sent'
      | (Throw _, sent') => searchKeywords rest timeframe articles sent'
      end
  end.

Definition performSearch (timeframe : str) (sent : list Request)
  : list Article * list Request :=
  searchKeywords (aiKeywords config) timeframe [] sent.

(** The calls of one batch: one per keyword, in order. *)
Definition batch (timeframe : str) : list Request :=
  map (fun keyword => {| reqQuery := keyword; reqTimeframe := timeframe |})
    (aiKeywords config).

(** [performSearch] catches what a keyword throws, so the [catch] of
    [searchAINews] (the cached articles) is never entered from it; the
    cache write does not change what is returned and is left out. *)
Definition searchAINews (sent : list Request) : list Article * list Request :=
  let (allArticles, sent1) := performSearch (lit "d") sent in
  let (allArticles, sent2) :=
    if (length allArticles =? 0)%nat
    then performSearch (lit "w") sent1
    else (allArticles, sent1) in
  (filterAndRankArticles allArticles, sent2).

(** What one request of a batch contributes: the articles parsed from
    its answer, or nothing when it fails or has no usable answer. *)
Definition keywordArticles (n : nat) (keyword : str) : list Article :=
  match network n keyword with
  | Json data => parseSearchResults data keyword
  | RequestFailed _ => []
  | Unusable => []
  end.

(** The contributions of the keywords, the first being request [n]. *)
Fixpoint batchArticles (n : nat) (keywords : list str) : list Article :=
  match keywords with
  | [] => []
  | keyword :: rest => keywordArticles n keyword ++ batchArticles (S n) rest
  end.

(** *** Posts for a run *)

(** [postStyles[i % postStyles.length]] as [createLinkedInPost]
    receives it: with no style configured the index is NaN, the element
    is undefined and the default parameter applies. *)
Definition styleAt (i : nat) : str :=
  let postStyles := styles (posts config) in
  nth (i mod length postStyles) postStyles (lit "news_share").

(** The loop of [generateLinkedInPosts] from the index [i];
    [random i] is the draw of the post for the article [i]. *)
Fixpoint postsFrom (random : nat -> nat) (articles : list Article) (i : nat)
  : list Post :=
  match articles with
  | [] => []
  | a :: rest =>
      createLinkedInPost (random i) a (styleAt i) :: postsFrom random rest (S i)
  end.

Definition generateLinkedInPosts (random : nat -> nat) (articles : list Article)
  : list Post :=
  postsFrom random (slice0 articles (Nat.min (length articles) 3)) 0.

(** *** The run *)

(** The four results of [run], without time stamp and run time.
    [sourcesUsed] and [stylesUsed] are the two sets of the summary of a
    success. *)
Inductive RunResult : Type :=
| SuccessResult (articles : list Article) (posts : list Post)
    (sourcesUsed stylesUsed : list str)
| PartialResult (articles : list Article) (posts : list Post) (error : str)
| EmptyResult (reason : str)
| ErrorResult (message : str) (articles : list Article) (posts : list Post).

Definition success (r : RunResult) : bool :=
  match r with
  | SuccessResult _ _ _ _ => true
  | _ => false
  end.

Definition dataArticles (r : RunResult) : list Article :=
  match r with
  | SuccessResult articles _ _ _ => articles
  | PartialResult articles _ _ => articles
  | EmptyResult _ => []
  | ErrorResult _ articles _ => articles
  end.

Definition dataPosts (r : RunResult) : list Post :=
  match r with
  | SuccessResult _ posts _ _ => posts
  | PartialResult _ posts _ => posts
  | EmptyResult _ => []
  | ErrorResult _ _ posts => posts
  end.

(** [[...new Set(values)]] *)
Definition distinct (values : list str) : list str :=
  fold_left (fun seen v => setAdd v seen) values [].

Definition createSuccessResult (articles : list Article) (posts : list Post)
  : RunResult :=
  SuccessResult articles posts
    (distinct (map source articles)) (distinct (map style posts)).

Definition createPartialResult (articles : list Article) (posts : list Post)
  (errorMessage : str) : RunResult :=
  PartialResult articles posts errorMessage.

Definition createEmptyResult (reason : str) : RunResult := EmptyResult reason.

Definition createErrorResult (message : str) (articles : list Article)
  (posts : list Post) : RunResult :=
  ErrorResult message articles posts.

(** The agent object, as far as [run] goes: the flag of [initialize]
    and the calls made to the provider. *)
Record AgentState : Type := {
  initialized : bool;
  sent : list Request
}.

Definition initialize (st : AgentState) : result AgentState :=
  if initialized st then Ok st
  else if (length (aiKeywords config) =? 0)%nat
  then Throw (lit "AI keywords configuration is required")
  else Ok {| initialized := true; sent := sent st |}.

(** [run]: the search stage of this embedding does not throw, so its
    [catch] is not entered; the display steps only write to the
    console. *)
Definition run (random : nat -> nat) (st : AgentState) : RunResult * AgentState :=
  match initialize st with
  | Throw e => (createErrorResult e [] [], st)
  | Ok st1 =>
      let (articles, sent') := searchAINews (sent st1) in
      let st2 := {| initialized := initialized st1; sent := sent' |} in
      if (length articles =? 0)%nat
      then (createEmptyResult (lit "No articles found"), st2)
      else
        let posts := generateLinkedInPosts random articles in
        if (length posts =? 0)%nat
        then (createPartialResult articles [] (lit "Post generation failed"), st2)
        else (createSuccessResult articles posts, st2)
  end.

End Agent.


(** *** The cache of articles

    The [Map] of the agent keeps its keys in the order of their first
    insertion.  The two readings of the clock in [cacheArticles] are
    its two arguments; a key is made of the query and of the first
    reading. *)

Record CacheConfig : Type := {
  enabled : bool;
  duration : Z;
  maxEntries : nat
}.

Record CacheEntry : Type := {
  data : list Article;
  timestamp : Z;
  query : str
}.

Definition Cache : Type := list (str * CacheEntry).

(** [map.set(key, value)] *)
Fixpoint mapSet (key : str) (value : CacheEntry) (m : Cache) : Cache :=
  match m with
  | [] => [(key, value)]
  | (k, v) :: rest =>
      if eqb k key then (key, value) :: rest
      else (k, v) :: mapSet key value rest
  end.

Definition cacheArticles (cfg : CacheConfig) (keyTime stampTime : nat)
  (articles : list Article) (q : str) (cache : Cache) : Cache :=
  if negb (enabled cfg) || (length articles =? 0)%nat then cache
  else
    let cacheKey := lit "articles_" ++ q ++ lit "_" ++ ofNat keyTime in
    let cache :=
      mapSet cacheKey
        {| data := articles; timestamp := Z.of_nat stampTime; query := q |}
        cache in
    if (maxEntries cfg <? length cache)%nat then tl cache else cache.

(** The loop of [getCachedArticles] from the entry [i]; [now i] is
    the reading of the clock when the entry [i] is looked at. *)
Fixpoint freshFrom (cfg : CacheConfig) (now : nat -> nat) (i : nat)
  (cache : Cache) : list Article :=
  match cache with
  | [] => []
  | (key, value) :: rest =>
      (if startsWith (lit "articles_") key
          && (Z.of_nat (now i) - duration cfg <? timestamp value)%Z
       then data value else [])
      ++ freshFrom cfg now (S i) rest
  end.

Definition getCachedArticles (cfg : CacheConfig) (maxResults : nat)
  (now : nat -> nat) (cache : Cache) : list Article :=
  if negb (enabled cfg) then []
  else slice0 (freshFrom cfg now 0 cache) maxResults.

(** *** The relevance score in the words of the specification

    Start at 0; add 0.15 per occurrence of each query keyword longer
    than 2 characters; add 0.3, 0.2 and 0.1 for each high-value,
    medium-value and news-action term present; clamp to 1.  An
    occurrence of a keyword is a place where the keyword itself stands
    in the text, counted from left to right without overlap. *)

Fixpoint occurrencesFrom (word : str) (skip : nat) (s : str) : nat :=
  match s with
  | [] => 0
  | _ :: r =>
      match skip with
      | S k => occurrencesFrom word k r
      | O => if startsWith word s
             then S (occurrencesFrom word (pred (length word)) r)
             else occurrencesFrom word 0 r
      end
  end.

Definition occurrences (word s : str) : nat := occurrencesFrom word 0 s.

Definition present (lowerText : str) (terms : list str) : Q :=
  inject_Z (Z.of_nat (length (filter (fun term => includes lowerText term) terms))).

Definition keywordPart (lowerText : str) (queryWords : list str) : Q :=
  fold_right
    (fun word acc =>
       (if (2 <? len word)%Z
        then inject_Z (Z.of_nat (occurrences word lowerText)) * 0.15
        else 0) + acc)
    0 queryWords.

Definition specRelevanceScore (toLowerCase : str -> str) (t query : str) : Q :=
  let lowerText := toLowerCase t in
  let queryWords := splitBy (N.eqb 32) (toLowerCase query) in
  Qmin
    (0 + keywordPart lowerText queryWords
     + 0.3 * present lowerText highValueTerms
     + 0.2 * present lowerText mediumValueTerms
     + 0.1 * present lowerText newsTerms)
    1.

(** A query word that holds no syntax character of the pattern
    language. *)
Definition isLiteralWord (w : str) : bool :=
  forallb (fun c => negb (isSyntaxCharacter c)) w.

(** *** Sample inputs *)

(** An engine that rejects every pattern it is asked about. *)
Definition rejectingEngine : str -> str -> result nat :=
  fun _ _ => Throw (lit "SyntaxError").

(** The host of an https URL without port or user: the text between
    the scheme and the first slash. *)
Definition httpsHost (u : str) : option str :=
  if startsWith (lit "https://") u
  then Some (hd [] (splitBy (N.eqb 47) (skipn 8 u)))
  else None.

Definition sampleSummary : str :=
  lit "OpenAI announced a new machine learning model today that will change research. It is a major breakthrough for the industry and more.".

Definition sampleArticle (u : str) (sc : Q) : Article := {|
  title := lit "OpenAI announced a new model";
  url := u;
  summary := sampleSummary;
  source := lit "techcrunch.com";
  relevanceScore := sc;
  keyPoints := [];
  searchQuery := lit "OpenAI" |}.

(** An article whose URL has 3000 code units. *)
Definition longUrlArticle : Article :=
  sampleArticle (lit "https://e.co/" ++ repeat 97%N 2987) 0.9.

Definition firstCopy : Article := sampleArticle (lit "https://e.co/a") 0.9.
Definition secondCopy : Article := sampleArticle (lit "https://e.co/a") 0.5.

(** An answer with a direct abstract result only. *)
Definition abstractOnly : SearchData := {|
  AbstractURL := lit "https://www.example.org/wiki/OpenAI";
  AbstractText :=
    lit "OpenAI is an artificial intelligence research organization that develops machine learning technology.";
  Heading := lit "OpenAI";
  RelatedTopics := None;
  Results := None |}.

(** An answer with one related topic. *)
Definition oneTopic : SearchData := {|
  AbstractURL := [];
  AbstractText := [];
  Heading := [];
  RelatedTopics :=
    Some
      [{| topicItem :=
            {| FirstURL := lit "https://www.example.org/news/1";
               Text :=
                 lit "<b>OpenAI</b> announced a new machine learning model today that will change research across the whole industry." |};
          Topics := None |}];
  Results := None |}.

(** A provider that answers every request with [oneTopic], and one
    that has no usable answer. *)
Definition answering : nat -> str -> HttpOutcome := fun _ _ => Json oneTopic.
Definition silent : nat -> str -> HttpOutcome := fun _ _ => Unusable.

(** The first article of the search stage when every request is
    answered with [oneTopic]. *)
Definition keptArticle : Article :=
  hd firstCopy
    (filterAndRankArticles asciiLower CONFIG
       (fst (performSearch asciiLower httpsHost rejectingEngine CONFIG answering
               (lit "d") []))).

(** The article [parseSearchResults] builds from [oneTopic]. *)
Definition topicArticle : Article :=
  hd firstCopy
    (parseSearchResults asciiLower httpsHost rejectingEngine oneTopic (lit "OpenAI")).


(** A second article, from the same source and with a lower score. *)
Definition lowerRanked : Article := sampleArticle (lit "https://e.co/b") 0.5.

(** The first article parsed from [oneTopic] for the first keyword. *)
Definition firstKeywordArticle : Article :=
  hd firstCopy
    (parseSearchResults asciiLower httpsHost rejectingEngine oneTopic
       (lit "artificial intelligence")).

(** The cache settings of the source, and an agent before its first
    run. *)
Definition sampleCache : CacheConfig :=
  {| enabled := true; duration := 3600000; maxEntries := 100 |}.

Definition newAgentState : AgentState := {| initialized := false; sent := [] |}.


(** The most important key point of [firstCopy]. *)
Definition firstKeyPoint : KeyPoint :=
  hd {| text := []; importance := 0 |} (extractKeyPoints asciiLower firstCopy).

End LinkedInAINewsAgent.

(** ** ai-agent.js *)

Module AIGoodNewsAgent.
Import JS.

Open Scope string_scope.
Open Scope list_scope.
Open Scope Z_scope.

(** *** Data *)

Record Article : Type := {
  title : str;
  description : str;
  url : str;
  source : str;
  publishedAt : str;
  content : str
}.

(** An entry of [topArticles], in the shape the prompt of
    [analyzeWithGemini] asks for and [fallbackAnalysis] builds.
    [originalIndex] is whatever integer the entry holds. *)
Record TopArticle : Type := {
  rank : Z;
  topTitle : str;
  summary : str;
  whyPositive : str;
  keyPoints : list str;
  originalIndex : Z
}.

Record Analysis : Type := {
  topArticles : list TopArticle;
  overallTrend : str
}.

(** A prompt is a function of the values put into its template, and
    stands here as those values. *)
Inductive Prompt : Type :=
| AnalysisPrompt (articles : list Article)
| PostPrompt (topArticle : TopArticle) (sourceName : str).

(** The agent object and the file it writes, with the calls made to
    the generative backend. *)
Record State : Type := {
  seenArticles : list str;
  seenFile : option (list str);
  geminiCalls : list Prompt
}.

(** The state after a call to the backend. *)
Definition called (prompt : Prompt) (st : State) : State := {|
  seenArticles := seenArticles st;
  seenFile := seenFile st;
  geminiCalls := geminiCalls st ++ [prompt] |}.

(** A state with the same seen list and the same file. *)
Definition sameSeen (st st' : State) : Prop :=
  seenArticles st' = seenArticles st /\ seenFile st' = seenFile st.

(** An entry of the [articles] of a successful run. *)
Record ResultArticle : Type := {
  entry : TopArticle;
  entryUrl : str;
  entrySource : str
}.

Inductive RunResult : Type :=
| Success (articles : list ResultArticle) (linkedinPost : str) (trend : str)
| Failure (error : str).

(** *** Computations that read and write the state and can throw *)

Definition M (A : Type) : Type := State -> result A * State.

Definition ret {A} (a : A) : M A := fun st => (Ok a, st).

Definition throw {A} (e : str) : M A := fun st => (Throw e, st).

Definition bind {A B} (c : M A) (k : A -> M B) : M B :=
  fun st =>
    match c st with
    | (Ok a, st') => k a st'
    | (Throw e, st') => (Throw e, st')
    end.

Definition tryCatch {A} (c : M A) (handler : str -> M A) : M A :=
  fun st =>
    match c st with
    | (Ok a, st') => (Ok a, st')
    | (Throw e, st') => handler e st'
    end.

Definition lift {A} (r : result A) : M A := fun st => (r, st).

Notation "x <- c ;; k" := (bind c (fun x => k))
  (at level 61, c at next level, right associativity).
Notation "c ;;; k" := (bind c (fun _ => k))
  (at level 61, right associativity).

(** Reading a property of [undefined]. *)
Definition typeError : str := lit "Cannot read properties of undefined".

Definition defined {A} (o : option A) : result A :=
  match o with
  | Some a => Ok a
  | None => Throw typeError
  end.

Section Agent.

Variable toLowerCase : str -> str.

(** The environment: [process.env.GEMINI_API_KEY] and
    [process.env.NEWS_API_KEY], empty when not set. *)
Variable geminiApiKey : str.
Variable newsApiKey : str.

(** What the two search back ends return for the keywords; both catch
    their errors and return the articles they have. *)
Variable searchWithNewsAPI : list str -> list Article.
Variable searchWithDuckDuckGo : list str -> list Article.

(** The generative backend behind [callGeminiAPI]: the text of the
    first candidate, or the exception of the request or of the check of
    the response. *)
Variable gemini : Prompt -> result str.

(** [JSON.parse] on the text of the analysis. *)
Variable JSON_parse : str -> result Analysis.

(** [fs.writeFileSync]: whether writing the list succeeds. *)
Variable writeFileSync : list str -> result unit.

Definition saveSeenArticles : M unit :=
  fun st =>
    match writeFileSync (seenArticles st) with
    | Ok _ =>
        (Ok tt,
         {| seenArticles := seenArticles st;
            seenFile := Some (seenArticles st);
            geminiCalls := geminiCalls st |})
    | Throw e => (Throw e, st)
    end.

Definition keywords : list str :=
  map lit
    ["artificial intelligence breakthrough"; "AI advancement";
     "machine learning progress"; "AI startup funding";
     "AI research breakthrough"; "generative AI innovation"].

Definition searchAINews : M (list Article) :=
  fun st =>
    let allArticles :=
      if truthy newsApiKey then searchWithNewsAPI keywords
      else searchWithDuckDuckGo keywords in
    let newArticles :=
      filter (fun a => negb (existsb (eqb (url a)) (seenArticles st)))
        allArticles in
    (Ok newArticles, st).

Definition callGeminiAPI (prompt : Prompt) : M str :=
  fun st =>
    (gemini prompt,
     {| seenArticles := seenArticles st;
        seenFile := seenFile st;
        geminiCalls := geminiCalls st ++ [prompt] |}).

(** *** Analysis *)

Definition positiveKeywords : list str :=
  map lit
    ["breakthrough"; "innovation"; "advancement"; "progress"; "success";
     "achievement"; "improvement"].

Record Scored : Type := {
  scoredArticle : Article;
  score : Z;
  scoredIndex : Z
}.

Definition positiveScore (a : Article) : Z :=
  let t := toLowerCase (title a ++ lit " " ++ description a) in
  fold_left
    (fun sc keyword => if includes t keyword then sc + 1 else sc)
    positiveKeywords 0.

(** [articles.map((article, index) => ...)], counting from [index]. *)
Fixpoint scoreFrom (articles : list Article) (index : Z) : list Scored :=
  match articles with
  | [] => []
  | a :: rest =>
      {| scoredArticle := a; score := positiveScore a; scoredIndex := index |}
      :: scoreFrom rest (index + 1)
  end.

Definition fixedWhyPositive : str :=
  lit "This development represents positive progress in AI technology".

Definition fixedKeyPoints : list str :=
  map lit
    ["Advances the field of artificial intelligence";
     "Demonstrates practical applications of AI";
     "Shows continued innovation in the sector"].

(** [.map((article, rank) => ...)], counting from [r]. *)
Fixpoint rankFrom (scored : list Scored) (r : Z) : list TopArticle :=
  match scored with
  | [] => []
  | s :: rest =>
      {| rank := r + 1;
         topTitle := title (scoredArticle s);
         summary := description (scoredArticle s);
         whyPositive := fixedWhyPositive;
         keyPoints := fixedKeyPoints;
         originalIndex := scoredIndex s |}
      :: rankFrom rest (r + 1)
  end.

Definition fixedTrend : str :=
  lit "The AI field continues to show positive developments with new breakthroughs and innovations emerging regularly.".

Definition fallbackAnalysis (articles : list Article) : Analysis :=
  let scored := scoreFrom articles 0 in
  let topArticles :=
    rankFrom
      (slice0 (sortBy (fun a b => score b - score a <=? 0) scored) 3)
      0 in
  {| topArticles := topArticles; overallTrend := fixedTrend |}.

(** The scored articles the local analysis keeps. *)
Definition kept (articles : list Article) : list Scored :=
  slice0 (sortBy (fun a b => score b - score a <=? 0) (scoreFrom articles 0)) 3.

Definition analyzeWithGemini (articles : list Article) : M Analysis :=
  if negb (truthy geminiApiKey) then ret (fallbackAnalysis articles)
  else
    tryCatch
      (analysis <- callGeminiAPI (AnalysisPrompt articles) ;;
       lift (JSON_parse analysis))
      (fun _ => ret (fallbackAnalysis articles)).

(** *** Post *)

Definition generateFallbackPost (analysis : Analysis) (articles : list Article)
  : result str :=
  match defined (at_ (topArticles analysis) 0) with
  | Throw e => Throw e
  | Ok topArticle =>
      match defined (at_ articles (originalIndex topArticle)) with
      | Throw e => Throw e
      | Ok originalArticle =>
          Ok ([55357; 56960]%N ++ lit " Exciting developments in AI! " ++ nl ++ nl
              ++ topTitle topArticle ++ nl ++ nl
              ++ summary topArticle ++ nl ++ nl
              ++ lit "This is exactly the kind of positive progress we need to see in artificial intelligence - innovation that moves the field forward and creates real value."
              ++ nl ++ nl
              ++ lit "What are your thoughts on this development? How do you see AI evolving in your industry?"
              ++ nl ++ nl
              ++ lit "#ArtificialIntelligence #AI #Innovation #Technology #FutureOfWork"
              ++ nl ++ nl
              ++ lit "Source: " ++ url originalArticle)
      end
  end.

Definition formatLinkedInPost (post sourceUrl : str) : str :=
  if negb (includes post (lit "http")) && truthy sourceUrl
  then post ++ nl ++ nl ++ lit "Source: " ++ sourceUrl
  else post.

(** The two look-ups and the prompt come before the [try]: what they
    throw leaves the function. *)
Definition generateLinkedInPost (analysis : Analysis) (articles : list Article)
  : M str :=
  if negb (truthy geminiApiKey) then lift (generateFallbackPost analysis articles)
  else
    topArticle <- lift (defined (at_ (topArticles analysis) 0)) ;;
    originalArticle <- lift (defined (at_ articles (originalIndex topArticle))) ;;
    let prompt := PostPrompt topArticle (source originalArticle) in
    tryCatch
      (post <- callGeminiAPI prompt ;;
       ret (formatLinkedInPost post (url originalArticle)))
      (fun _ => lift (generateFallbackPost analysis articles)).

(** *** The run *)

(** The [forEach] that marks the articles as seen. *)
Definition markSeen (articles : list Article) (seen : list str) : list str :=
  fold_left
    (fun acc a => if negb (existsb (eqb (url a)) acc) then acc ++ [url a] else acc)
    articles seen.

Definition markArticlesSeen (articles : list Article) : M unit :=
  fun st =>
    (Ok tt,
     {| seenArticles := markSeen articles (seenArticles st);
        seenFile := seenFile st;
        geminiCalls := geminiCalls st |}).

(** [analysis.topArticles.map(...)] of the result: each entry reads
    the article at its [originalIndex]. *)
Fixpoint resultArticles (articles : list Article) (tops : list TopArticle)
  : result (list ResultArticle) :=
  match tops with
  | [] => Ok []
  | ta :: rest =>
      match defined (at_ articles (originalIndex ta)) with
      | Throw e => Throw e
      | Ok a =>
          match resultArticles articles rest with
          | Throw e => Throw e
          | Ok rs =>
              Ok ({| entry := ta; entryUrl := url a; entrySource := source a |} :: rs)
          end
      end
  end.

Definition noNewArticles : str :=
  lit "No new AI articles found in the last 24 hours".

Definition runBody : M RunResult :=
  articles <- searchAINews ;;
  if (length articles =? 0)%nat then ret (Failure noNewArticles)
  else
    analysis <- analyzeWithGemini articles ;;
    linkedinPost <- generateLinkedInPost analysis articles ;;
    markArticlesSeen articles ;;;
    saveSeenArticles ;;;
    entries <- lift (resultArticles articles (topArticles analysis)) ;;
    ret (Success entries linkedinPost (overallTrend analysis)).

(** [run] never throws: the [catch] turns an exception into a failure
    result. *)
Definition run (st : State) : RunResult * State :=
  match tryCatch runBody (fun e => ret (Failure e)) st with
  | (Ok r, st') => (r, st')
  | (Throw e, st') => (Failure e, st')
  end.

(** The first three steps of [run]: the new articles, their analysis
    and the post, when there are articles and no step throws. *)
Definition synthesis (st : State) : option (list Article * Analysis * str) :=
  match searchAINews st with
  | (Ok articles, st1) =>
      if (length articles =? 0)%nat then None
      else
        match analyzeWithGemini articles st1 with
        | (Ok analysis, st2) =>
            match generateLinkedInPost analysis articles st2 with
            | (Ok post, _) => Some (articles, analysis, post)
            | (Throw _, _) => None
            end
        | (Throw _, _) => None
        end
  | (Throw _, _) => None
  end.

(** An entry of an analysis that refers to an article of the list and
    carries its title and description. *)
Definition refersTo (articles : list Article) (ta : TopArticle) : Prop :=
  exists a, at_ articles (originalIndex ta) = Some a
            /\ topTitle ta = title a /\ summary ta = description a.

(** The articles of the back end in use. *)
Definition found : list Article :=
  if truthy newsApiKey then searchWithNewsAPI keywords
  else searchWithDuckDuckGo keywords.

End Agent.


(** The state after the articles are marked as seen, and after the
    list is written. *)
Definition marked (articles : list Article) (st : State) : State := {|
  seenArticles := markSeen articles (seenArticles st);
  seenFile := seenFile st;
  geminiCalls := geminiCalls st |}.

Definition saved (st : State) : State := {|
  seenArticles := seenArticles st;
  seenFile := Some (seenArticles st);
  geminiCalls := geminiCalls st |}.

(** *** The agent object of a request

    [loadSeenArticles] returns the list the file holds, and the empty
    list when there is no file or reading it throws; the constructor
    starts from it. *)
Definition loadSeenArticles (file : option (list str)) : list str :=
  match file with
  | Some seen => seen
  | None => []
  end.

Definition newAgent (file : option (list str)) : State := {|
  seenArticles := loadSeenArticles file;
  seenFile := file;
  geminiCalls := [] |}.

(** *** Sample inputs *)

Definition sampleNews : Article := {|
  title := lit "A breakthrough in protein folding";
  description := lit "Researchers report progress and a clear improvement.";
  url := lit "https://e.co/a";
  source := lit "e.co";
  publishedAt := lit "2025-01-01T00:00:00.000Z";
  content := lit "Researchers report progress." |}.

Definition otherNews : Article := {|
  title := lit "Quarterly results";
  description := lit "Nothing new.";
  url := lit "https://e.co/b";
  source := lit "e.co";
  publishedAt := lit "2025-01-01T00:00:00.000Z";
  content := lit "Nothing new." |}.

Definition freshState : State := {|
  seenArticles := [];
  seenFile := None;
  geminiCalls := [] |}.

(** An analysis whose only entry points outside a list of one
    article. *)
Definition outOfRange : Analysis := {|
  topArticles :=
    [{| rank := 1;
        topTitle := lit "A breakthrough in protein folding";
        summary := lit "Researchers report progress.";
        whyPositive := lit "It helps medicine.";
        keyPoints := [lit "Faster"];
        originalIndex := 5 |}];
  overallTrend := lit "Steady progress." |}.

Definition geminiSays (t : str) : Prompt -> result str := fun _ => Ok t.
Definition geminiDown : Prompt -> result str := fun _ => Throw (lit "HTTP 503").
Definition parseAs (analysis : Analysis) : str -> result Analysis :=
  fun _ => Ok analysis.
Definition parseFails : str -> result Analysis :=
  fun _ => Throw (lit "Unexpected token").
Definition writeOk : list str -> result unit := fun _ => Ok tt.
Definition nothingFound : list str -> list Article := fun _ => [].
Definition oneFound : list str -> list Article := fun _ => [sampleNews].

End AIGoodNewsAgent.

(** ** ai-agent.js: the two search back ends *)

Module AIGoodNewsSearch.
Import JS AIGoodNewsAgent.

Open Scope string_scope.
Open Scope list_scope.

(** A related topic of the DuckDuckGo answer and an article of the
    NewsAPI answer, with absent text fields as empty strings. *)
Record Topic : Type := {
  FirstURL : str;
  Text : str
}.

Record NewsItem : Type := {
  itemTitle : str;
  itemDescription : str;
  itemUrl : str;
  sourceName : str;
  itemPublishedAt : str;
  itemContent : str
}.

(** What the [try] block of a keyword ends in: it throws (the
    request, [JSON.parse], or the mapping of an article that has no
    source object), or the answer parses, with or without the list
    the back end reads. *)
Inductive Answer (A : Type) : Type :=
| Failed (e : str)
| Parsed (entries : option (list A)).

Arguments Failed {A} e.
Arguments Parsed {A} entries.

Section Search.

(** [new URL(url).hostname], or nothing when the constructor throws. *)
Variable hostname : str -> option str.

(** [new Date().toISOString()] when the n-th article is built. *)
Variable clock : nat -> str.

(** The answers to the request for the n-th keyword. *)
Variable duckDuckGo : nat -> str -> Answer Topic.
Variable newsAPI : nat -> str -> Answer NewsItem.

Definition extractTitle (t : str) : str :=
  let sentences := splitBy (fun c => existsb (N.eqb c) [46; 33; 63]%N) t in
  substring0 (trim (hd [] sentences)) 100.

Definition extractDomain (u : str) : str :=
  match hostname u with
  | Some h => removeFirst (lit "www.") h
  | None => lit "unknown"
  end.

(** The loop over the related topics of one answer. *)
Fixpoint topicArticles (topics : list Topic) (articles : list Article)
  : list Article :=
  match topics with
  | [] => articles
  | topic :: rest =>
      if truthy (FirstURL topic) && truthy (Text topic) then
        topicArticles rest
          (articles
           ++ [{| title := extractTitle (Text topic);
                  description := Text topic;
                  url := FirstURL topic;
                  source := extractDomain (FirstURL topic);
                  publishedAt := clock (length articles);
                  content := Text topic |}])
      else topicArticles rest articles
  end.

(** The loop over the keywords, from the n-th: an exception is logged
    and the next keyword is searched. *)
Fixpoint duckDuckGoFrom (n : nat) (keywords : list str) (articles : list Article)
  : list Article :=
  match keywords with
  | [] => articles
  | keyword :: rest =>
      match duckDuckGo n keyword with
      | Failed _ => duckDuckGoFrom (S n) rest articles
      | Parsed None => duckDuckGoFrom (S n) rest articles
      | Parsed (Some topics) =>
          duckDuckGoFrom (S n) rest (topicArticles topics articles)
      end
  end.

Definition searchWithDuckDuckGo (keywords : list str) : list Article :=
  duckDuckGoFrom 0 keywords [].

Definition newsArticle (item : NewsItem) : Article := {|
  title := itemTitle item;
  description := itemDescription item;
  url := itemUrl item;
  source := sourceName item;
  publishedAt := itemPublishedAt item;
  content := itemContent item |}.

Fixpoint newsAPIFrom (n : nat) (keywords : list str) (articles : list Article)
  : list Article :=
  match keywords with
  | [] => articles
  | keyword :: rest =>
      match newsAPI n keyword with
      | Failed _ => newsAPIFrom (S n) rest articles
      | Parsed None => newsAPIFrom (S n) rest articles
      | Parsed (Some items) =>
          newsAPIFrom (S n) rest (articles ++ map newsArticle items)
      end
  end.

Definition searchWithNewsAPI (keywords : list str) : list Article :=
  newsAPIFrom 0 keywords [].

(** The keywords with their positions in the loop. *)
Definition numbered (keywords : list str) : list (nat * str) :=
  combine (seq 0 (length keywords)) keywords.

End Search.

(** *** Sample answers *)

Definition sampleTopic : Topic := {|
  FirstURL := lit "https://www.example.org/news/1";
  Text := lit "OpenAI ships a new model. It is faster." |}.

Definition sampleItem : NewsItem := {|
  itemTitle := lit "OpenAI ships a new model";
  itemDescription := lit "It is faster.";
  itemUrl := lit "https://www.example.org/news/1";
  sourceName := lit "Example";
  itemPublishedAt := lit "2025-01-01T00:00:00.000Z";
  itemContent := lit "It is faster." |}.

(** Back ends that answer the second request only. *)
Definition secondTopics : nat -> str -> Answer Topic :=
  fun n _ => if (n =? 1)%nat then Parsed (Some [sampleTopic]) else Failed (lit "HTTP 500").

Definition secondItems : nat -> str -> Answer NewsItem :=
  fun n _ => if (n =? 1)%nat then Parsed (Some [sampleItem]) else Failed (lit "HTTP 500").

Definition midnight : nat -> str := fun _ => lit "2025-01-01T00:00:00.000Z".

End AIGoodNewsSearch.

(** ** server.js *)

Module Server.
Import JS AIGoodNewsAgent.

Open Scope string_scope.
Open Scope list_scope.

Inductive Body : Type :=
| RunBody (r : RunResult)
| PostBody (linkedinPost : str)
| ErrorBody (error : str).

Record Response : Type := {
  status : nat;
  body : Body
}.

Section Handlers.

Variable toLowerCase : str -> str.
Variable geminiApiKey : str.
Variable newsApiKey : str.
Variable searchWithNewsAPI : list str -> list Article.
Variable searchWithDuckDuckGo : list str -> list Article.
Variable gemini : Prompt -> result str.
Variable JSON_parse : str -> result Analysis.
Variable writeFileSync : list str -> result unit.

(** A handler returns its response and the file as the request
    leaves it; the agent object of the request is dropped. *)

(** [POST /api/generate]: a new agent is built from the file and run;
    [run] does not throw, so the [catch] of the handler is not
    entered. *)
Definition generate (file : option (list str)) : Response * option (list str) :=
  let (r, st) :=
    run toLowerCase geminiApiKey newsApiKey searchWithNewsAPI
      searchWithDuckDuckGo gemini JSON_parse writeFileSync (newAgent file) in
  match r with
  | Success _ _ _ => ({| status := 200; body := RunBody r |}, seenFile st)
  | Failure _ => ({| status := 500; body := RunBody r |}, seenFile st)
  end.

(** The article the handler builds from an entry of the request. *)
Definition mockArticle (r : ResultArticle) : Article := {|
  title := topTitle (entry r);
  description := summary (entry r);
  url := entryUrl r;
  source := entrySource r;
  publishedAt := [];
  content := [] |}.

(** [POST /api/regenerate-post] with the [articles] and the
    [overallTrend] of the request body; [None] is a body without
    articles. *)
Definition regeneratePost (articles : option (list ResultArticle))
  (trend : str) (file : option (list str)) : Response * option (list str) :=
  match articles with
  | None | Some [] =>
      ({| status := 400;
          body := ErrorBody (lit "No articles provided for regeneration") |},
       file)
  | Some entries =>
      let analysis :=
        {| topArticles := map entry entries; overallTrend := trend |} in
      let mockArticles := map mockArticle entries in
      match generateLinkedInPost geminiApiKey gemini analysis mockArticles
              (newAgent file) with
      | (Ok newPost, st) =>
          ({| status := 200; body := PostBody newPost |}, seenFile st)
      | (Throw e, st) =>
          ({| status := 500;
              body := ErrorBody (lit "Regeneration failed: " ++ e) |},
           seenFile st)
      end
  end.

End Handlers.

(** *** Sample request *)

(** The entry of a run that found [sampleNews] first. *)
Definition sampleEntry : ResultArticle := {|
  entry :=
    {| rank := 1;
       topTitle := title sampleNews;
       summary := description sampleNews;
       whyPositive := fixedWhyPositive;
       keyPoints := fixedKeyPoints;
       originalIndex := 0 |};
  entryUrl := url sampleNews;
  entrySource := source sampleNews |}.

End Server.

(** ** Facts about the JavaScript primitives *)

Module JSFacts.
Import JS.

Lemma eqb_eq (a b : str) : eqb a b = true <-> a = b.
Proof.
  revert b; induction a as [|x a IH]; intros [|y b]; simpl; split; intro H;
    try reflexivity; try discriminate.
  - apply andb_true_iff in H as [Hx Ha].
    apply N.eqb_eq in Hx. apply IH in Ha. congruence.
  - injection H as -> ->. rewrite N.eqb_refl. simpl. now apply IH.
Qed.

Lemma eqb_refl (a : str) : eqb a a = true.
Proof. now apply eqb_eq. Qed.

Lemma len_app (a b : str) : len (a ++ b) = (len a + len b)%Z.
Proof. unfold len. rewrite length_app. lia. Qed.

Lemma len_nonneg (a : str) : (0 <= len a)%Z.
Proof. unfold len. lia. Qed.

Lemma substring0_length (s : str) (e : Z) :
  (0 <= e <= len s)%Z -> len (substring0 s e) = e.
Proof.
  unfold substring0, len. intros H. rewrite length_firstn. lia.
Qed.

Lemma substring0_neg (s : str) (e : Z) : (e <= 0)%Z -> substring0 s e = [].
Proof.
  unfold substring0. intros H.
  replace (Z.to_nat e) with 0%nat by lia. reflexivity.
Qed.

Lemma substring0_prefix (s : str) (e : Z) :
  exists rest, s = substring0 s e ++ rest.
Proof.
  exists (skipn (Z.to_nat e) s). unfold substring0.
  symmetry. apply firstn_skipn.
Qed.

(** *** The stable sort is a permutation *)

Section SortFacts.
Context {A : Type} (before : A -> A -> bool).

Lemma insertSorted_perm (x : A) (l : list A) :
  Permutation (insertSorted before x l) (x :: l).
Proof.
  induction l as [|y r IH]; simpl.
  - reflexivity.
  - destruct (before x y).
    + reflexivity.
    + rewrite IH. apply perm_swap.
Qed.

Lemma sortBy_perm (l : list A) : Permutation (sortBy before l) l.
Proof.
  induction l as [|x r IH]; simpl.
  - reflexivity.
  - rewrite insertSorted_perm. now constructor.
Qed.

Lemma sortBy_In (l : list A) (a : A) : In a (sortBy before l) <-> In a l.
Proof.
  split; apply Permutation_in; [|symmetry]; apply sortBy_perm.
Qed.

Lemma sortBy_length (l : list A) : length (sortBy before l) = length l.
Proof. apply Permutation_length, sortBy_perm. Qed.

(** With a total comparator the result is ordered. *)
Hypothesis before_total : forall x y, before x y = true \/ before y x = true.
Hypothesis before_trans :
  forall x y z, before x y = true -> before y z = true -> before x z = true.

Lemma insertSorted_ordered (x : A) (l : list A) :
  ordered before l -> ordered before (insertSorted before x l).
Proof.
  induction 1 as [|y r Hy Hr IH]; simpl.
  - constructor; constructor.
  - destruct (before x y) eqn:E.
    + constructor.
      * constructor; [assumption|].
        eapply Forall_impl; [|exact Hy]. intros z Hz. eauto.
      * now constructor.
    + assert (Hyx : before y x = true).
      { destruct (before_total x y); congruence. }
      constructor; [|assumption].
      rewrite Forall_forall. intros z Hz.
      apply (Permutation_in _ (insertSorted_perm x r)) in Hz.
      destruct Hz as [<-|Hz]; [assumption|].
      rewrite Forall_forall in Hy. now apply Hy.
Qed.

Lemma sortBy_ordered (l : list A) : ordered before (sortBy before l).
Proof.
  induction l as [|x r IH]; simpl.
  - constructor.
  - now apply insertSorted_ordered.
Qed.
End SortFacts.

(** *** Indexed filter and findIndex *)

Lemma filterIndexed_In {A} (p : A -> Z -> bool) (l : list A) (i : Z) (a : A) :
  In a (filterIndexed p l i) <->
  exists k, nth_error l k = Some a /\ p a (i + Z.of_nat k)%Z = true.
Proof.
  revert i; induction l as [|x r IH]; intros i; simpl.
  - split; [tauto|]. intros [[|k] [H _]]; discriminate.
  - split.
    + intros H.
      assert (Hr : In a (filterIndexed p r (i + 1)%Z) \/ (a = x /\ p x i = true)).
      { destruct (p x i) eqn:E; [destruct H as [->|H]|]; auto. }
      destruct Hr as [Hr|[-> Hp]].
      * apply IH in Hr as [k [Hk Hp]]. exists (S k). split; [exact Hk|].
        replace (i + Z.of_nat (S k))%Z with (i + 1 + Z.of_nat k)%Z by lia.
        exact Hp.
      * exists 0%nat. split; [reflexivity|].
        now replace (i + Z.of_nat 0)%Z with i by lia.
    + intros [[|k] [Hk Hp]].
      * injection Hk as ->.
        replace (i + Z.of_nat 0)%Z with i in Hp by lia.
        rewrite Hp. now left.
      * assert (In a (filterIndexed p r (i + 1)%Z)).
        { apply IH. exists k. split; [exact Hk|].
          now replace (i + 1 + Z.of_nat k)%Z with (i + Z.of_nat (S k))%Z by lia. }
        destruct (p x i); [now right|assumption].
Qed.

Lemma findIndexFrom_found {A} (p : A -> bool) (l : list A) (i : Z) (k : nat) (a : A) :
  nth_error l k = Some a -> p a = true ->
  (i <= findIndexFrom p l i <= i + Z.of_nat k)%Z.
Proof.
  revert i k; induction l as [|x r IH]; intros i k Hk Hp.
  - destruct k; discriminate.
  - simpl. destruct (p x) eqn:E; [lia|].
    destruct k as [|k].
    + injection Hk as ->. congruence.
    + specialize (IH (i + 1)%Z k Hk Hp). lia.
Qed.

Lemma findIndexFrom_first {A} (p : A -> bool) (l : list A) (i : Z) (k : nat) :
  findIndexFrom p l i = (i + Z.of_nat k)%Z -> (0 <= i)%Z ->
  find p l = nth_error l k.
Proof.
  revert i k; induction l as [|x r IH]; intros i k H Hi; simpl in *.
  - lia.
  - destruct (p x) eqn:E.
    + assert (k = 0%nat) by lia. now subst.
    + destruct k as [|k].
      * exfalso.
        destruct r as [|y r']; simpl in H; [lia|].
        destruct (p y).
        -- lia.
        -- assert (Hge : forall (q : list A) j, (0 <= j)%Z ->
                     findIndexFrom p q j = (-1)%Z \/ (j <= findIndexFrom p q j)%Z).
           { induction q as [|z q IHq]; intros j Hj; simpl; [now left|].
             destruct (p z); [right; lia|].
             destruct (IHq (j + 1)%Z); [lia|now left|right; lia]. }
           destruct (Hge r' (i + 1 + 1)%Z); lia.
      * simpl. apply (IH (i + 1)%Z); lia.
Qed.

Lemma findIndexFrom_ext {A} (p q : A -> bool) (l : list A) (i : Z) :
  (forall x, p x = q x) -> findIndexFrom p l i = findIndexFrom q l i.
Proof.
  intros H. revert i; induction l as [|x r IH]; intros i; simpl; [reflexivity|].
  rewrite H. destruct (q x); [reflexivity|apply IH].
Qed.

Lemma find_findIndexFrom {A} (p : A -> bool) (l : list A) (i : Z) (f : A) :
  find p l = Some f ->
  exists k, nth_error l k = Some f /\ findIndexFrom p l i = (i + Z.of_nat k)%Z.
Proof.
  revert i; induction l as [|x r IH]; intros i; simpl; [discriminate|].
  destruct (p x) eqn:E.
  - intros H. injection H as ->. exists 0%nat. split; [reflexivity|lia].
  - intros H. destruct (IH (i + 1)%Z H) as [k [Hk Hi]].
    exists (S k). split; [exact Hk|lia].
Qed.

(** *** Lists *)

Lemma In_firstn {A} (n : nat) (l : list A) (a : A) :
  In a (firstn n l) -> In a l.
Proof.
  revert n; induction l as [|x r IH]; intros [|n]; simpl; try tauto.
  intros [->|H]; [now left|right; eauto].
Qed.

(** An ordered list stays ordered when cut, and its elements come in
    order. *)
Lemma ordered_firstn {A} (before : A -> A -> bool) (n : nat) (l : list A) :
  ordered before l -> ordered before (firstn n l).
Proof.
  intros H. revert n; induction H as [|x l Hx Hl IH]; intros [|n]; simpl;
    try constructor.
  - rewrite Forall_forall in *. intros y Hy. apply Hx.
    eapply In_firstn, Hy.
  - apply IH.
Qed.

Lemma ordered_nth {A} (before : A -> A -> bool) (l : list A) (i j : nat) (a b : A) :
  ordered before l -> (i < j)%nat ->
  nth_error l i = Some a -> nth_error l j = Some b -> before a b = true.
Proof.
  intros H. revert i j; induction H as [|x l Hx Hl IH]; intros i j Hij Ha Hb.
  - destruct i; discriminate.
  - destruct j as [|j]; [lia|]. destruct i as [|i]; simpl in *.
    + injection Ha as <-. rewrite Forall_forall in Hx.
      apply Hx. eapply nth_error_In, Hb.
    + apply (IH i j); [lia|assumption|assumption].
Qed.

Lemma NoDup_map_filter {K V} (keep : V -> bool) (key : V -> K) (xs : list V)
  (distinct : NoDup (map key xs)) : NoDup (map key (filter keep xs)).
Proof.
  revert distinct. induction xs as [|x r IH]; simpl; intros H; [constructor|].
  inversion H as [|? ? Hx Hr]; subst.
  destruct (keep x); simpl; [constructor|]; auto.
  intros Hin. apply Hx. apply in_map_iff in Hin as [y [Hy Hin]].
  apply filter_In in Hin as [Hin _]. apply in_map_iff. eauto.
Qed.

Lemma NoDup_map_firstn {A B} (f : A -> B) (n : nat) (l : list A) :
  NoDup (map f l) -> NoDup (map f (firstn n l)).
Proof.
  revert n; induction l as [|x r IH]; intros [|n] H; simpl; try constructor.
  - inversion H as [|? ? Hx Hr]; subst.
    intros Hin. apply Hx. apply in_map_iff in Hin as [y [Hy Hin]].
    apply in_map_iff. exists y. split; [exact Hy|].
    eapply In_firstn; eassumption.
  - inversion H; subst. now apply IH.
Qed.

End JSFacts.

(** ** Facts about linkedin-ai-news-agent.js *)

Module LinkedInAINewsAgentFacts.
Import JS JSFacts LinkedInAINewsAgent.

Open Scope list_scope.

Lemma Qlt_bool_false (a b : Q) : Qlt_bool a b = false <-> (b <= a)%Q.
Proof.
  unfold Qlt_bool. rewrite negb_false_iff. apply Qle_bool_iff.
Qed.

Lemma Qlt_bool_true (a b : Q) : Qlt_bool a b = true <-> (a < b)%Q.
Proof.
  unfold Qlt_bool. rewrite negb_true_iff. split; intro H.
  - apply Qnot_le_lt. intro Hle. apply Qle_bool_iff in Hle. congruence.
  - destruct (Qle_bool b a) eqn:E; [|reflexivity].
    apply Qle_bool_iff in E. exfalso. now apply (Qlt_not_le a b).
Qed.

Section Facts.

Variable toLowerCase : str -> str.
Variable hostname : str -> option str.
Variable regExpEngine : str -> str -> result nat.
Variable config : Config.

Local Abbreviation fromAbstract := (LinkedInAINewsAgent.fromAbstract toLowerCase hostname).
Local Abbreviation fromItem := (LinkedInAINewsAgent.fromItem toLowerCase regExpEngine).

(** *** Deduplication *)

Lemma uniqueArticles_In (articles : list Article) (a : Article) :
  In a (uniqueArticles articles) <->
  exists k, nth_error articles k = Some a
            /\ findIndex (sameUrl a) articles = Z.of_nat k.
Proof.
  unfold uniqueArticles. rewrite filterIndexed_In.
  split; intros [k [Hk H]]; exists k; (split; [exact Hk|]).
  - apply Z.eqb_eq in H. unfold sameUrl. lia.
  - apply Z.eqb_eq. unfold sameUrl in H. lia.
Qed.

Lemma uniqueArticles_first (articles : list Article) (a : Article) :
  In a (uniqueArticles articles) -> find (sameUrl a) articles = Some a.
Proof.
  intros H. apply uniqueArticles_In in H as [k [Hk H]].
  rewrite <- Hk. apply findIndexFrom_first with (i := 0%Z); [|lia].
  exact H.
Qed.

Lemma uniqueArticles_incl (articles : list Article) (a : Article) :
  In a (uniqueArticles articles) -> In a articles.
Proof.
  intros H. apply uniqueArticles_In in H as [k [Hk _]].
  eapply nth_error_In; eassumption.
Qed.

(** The first article with a given url passes the deduplication. *)
Lemma uniqueArticles_keeps_first (articles : list Article) (a : Article) :
  In a articles ->
  exists f, find (sameUrl a) articles = Some f /\ In f (uniqueArticles articles).
Proof.
  intros Ha.
  destruct (find (sameUrl a) articles) as [f|] eqn:E.
  - exists f. split; [reflexivity|].
    pose proof (find_some _ _ E) as [_ Hf].
    destruct (find_findIndexFrom _ _ 0%Z E) as [k [Hk Hi]].
    apply uniqueArticles_In. exists k. split; [exact Hk|].
    unfold findIndex. rewrite Z.add_0_l in Hi. rewrite <- Hi.
    apply findIndexFrom_ext. intros x. unfold sameUrl in *.
    apply eqb_eq in Hf. now rewrite Hf.
  - exfalso. pose proof (find_none _ _ E a Ha) as H.
    unfold sameUrl in H. now rewrite eqb_refl in H.
Qed.

Lemma unique_suffix_NoDup (whole suf : list Article) (i : nat) :
  (forall k a, nth_error suf k = Some a -> nth_error whole (i + k) = Some a) ->
  NoDup
    (map url
       (filterIndexed
          (fun article index =>
             Z.eqb index (findIndex (fun a => eqb (url a) (url article)) whole))
          suf (Z.of_nat i))).
Proof.
  revert i; induction suf as [|x r IH]; intros i Hsuf; simpl.
  - constructor.
  - assert (Hr : NoDup
                   (map url
                      (filterIndexed
                         (fun article index =>
                            Z.eqb index
                              (findIndex (fun a => eqb (url a) (url article)) whole))
                         r (Z.of_nat (S i))))).
    { apply IH. intros k a Hk.
      replace (S i + k)%nat with (i + S k)%nat by lia. now apply Hsuf. }
    replace (Z.of_nat i + 1)%Z with (Z.of_nat (S i)) by lia.
    destruct (Z.eqb _ _) eqn:E; [|exact Hr].
    simpl. constructor; [|exact Hr].
    intros Hin. apply in_map_iff in Hin as [a [Hu Ha]].
    apply filterIndexed_In in Ha as [k [Hk Hp]].
    apply Z.eqb_eq in Hp.
    assert (Hx : nth_error whole (i + 0) = Some x) by now apply Hsuf.
    pose proof (@findIndexFrom_found _ (fun a0 => eqb (url a0) (url a)) whole 0%Z
                  _ _ Hx) as Hb.
    unfold findIndex in Hp.
    assert (eqb (url x) (url a) = true) by (apply eqb_eq; congruence).
    specialize (Hb H). lia.
Qed.

Lemma uniqueArticles_NoDup (articles : list Article) :
  NoDup (map url (uniqueArticles articles)).
Proof.
  apply (unique_suffix_NoDup articles articles 0). intros k a H. exact H.
Qed.

Lemma filterAndRank_In (articles : list Article) (a : Article) :
  In a (filterAndRankArticles toLowerCase config articles) ->
  In a (uniqueArticles articles) /\ passesQuality toLowerCase config a = true.
Proof.
  unfold filterAndRankArticles, slice0. intros H.
  apply In_firstn in H. apply sortBy_In in H.
  now apply filter_In in H.
Qed.


(** *** The range of the score *)

Lemma matches_nonneg (m : nat) : (0 <= inject_Z (Z.of_nat m) * 0.15)%Q.
Proof.
  apply Qmult_le_0_compat; [|discriminate].
  change 0%Q with (inject_Z 0). rewrite <- Zle_Qle. lia.
Qed.

Lemma queryWordsScore_ge (lowerText : str) (queryWords : list str) (score v : Q) :
  queryWordsScore regExpEngine lowerText queryWords score = Ok v ->
  (score <= v)%Q.
Proof.
  revert score; induction queryWords as [|word rest IH]; intros score H;
    simpl in H.
  - injection H as ->. apply Qle_refl.
  - destruct (2 <? len word)%Z; [|now apply IH].
    destruct (matchCount regExpEngine word lowerText) as [m|e]; [|discriminate].
    apply IH in H. pose proof (matches_nonneg m). lra.
Qed.

Lemma boost_ge (lowerText : str) (terms : list str) (by_ score : Q) :
  (0 <= by_)%Q -> (score <= boost lowerText terms by_ score)%Q.
Proof.
  intros Hb. unfold boost. revert score.
  induction terms as [|term rest IH]; intros score; simpl.
  - apply Qle_refl.
  - destruct (includes lowerText term).
    + eapply Qle_trans; [|apply IH]. lra.
    + apply IH.
Qed.

Lemma calculateRelevanceScore_unfold (t query : str) (v : Q) :
  calculateRelevanceScore toLowerCase regExpEngine t query = Ok v ->
  exists s,
    queryWordsScore regExpEngine (toLowerCase t)
      (splitBy (N.eqb 32) (toLowerCase query)) 0 = Ok s
    /\ v = Qmin
             (boost (toLowerCase t) newsTerms 0.1
                (boost (toLowerCase t) mediumValueTerms 0.2
                   (boost (toLowerCase t) highValueTerms 0.3 s)))
             1.0.
Proof.
  unfold calculateRelevanceScore.
  destruct (queryWordsScore _ _ _ _) as [s|e]; intros H; [|discriminate].
  exists s. split; [reflexivity|]. congruence.
Qed.

Lemma clamp_range (x : Q) : (0 <= x)%Q -> (0 <= Qmin x 1.0 <= 1)%Q.
Proof.
  intros H. split.
  - apply Q.min_glb; [exact H|discriminate].
  - eapply Qle_trans; [apply Q.le_min_r|discriminate].
Qed.

Lemma calculateRelevanceScore_range (t query : str) (v : Q) :
  calculateRelevanceScore toLowerCase regExpEngine t query = Ok v ->
  (0 <= v <= 1)%Q.
Proof.
  intros H. apply calculateRelevanceScore_unfold in H as [s [Hs ->]].
  apply queryWordsScore_ge in Hs.
  apply clamp_range.
  revert Hs.
  generalize (toLowerCase t) highValueTerms mediumValueTerms newsTerms.
  intros lowerText hi me ne Hs.
  pose proof (@boost_ge lowerText hi 0.3 s) as H1.
  pose proof (@boost_ge lowerText me 0.2 (boost lowerText hi 0.3 s)) as H2.
  pose proof (@boost_ge lowerText ne 0.1
                (boost lowerText me 0.2 (boost lowerText hi 0.3 s))) as H3.
  assert (Ha : (0 <= 0.3)%Q) by discriminate.
  assert (Hb : (0 <= 0.2)%Q) by discriminate.
  assert (Hc : (0 <= 0.1)%Q) by discriminate.
  specialize (H1 Ha). specialize (H2 Hb). specialize (H3 Hc).
  eapply Qle_trans; [exact Hs|]. eapply Qle_trans; [exact H1|].
  eapply Qle_trans; [exact H2|]. exact H3.
Qed.

(** *** What the normalizer produces *)

Lemma abstractArticle_score (data : SearchData) (q : str) (a : Article) :
  abstractArticle toLowerCase hostname data q = Some a ->
  relevanceScore a = 0.9%Q.
Proof.
  unfold abstractArticle. intros H.
  destruct (_ && _); [|discriminate].
  destruct (isNewsWorthy _ _); [|discriminate].
  now injection H as <-.
Qed.

Lemma itemArticle_scored (item : Item) (q : str) (a : Article) :
  itemArticle toLowerCase hostname regExpEngine item q = Ok (Some a) ->
  fromItem q a.
Proof.
  unfold itemArticle, fromItem. intros H.
  destruct (_ && _); [|discriminate].
  destruct (100 <? len _)%Z eqn:L; [|discriminate].
  destruct (calculateRelevanceScore _ _ _ _) as [v|e] eqn:E; [|discriminate].
  cbn [summary relevanceScore] in H.
  destruct (isNewsWorthy _ _); [|discriminate].
  destruct (Qlt_bool 0.3 v) eqn:Hv; [|discriminate].
  injection H as <-. cbn [summary relevanceScore].
  repeat split; [exact E|now apply Qlt_bool_true|now apply Z.ltb_lt].
Qed.

Lemma processItems_keeps (P : Article -> Prop) (q : str) (items : list Item)
  (articles : list Article) :
  (forall a, fromItem q a -> P a) -> Forall P articles ->
  Forall P (fst (processItems toLowerCase hostname regExpEngine items q articles)).
Proof.
  intros HP. revert articles.
  induction items as [|item rest IH]; intros articles Ha; simpl.
  - exact Ha.
  - destruct (itemArticle _ _ _ _ _) as [[a|]|e] eqn:E; simpl; auto.
    apply IH. apply Forall_app. split; [exact Ha|].
    constructor; [|constructor]. apply HP. eapply itemArticle_scored, E.
Qed.

Lemma processTopics_keeps (P : Article -> Prop) (q : str)
  (topics : list RelatedTopic) (articles : list Article) :
  (forall a, fromItem q a -> P a) -> Forall P articles ->
  Forall P (fst (processTopics toLowerCase hostname regExpEngine topics q articles)).
Proof.
  intros HP. revert articles.
  induction topics as [|topic rest IH]; intros articles Ha; simpl.
  - exact Ha.
  - pose proof (@processItems_keeps P q (topicsToProcess topic) articles HP Ha) as Hi.
    destruct (processItems _ _ _ _ _ _) as [articles' [e|]]; simpl in *; auto.
Qed.

Lemma parseSearchResults_origin (data : SearchData) (q : str) :
  Forall (fun a => fromAbstract data q a \/ fromItem q a)
    (parseSearchResults toLowerCase hostname regExpEngine data q).
Proof.
  unfold parseSearchResults.
  set (P := fun a => fromAbstract data q a \/ fromItem q a).
  assert (HP : forall a, fromItem q a -> P a) by (intros a H; now right).
  assert (H0 : Forall P
                 match abstractArticle toLowerCase hostname data q with
                 | Some a => [a]
                 | None => []
                 end).
  { destruct (abstractArticle _ _ _ _) as [a|] eqn:E; constructor; [|constructor].
    left. split; [exact E|]. eapply abstractArticle_score, E. }
  pose proof (@processTopics_keeps P q (orEmpty (RelatedTopics data)) _ HP H0) as Ht.
  destruct (processTopics _ _ _ _ _ _) as [articles' [e|]]; simpl in Ht; auto.
  now apply processItems_keeps.
Qed.

Lemma origin_range (data : SearchData) (q : str) (a : Article) :
  fromAbstract data q a \/ fromItem q a -> (0 <= relevanceScore a <= 1)%Q.
Proof.
  intros [[_ ->]|[H _]].
  - split; discriminate.
  - eapply calculateRelevanceScore_range, H.
Qed.


(** *** The batch of a search *)

Variable network : nat -> str -> HttpOutcome.

Local Abbreviation parse := (parseSearchResults toLowerCase hostname regExpEngine).
Local Abbreviation performSearch :=
  (LinkedInAINewsAgent.performSearch toLowerCase hostname regExpEngine config network).
Local Abbreviation searchKeywords :=
  (LinkedInAINewsAgent.searchKeywords toLowerCase hostname regExpEngine network).
Local Abbreviation searchAINews :=
  (LinkedInAINewsAgent.searchAINews toLowerCase hostname regExpEngine config network).
Local Abbreviation filterAndRank := (filterAndRankArticles toLowerCase config).

Local Abbreviation batch := (LinkedInAINewsAgent.batch config).

Lemma searchKeywords_requests (keywords : list str) (timeframe : str)
  (articles : list Article) (sent : list Request) :
  snd (searchKeywords keywords timeframe articles sent)
  = sent ++ map (fun keyword => {| reqQuery := keyword; reqTimeframe := timeframe |})
              keywords.
Proof.
  revert articles sent; induction keywords as [|keyword rest IH];
    intros articles sent; simpl.
  - now rewrite app_nil_r.
  - unfold duckDuckGoSearch.
    destruct (network (length sent) keyword);
      try destruct (0 <? _)%Z; rewrite IH, <- app_assoc; reflexivity.
Qed.

Lemma performSearch_requests (timeframe : str) (sent : list Request) :
  snd (performSearch timeframe sent) = sent ++ batch timeframe.
Proof. apply searchKeywords_requests. Qed.

Lemma searchKeywords_keeps (P : Article -> Prop) (keywords : list str)
  (timeframe : str) (articles : list Article) (sent : list Request) :
  (forall data q a, fromAbstract data q a \/ fromItem q a -> P a) ->
  Forall P articles ->
  Forall P (fst (searchKeywords keywords timeframe articles sent)).
Proof.
  intros HP. revert articles sent;
    induction keywords as [|keyword rest IH]; intros articles sent Ha; simpl.
  - exact Ha.
  - unfold duckDuckGoSearch.
    destruct (network (length sent) keyword) as [e| |data].
    + now apply IH.
    + destruct (0 <? _)%Z; apply IH; [|exact Ha].
      now rewrite app_nil_r.
    + destruct (0 <? _)%Z; apply IH; [|exact Ha].
      apply Forall_app. split; [exact Ha|].
      eapply Forall_impl; [|apply parseSearchResults_origin].
      intros a H. eapply HP, H.
Qed.

Lemma performSearch_range (timeframe : str) (sent : list Request) :
  Forall (fun a => (0 <= relevanceScore a <= 1)%Q)
    (fst (performSearch timeframe sent)).
Proof.
  apply searchKeywords_keeps; [|constructor].
  intros data q a H. eapply origin_range, H.
Qed.

Lemma passesQuality_true (a : Article) :
  passesQuality toLowerCase config a = true ->
  isExcluded toLowerCase config a = false
  /\ (minRelevanceScore (search config) <= relevanceScore a)%Q
  /\ (100 <= len (summary a))%Z.
Proof.
  unfold passesQuality. intros H.
  destruct (isExcluded _ _ _); [discriminate|].
  destruct (Qlt_bool _ _) eqn:Hs; [discriminate|].
  destruct (len (summary a) <? 100)%Z eqn:Hl; [discriminate|].
  repeat split.
  - now apply Qlt_bool_false.
  - now apply Z.ltb_ge.
Qed.


(** *** The score and the words of the specification *)

Lemma syntax_dot (c : N) : isSyntaxCharacter c = false -> N.eqb c 46 = false.
Proof.
  intros H. destruct (N.eqb c 46) eqn:E; [|reflexivity].
  apply N.eqb_eq in E. subst c. discriminate.
Qed.

Lemma compile_literal (w : str) :
  isLiteralWord w = true -> compile w = Some (map Lit w).
Proof.
  induction w as [|c r IH]; simpl; intros H; [reflexivity|].
  apply andb_true_iff in H as [Hc Hr]. apply negb_true_iff in Hc.
  rewrite (IH Hr), (syntax_dot _ Hc), Hc. reflexivity.
Qed.

Lemma matchesAt_literal (w s : str) : matchesAt (map Lit w) s = startsWith w s.
Proof.
  revert s; induction w as [|c r IH]; intros [|d s]; simpl; try reflexivity.
  now rewrite IH.
Qed.

Lemma countFrom_literal (w : str) (k : nat) (s : str) :
  w <> [] -> countFrom (map Lit w) k s = occurrencesFrom w k s.
Proof.
  intros Hw. revert k; induction s as [|d s IH]; intros k;
    cbn [countFrom occurrencesFrom].
  - destruct k, w; simpl; congruence.
  - destruct k as [|k]; [|apply IH].
    rewrite matchesAt_literal, length_map.
    destruct (startsWith w (d :: s)); now rewrite IH.
Qed.

Lemma matchCount_literal (word lowerText : str) :
  (2 <? len word)%Z = true -> isLiteralWord word = true ->
  matchCount regExpEngine word lowerText = Ok (occurrences word lowerText).
Proof.
  intros Hl Hw. unfold matchCount, countMatches, occurrences.
  rewrite (compile_literal _ Hw), countFrom_literal; [reflexivity|].
  intros ->. discriminate.
Qed.

Lemma queryWordsScore_literal (lowerText : str) (queryWords : list str) (score : Q) :
  Forall (fun w => isLiteralWord w = true) queryWords ->
  exists v, queryWordsScore regExpEngine lowerText queryWords score = Ok v
            /\ (v == score + keywordPart lowerText queryWords)%Q.
Proof.
  intros H. revert score; induction H as [|word rest Hw Hr IH]; intros score;
    simpl.
  - exists score. split; [reflexivity|ring].
  - destruct (2 <? len word)%Z eqn:L.
    + rewrite (matchCount_literal _ lowerText L Hw).
      destruct (IH (score + inject_Z (Z.of_nat (occurrences word lowerText)) * 0.15)%Q)
        as [v [Hv Heq]].
      exists v. split; [exact Hv|]. rewrite Heq. ring.
    + destruct (IH score) as [v [Hv Heq]].
      exists v. split; [exact Hv|]. rewrite Heq. ring.
Qed.

Lemma boost_present (lowerText : str) (terms : list str) (by_ score : Q) :
  (boost lowerText terms by_ score == score + by_ * present lowerText terms)%Q.
Proof.
  unfold boost, present. revert score.
  induction terms as [|term rest IH]; intros score; simpl.
  - ring.
  - destruct (includes lowerText term); rewrite IH; [|reflexivity].
    cbn [length]. rewrite Nat2Z.inj_succ, <- Z.add_1_r, inject_Z_plus. ring.
Qed.

(** For a query whose words hold no syntax character the code
    returns the score of the specification. *)
Lemma calculateRelevanceScore_literal (t query : str) :
  Forall (fun w => isLiteralWord w = true)
    (splitBy (N.eqb 32) (toLowerCase query)) ->
  exists v, calculateRelevanceScore toLowerCase regExpEngine t query = Ok v
            /\ (v == specRelevanceScore toLowerCase t query)%Q.
Proof.
  intros H. unfold calculateRelevanceScore, specRelevanceScore.
  destruct (queryWordsScore_literal (toLowerCase t) 0 H) as [s [Hs Heq]].
  rewrite Hs. eexists. split; [reflexivity|].
  apply Q.min_compat; [|reflexivity].
  rewrite !boost_present, Heq. ring.
Qed.

(** *** Posts *)

Lemma setAdd_extends (x : str) (s : list str) : exists r, setAdd x s = s ++ r.
Proof.
  unfold setAdd. destruct (existsb _ _).
  - exists []. now rewrite app_nil_r.
  - now exists [x].
Qed.

Lemma hashtags_extend (t : str) (kvs : list (str * str)) (tags : list str) :
  exists r,
    fold_left
      (fun tags kv => if includes t (fst kv) then setAdd (snd kv) tags else tags)
      kvs tags
    = tags ++ r.
Proof.
  revert tags; induction kvs as [|kv rest IH]; intros tags; simpl.
  - exists []. now rewrite app_nil_r.
  - destruct (includes t (fst kv)).
    + destruct (setAdd_extends (snd kv) tags) as [r1 ->].
      destruct (IH (tags ++ r1)) as [r2 ->].
      exists (r1 ++ r2). now rewrite app_assoc.
    + apply IH.
Qed.

Lemma generateHashtags_length (a : Article) :
  (length (generateHashtags toLowerCase config a) <= maxHashtags (posts config))%nat.
Proof. unfold generateHashtags, slice0. apply firstn_le_length. Qed.

Lemma generateHashtags_generic (a : Article) :
  (2 <= maxHashtags (posts config))%nat ->
  exists rest,
    generateHashtags toLowerCase config a
    = lit "#ArtificialIntelligence" :: lit "#AI" :: rest.
Proof.
  intros H. unfold generateHashtags, slice0.
  change (setAdd (lit "#AI") (setAdd (lit "#ArtificialIntelligence") []))
    with [lit "#ArtificialIntelligence"; lit "#AI"].
  destruct (hashtags_extend
              (toLowerCase (title a ++ lit " " ++ summary a)) hashtagMap
              [lit "#ArtificialIntelligence"; lit "#AI"]) as [r ->].
  destruct (maxHashtags (posts config)) as [|[|n]]; [lia|lia|].
  simpl. eauto.
Qed.

Lemma fitContent_length (a : Article) (c : str) :
  (3 <= maxContentLength toLowerCase config a)%Z ->
  (len (fitContent toLowerCase config a c) <= maxContentLength toLowerCase config a)%Z.
Proof.
  intros H. unfold fitContent.
  destruct (_ <? len c)%Z eqn:E.
  - apply Z.ltb_lt in E. rewrite len_app, substring0_length; [|lia].
    change (len (lit "...")) with 3%Z. lia.
  - now apply Z.ltb_ge in E.
Qed.

Lemma post_length (random : nat) (a : Article) (style : str) :
  characterCount (createLinkedInPost toLowerCase config random a style)
  = (len (fitContent toLowerCase config a (styleContent toLowerCase random a style))
     + 2 + len (join (lit " ") (generateHashtags toLowerCase config a))
     + len (sourceText a))%Z.
Proof.
  unfold createLinkedInPost. cbn [characterCount].
  rewrite !len_app. change (len nl) with 1%Z. lia.
Qed.

(** The post is within the limit whenever the budget leaves room for
    the ellipsis. *)
Lemma createLinkedInPost_within (random : nat) (a : Article) (style : str) :
  (3 <= maxContentLength toLowerCase config a)%Z ->
  (characterCount (createLinkedInPost toLowerCase config random a style)
   <= maxCharacters (posts config))%Z.
Proof.
  intros H. rewrite post_length.
  pose proof (fitContent_length a (styleContent toLowerCase random a style) H) as Hf.
  unfold maxContentLength in *. lia.
Qed.

(** It is over the limit when the hashtags and the source line leave
    a budget below -5. *)
Lemma createLinkedInPost_over (random : nat) (a : Article) (style : str) :
  (maxContentLength toLowerCase config a < -5)%Z ->
  (maxCharacters (posts config)
   < characterCount (createLinkedInPost toLowerCase config random a style))%Z.
Proof.
  intros H. rewrite post_length. unfold fitContent.
  pose proof (len_nonneg (styleContent toLowerCase random a style)) as Hc.
  destruct (_ <? len _)%Z eqn:E; [|apply Z.ltb_ge in E; lia].
  rewrite len_app, substring0_neg by lia.
  change (len []) with 0%Z. change (len (lit "...")) with 3%Z.
  unfold maxContentLength in *. lia.
Qed.

(** What the post is made of: the body, cut with an ellipsis when it
    is over the budget, then the hashtags and the source line. *)
Lemma createLinkedInPost_shape (random : nat) (a : Article) (style : str) :
  let post := createLinkedInPost toLowerCase config random a style in
  let body := styleContent toLowerCase random a style in
  let budget := maxContentLength toLowerCase config a in
  characterCount post = len (content post)
  /\ hashtags post = generateHashtags toLowerCase config a
  /\ content post
     = (if (budget <? len body)%Z
        then substring0 body (budget - 3) ++ lit "..."
        else body)
       ++ nl ++ nl ++ join (lit " ") (hashtags post)
       ++ nl ++ nl ++ lit "Source: " ++ url a.
Proof.
  simpl. repeat split.
Qed.


(** *** The claims about search, normalizer and filter *)

(** C5.  For every input list, no two articles of the result of
    [filterAndRankArticles] have the same url, and an article of the
    result is the first article of the input with its url; of the input
    articles that share a url it is the first occurrence that passes the
    deduplication step. *)
Theorem filterAndRankArticles_dedup (articles : list Article) :
  NoDup (map url (filterAndRank articles))
  /\ (forall a, In a (filterAndRank articles) ->
                find (fun x => eqb (url x) (url a)) articles = Some a)
  /\ (forall a, In a articles ->
                exists f, find (fun x => eqb (url x) (url a)) articles = Some f
                          /\ In f (uniqueArticles articles)).
Proof.
  split; [|split; [|exact (uniqueArticles_keeps_first articles)]].
  - unfold filterAndRankArticles, slice0.
    apply NoDup_map_firstn.
    eapply Permutation_NoDup.
    + apply Permutation_map. symmetry. apply sortBy_perm.
    + apply NoDup_map_filter, uniqueArticles_NoDup.
  - intros a H. apply filterAndRank_In in H as [H _].
    now apply uniqueArticles_first in H.
Qed.

(** C8.  Whatever the provider answers, every article that
    [filterAndRankArticles] returns for the batch of [performSearch] has
    a relevance score in [0,1] that is at least the configured minimum,
    a summary of at least 100 code units, and a source that, in lower
    case, contains no entry of the excluded list in lower case. *)
Theorem filterAndRankArticles_quality (timeframe : str) (sent : list Request)
  (a : Article) :
  In a (filterAndRank (fst (performSearch timeframe sent))) ->
  (0 <= relevanceScore a <= 1)%Q
  /\ (minRelevanceScore (search config) <= relevanceScore a)%Q
  /\ (100 <= len (summary a))%Z
  /\ forall ex, In ex (excluded (sources config)) ->
                includes (toLowerCase (source a)) (toLowerCase ex) = false.
Proof.
  intros H. apply filterAndRank_In in H as [Hu Hq].
  apply uniqueArticles_incl in Hu.
  pose proof (performSearch_range timeframe sent) as Hr.
  rewrite Forall_forall in Hr. specialize (Hr a Hu).
  apply passesQuality_true in Hq as [Hex [Hmin Hlen]].
  repeat split; try tauto.
  intros ex Hin. unfold isExcluded in Hex.
  destruct (includes _ _) eqn:E; [|reflexivity].
  assert (existsb
            (fun ex0 => includes (toLowerCase (source a)) (toLowerCase ex0))
            (excluded (sources config)) = true).
  { apply existsb_exists. eauto. }
  congruence.
Qed.

(** C9.  The search stage sends the batch of the keywords with the
    timeframe d; when that batch yields no article it sends the whole
    batch once more with the timeframe w and ranks what that second
    batch yields; when the first batch yields an article it sends
    nothing more and ranks the first batch. *)
Theorem searchAINews_widens_once (sent : list Request) :
  let first := fst (performSearch (lit "d") sent) in
  snd (searchAINews sent)
  = sent ++ batch (lit "d")
    ++ (if (length first =? 0)%nat then batch (lit "w") else [])
  /\ fst (searchAINews sent)
     = filterAndRank
         (if (length first =? 0)%nat
          then fst (performSearch (lit "w") (sent ++ batch (lit "d")))
          else first).
Proof.
  intros first. subst first. unfold LinkedInAINewsAgent.searchAINews.
  pose proof (performSearch_requests (lit "d") sent) as H1.
  destruct (performSearch (lit "d") sent) as [all1 sent1].
  cbn [fst snd] in *. subst sent1.
  destruct (length all1 =? 0)%nat.
  - pose proof (performSearch_requests (lit "w") (sent ++ batch (lit "d"))) as H2.
    destruct (performSearch (lit "w") (sent ++ batch (lit "d"))) as [all2 sent2].
    cbn [fst snd] in *. subst sent2.
    split; [now rewrite <- app_assoc|reflexivity].
  - cbn [fst snd]. split; [now rewrite app_nil_r|reflexivity].
Qed.

(** C10, as amended.  Every article of [parseSearchResults] has a
    relevance score in [0,1].  The article built from a related topic or
    from a result has the score [calculateRelevanceScore] gives for its
    text and the query, and that score is above 0.3; the article built
    from the direct abstract result has the fixed score 0.9. *)
Theorem parseSearchResults_scores (data : SearchData) (q : str) (a : Article) :
  In a (parse data q) ->
  (0 <= relevanceScore a <= 1)%Q
  /\ ((abstractArticle toLowerCase hostname data q = Some a
       /\ relevanceScore a = 0.9%Q)
      \/ (calculateRelevanceScore toLowerCase regExpEngine (summary a) q
            = Ok (relevanceScore a)
          /\ (0.3 < relevanceScore a)%Q)).
Proof.
  intros H. pose proof (parseSearchResults_origin data q) as Ho.
  rewrite Forall_forall in Ho. specialize (Ho a H).
  split; [eapply origin_range, Ho|].
  destruct Ho as [Ho|[Hs [Hl _]]]; [left; exact Ho|right; now split].
Qed.

End Facts.

(** *** The claims at concrete inputs *)

(** C5 at two articles with one url: the first is kept and is the first
    of the input with that url. *)
Lemma filterAndRankArticles_dedup_witness :
  In firstCopy (filterAndRankArticles asciiLower CONFIG [firstCopy; secondCopy])
  /\ find (fun x => eqb (url x) (url firstCopy)) [firstCopy; secondCopy]
     = Some firstCopy.
Proof.
  assert (H : In firstCopy
                (filterAndRankArticles asciiLower CONFIG [firstCopy; secondCopy])).
  { vm_compute. left. reflexivity. }
  split; [exact H|].
  exact (proj1 (proj2 (filterAndRankArticles_dedup asciiLower CONFIG
                         [firstCopy; secondCopy])) firstCopy H).
Defined.

(** C8 at a provider that answers every request with [oneTopic]. *)
Lemma filterAndRankArticles_quality_witness :
  In keptArticle
    (filterAndRankArticles asciiLower CONFIG
       (fst (performSearch asciiLower httpsHost rejectingEngine CONFIG answering
               (lit "d") [])))
  /\ (0 <= relevanceScore keptArticle <= 1)%Q
  /\ (minRelevanceScore (search CONFIG) <= relevanceScore keptArticle)%Q
  /\ (100 <= len (summary keptArticle))%Z.
Proof.
  assert (H : In keptArticle
                (filterAndRankArticles asciiLower CONFIG
                   (fst (performSearch asciiLower httpsHost rejectingEngine CONFIG
                           answering (lit "d") [])))).
  { vm_compute. left. reflexivity. }
  split; [exact H|].
  pose proof (filterAndRankArticles_quality asciiLower httpsHost rejectingEngine
                CONFIG answering (lit "d") [] keptArticle H) as Q.
  tauto.
Defined.

(** C10, as amended, at the article built from the related topic of
    [oneTopic]. *)
Lemma parseSearchResults_scores_witness :
  In topicArticle
    (parseSearchResults asciiLower httpsHost rejectingEngine oneTopic (lit "OpenAI"))
  /\ (0 <= relevanceScore topicArticle <= 1)%Q.
Proof.
  assert (H : In topicArticle
                (parseSearchResults asciiLower httpsHost rejectingEngine oneTopic
                   (lit "OpenAI"))).
  { vm_compute. left. reflexivity. }
  split; [exact H|].
  exact (proj1 (parseSearchResults_scores asciiLower httpsHost rejectingEngine
                  oneTopic (lit "OpenAI") topicArticle H)).
Defined.

(** C10, the claim as stated fails: the article of a direct abstract
    result carries 0.9, while [calculateRelevanceScore] gives 1.0 for its
    text and the query. *)
Lemma parseSearchResults_abstract_score_fixed :
  let q := lit "OpenAI" in
  let articles :=
    parseSearchResults asciiLower httpsHost rejectingEngine abstractOnly q in
  map relevanceScore articles = [0.9%Q]
  /\ map (fun a => calculateRelevanceScore asciiLower rejectingEngine (summary a) q)
       articles
     = [Ok 1.0%Q]
  /\ ~ (0.9 == 1.0)%Q.
Proof.
  vm_compute. repeat split. discriminate.
Qed.

(** C7, the code at a query word that is a pattern: the word [a.i.]
    of the query matches the letters [adin] of [Leading], so the code
    returns 0.4, where the keyword itself does not occur in the text and
    the score of the specification is 0.25. *)
Theorem calculateRelevanceScore_pattern_word :
  let t := lit "Leading research" in
  let query := lit "A.I. research" in
  exists v,
    calculateRelevanceScore asciiLower rejectingEngine t query = Ok v
    /\ (v == 0.4)%Q
    /\ (specRelevanceScore asciiLower t query == 0.25)%Q.
Proof.
  eexists. split; [vm_compute; reflexivity|].
  split; vm_compute; reflexivity.
Qed.

(** C1, the code at an article whose URL has 3000 code units: for
    every style and every draw the post is longer than the configured
    maximum, the body being cut down to the ellipsis alone. *)
Theorem createLinkedInPost_long_url_over_limit (random : nat) (style : str) :
  (maxCharacters (posts CONFIG)
   < characterCount (createLinkedInPost asciiLower CONFIG random longUrlArticle style))%Z
  /\ characterCount
       (createLinkedInPost asciiLower CONFIG 0 longUrlArticle (lit "news_share"))
     = 3079%Z.
Proof.
  split.
  - apply createLinkedInPost_over. vm_compute. reflexivity.
  - vm_compute. reflexivity.
Qed.

End LinkedInAINewsAgentFacts.

(** ** Facts about ai-agent.js *)

Module AIGoodNewsAgentFacts.
Import JS JSFacts AIGoodNewsAgent.

Open Scope list_scope.
Open Scope Z_scope.

Section Facts.

Variable toLowerCase : str -> str.
Variable geminiApiKey : str.
Variable newsApiKey : str.
Variable searchWithNewsAPI : list str -> list Article.
Variable searchWithDuckDuckGo : list str -> list Article.
Variable gemini : Prompt -> result str.
Variable JSON_parse : str -> result Analysis.
Variable writeFileSync : list str -> result unit.

Local Abbreviation fallbackAnalysis := (AIGoodNewsAgent.fallbackAnalysis toLowerCase).
Local Abbreviation positiveScore := (AIGoodNewsAgent.positiveScore toLowerCase).
Local Abbreviation scoreFrom := (AIGoodNewsAgent.scoreFrom toLowerCase).
Local Abbreviation kept := (AIGoodNewsAgent.kept toLowerCase).
Local Abbreviation analyzeWithGemini :=
  (AIGoodNewsAgent.analyzeWithGemini toLowerCase geminiApiKey gemini JSON_parse).
Local Abbreviation generateLinkedInPost :=
  (AIGoodNewsAgent.generateLinkedInPost geminiApiKey gemini).
Local Abbreviation searchAINews :=
  (AIGoodNewsAgent.searchAINews newsApiKey searchWithNewsAPI searchWithDuckDuckGo).
Local Abbreviation synthesis :=
  (AIGoodNewsAgent.synthesis toLowerCase geminiApiKey newsApiKey searchWithNewsAPI
     searchWithDuckDuckGo gemini JSON_parse).
Local Abbreviation run :=
  (AIGoodNewsAgent.run toLowerCase geminiApiKey newsApiKey searchWithNewsAPI
     searchWithDuckDuckGo gemini JSON_parse writeFileSync).

(** *** The local analysis *)

Lemma scoreFrom_In (articles : list Article) (i : Z) (s : Scored) :
  In s (scoreFrom articles i) <->
  exists k, nth_error articles k = Some (scoredArticle s)
            /\ scoredIndex s = i + Z.of_nat k
            /\ score s = positiveScore (scoredArticle s).
Proof.
  revert i; induction articles as [|a rest IH]; intros i; simpl.
  - split; [tauto|]. intros [[|k] [H _]]; discriminate.
  - rewrite IH. split.
    + intros [<-|[k [Hk [Hi Hs]]]].
      * exists 0%nat. simpl. repeat split. lia.
      * exists (S k). simpl. repeat split; [exact Hk|lia|exact Hs].
    + intros [[|k] [Hk [Hi Hs]]]; simpl in Hk.
      * left. destruct s as [a' sc ix]; simpl in *.
        injection Hk as ->. f_equal; [congruence|lia].
      * right. exists k. repeat split; [exact Hk|lia|exact Hs].
Qed.

Lemma scoreFrom_length (articles : list Article) (i : Z) :
  length (scoreFrom articles i) = length articles.
Proof.
  revert i; induction articles as [|a rest IH]; intros i; simpl; [reflexivity|].
  now rewrite IH.
Qed.

Lemma rankFrom_length (scored : list Scored) (r : Z) :
  length (rankFrom scored r) = length scored.
Proof.
  revert r; induction scored as [|s rest IH]; intros r; simpl; [reflexivity|].
  now rewrite IH.
Qed.

Lemma rankFrom_ranks (scored : list Scored) (r : Z) :
  map rank (rankFrom scored r)
  = map (fun k => r + 1 + Z.of_nat k) (seq 0 (length scored)).
Proof.
  revert r; induction scored as [|s rest IH]; intros r; simpl; [reflexivity|].
  f_equal; [lia|]. rewrite IH, <- seq_shift, map_map.
  apply map_ext. intros k. lia.
Qed.

Lemma rankFrom_In (scored : list Scored) (r : Z) (ta : TopArticle) :
  In ta (rankFrom scored r) ->
  exists s, In s scored
            /\ topTitle ta = title (scoredArticle s)
            /\ summary ta = description (scoredArticle s)
            /\ whyPositive ta = fixedWhyPositive
            /\ keyPoints ta = fixedKeyPoints
            /\ originalIndex ta = scoredIndex s.
Proof.
  revert r; induction scored as [|s rest IH]; intros r; simpl; [tauto|].
  intros [<-|H].
  - exists s. simpl. repeat split. now left.
  - destruct (IH _ H) as [s' [Hs' Hrest]]. exists s'. split; [now right|exact Hrest].
Qed.

Lemma kept_In (articles : list Article) (s : Scored) :
  In s (kept articles) ->
  exists k, nth_error articles k = Some (scoredArticle s)
            /\ scoredIndex s = Z.of_nat k
            /\ score s = positiveScore (scoredArticle s).
Proof.
  unfold AIGoodNewsAgent.kept, slice0. intros H.
  apply In_firstn in H.
  apply sortBy_In in H. apply scoreFrom_In in H as [k [Hk [Hi Hs]]].
  exists k. repeat split; [exact Hk|lia|exact Hs].
Qed.

Lemma at_of_nat {A} (l : list A) (k : nat) : at_ l (Z.of_nat k) = nth_error l k.
Proof.
  unfold at_. destruct (Z.of_nat k <? 0) eqn:E; [apply Z.ltb_lt in E; lia|].
  now rewrite Nat2Z.id.
Qed.

Lemma at_first {A} (x : A) (l : list A) : at_ (x :: l) 0 = Some x.
Proof. reflexivity. Qed.

Lemma fallbackAnalysis_entries (articles : list Article) (ta : TopArticle) :
  In ta (topArticles (fallbackAnalysis articles)) ->
  refersTo articles ta
  /\ whyPositive ta = fixedWhyPositive /\ keyPoints ta = fixedKeyPoints.
Proof.
  unfold AIGoodNewsAgent.fallbackAnalysis. cbn [topArticles]. intros H.
  apply rankFrom_In in H as [s [Hs [Ht [Hd [Hw [Hk Hi]]]]]].
  apply kept_In in Hs as [k [Hk' [Hi' _]]].
  repeat split; try assumption.
  exists (scoredArticle s). rewrite Hi, Hi', at_of_nat. auto.
Qed.

Lemma fallbackAnalysis_count (articles : list Article) :
  length (topArticles (fallbackAnalysis articles)) = Nat.min 3 (length articles).
Proof.
  unfold AIGoodNewsAgent.fallbackAnalysis. cbn [topArticles].
  unfold slice0. now rewrite rankFrom_length, length_firstn, sortBy_length, scoreFrom_length.
Qed.

Lemma fallbackAnalysis_ranks (articles : list Article) :
  map rank (topArticles (fallbackAnalysis articles))
  = map (fun k => Z.of_nat (S k)) (seq 0 (Nat.min 3 (length articles))).
Proof.
  unfold AIGoodNewsAgent.fallbackAnalysis. cbn [topArticles].
  rewrite rankFrom_ranks. unfold slice0.
  rewrite length_firstn, sortBy_length, scoreFrom_length.
  apply map_ext. intros k. lia.
Qed.


(** The kept articles are the best by score. *)

Lemma ordered_app {A} (before : A -> A -> bool) (l1 l2 : list A) (x y : A) :
  ordered before (l1 ++ l2) -> In x l1 -> In y l2 -> before x y = true.
Proof.
  induction l1 as [|z r IH]; simpl; intros Ho Hx Hy; [tauto|].
  inversion Ho as [|? ? Hz Hr]; subst.
  destruct Hx as [->|Hx]; [|now apply IH].
  rewrite Forall_forall in Hz. apply Hz, in_or_app. now right.
Qed.

Lemma kept_best (articles : list Article) (s : Scored) (k : nat) (b : Article) :
  In s (kept articles) -> nth_error articles k = Some b ->
  (exists s', In s' (kept articles) /\ scoredIndex s' = Z.of_nat k)
  \/ positiveScore b <= score s.
Proof.
  unfold AIGoodNewsAgent.kept, slice0.
  set (before := fun x y : Scored => score y - score x <=? 0).
  set (sorted := sortBy before (scoreFrom articles 0)).
  intros Hs Hb.
  pose (sb := {| scoredArticle := b; score := positiveScore b;
                 scoredIndex := Z.of_nat k |}).
  assert (Hin : In sb sorted).
  { apply sortBy_In, scoreFrom_In. exists k. simpl. repeat split. exact Hb. }
  rewrite <- (firstn_skipn 3 sorted) in Hin.
  apply in_app_or in Hin as [Hin|Hin].
  - left. exists sb. split; [exact Hin|reflexivity].
  - right.
    assert (Ho : ordered before (firstn 3 sorted ++ skipn 3 sorted)).
    { rewrite firstn_skipn. apply sortBy_ordered.
      - intros x y. unfold before.
        destruct (score y - score x <=? 0) eqn:E; [now left|right].
        apply Z.leb_gt in E. apply Z.leb_le. lia.
      - intros x y z. unfold before. rewrite !Z.leb_le. lia. }
    pose proof (ordered_app _ _ _ _ Ho Hs Hin) as H.
    unfold before in H. apply Z.leb_le in H. simpl in H. lia.
Qed.

Lemma rankFrom_indices (scored : list Scored) (r : Z) :
  map originalIndex (rankFrom scored r) = map scoredIndex scored.
Proof.
  revert r; induction scored as [|s rest IH]; intros r; simpl; [reflexivity|].
  now rewrite IH.
Qed.

Lemma fallbackAnalysis_best (articles : list Article) (ta : TopArticle)
  (a b : Article) (k : nat) :
  In ta (topArticles (fallbackAnalysis articles)) ->
  at_ articles (originalIndex ta) = Some a ->
  nth_error articles k = Some b ->
  In (Z.of_nat k) (map originalIndex (topArticles (fallbackAnalysis articles)))
  \/ positiveScore b <= positiveScore a.
Proof.
  unfold AIGoodNewsAgent.fallbackAnalysis. cbn [topArticles].
  fold (kept articles). intros Hta Ha Hb.
  apply rankFrom_In in Hta as [s [Hs [_ [_ [_ [_ Hi]]]]]].
  destruct (kept_best articles s k Hs Hb) as [[s' [Hs' Hk]]|Hle].
  - left. rewrite rankFrom_indices. apply in_map_iff. eauto.
  - right. apply kept_In in Hs as [k' [Hk' [Hi' Hsc]]].
    rewrite Hi, Hi', at_of_nat in Ha. rewrite Hk' in Ha. injection Ha as <-.
    lia.
Qed.

(** *** What the score counts, and the order of the entries *)

Lemma count_fold (p : str -> bool) (l : list str) (z : Z) :
  fold_left (fun sc keyword => if p keyword then sc + 1 else sc) l z
  = z + Z.of_nat (length (filter p l)).
Proof.
  revert z; induction l as [|k r IH]; intros z; cbn [fold_left filter].
  - simpl. lia.
  - rewrite IH. destruct (p k); cbn [length]; lia.
Qed.

Lemma positiveScore_count (a : Article) :
  positiveScore a
  = Z.of_nat
      (length
         (filter (includes (toLowerCase (title a ++ lit " " ++ description a)))
            positiveKeywords)).
Proof.
  unfold AIGoodNewsAgent.positiveScore. cbv zeta. now rewrite count_fold.
Qed.

(** The comparator of the sort, and the order the stable sort gives to
    articles scored in the order of their indices: the higher score
    first, and of two equal scores the lower index first. *)
Local Abbreviation byScore := (fun a b : Scored => score b - score a <=? 0).
Local Abbreviation better :=
  (fun x y : Scored =>
     (score y <? score x) || ((score y =? score x) && (scoredIndex x <? scoredIndex y))).

Lemma better_spec (x y : Scored) :
  better x y = true <->
  score y < score x \/ (score y = score x /\ scoredIndex x < scoredIndex y).
Proof.
  rewrite orb_true_iff, andb_true_iff, !Z.ltb_lt, Z.eqb_eq. tauto.
Qed.

Lemma insertSorted_better (x : Scored) (l : list Scored) :
  ordered better l ->
  Forall (fun y => scoredIndex x < scoredIndex y) l ->
  ordered better (insertSorted byScore x l).
Proof.
  induction 1 as [|y r Hy Hr IH]; intros Hx; cbn [insertSorted].
  - constructor; constructor.
  - inversion Hx as [|? ? Hxy Hxr]; subst.
    destruct (score y - score x <=? 0) eqn:E.
    + apply Z.leb_le in E. constructor; [|now constructor].
      constructor; [apply better_spec; lia|].
      rewrite Forall_forall in *. intros z Hz.
      specialize (Hy z Hz). specialize (Hxr z Hz).
      apply better_spec in Hy. apply better_spec. lia.
    + apply Z.leb_gt in E. constructor; [|now apply IH].
      rewrite Forall_forall in *. intros z Hz.
      apply (Permutation_in _ (insertSorted_perm byScore x r)) in Hz.
      destruct Hz as [<-|Hz]; [apply better_spec; lia|now apply Hy].
Qed.

Lemma sortBy_better (articles : list Article) (i : Z) :
  ordered better (sortBy byScore (scoreFrom articles i)).
Proof.
  revert i; induction articles as [|a rest IH]; intros i;
    cbn [AIGoodNewsAgent.scoreFrom]; [constructor|].
  change (sortBy byScore (?x :: ?l)) with (insertSorted byScore x (sortBy byScore l)).
  apply insertSorted_better; [apply IH|].
  rewrite Forall_forall. intros y Hy.
  apply sortBy_In, scoreFrom_In in Hy as [k [_ [Hi _]]].
  cbn [scoredIndex]. lia.
Qed.

Lemma kept_better (articles : list Article) : ordered better (kept articles).
Proof.
  unfold AIGoodNewsAgent.kept, slice0. apply ordered_firstn, sortBy_better.
Qed.

Lemma rankFrom_nth (scored : list Scored) (r : Z) (i : nat) (ta : TopArticle) :
  nth_error (rankFrom scored r) i = Some ta ->
  exists s, nth_error scored i = Some s /\ originalIndex ta = scoredIndex s.
Proof.
  revert r i; induction scored as [|s rest IH]; intros r [|i] H;
    cbn [rankFrom nth_error] in *; try discriminate.
  - injection H as <-. exists s. auto.
  - now apply (IH (r + 1)).
Qed.

Lemma kept_article (articles : list Article) (s : Scored) (a : Article) :
  In s (kept articles) ->
  at_ articles (scoredIndex s) = Some a ->
  scoredArticle s = a /\ score s = positiveScore a.
Proof.
  intros Hs Ha. apply kept_In in Hs as [k [Hk [Hi Hsc]]].
  rewrite Hi, at_of_nat, Hk in Ha. injection Ha as <-. auto.
Qed.

Lemma fallbackAnalysis_order (articles : list Article) (i j : nat)
  (ti tj : TopArticle) (a b : Article) :
  (i < j)%nat ->
  nth_error (topArticles (fallbackAnalysis articles)) i = Some ti ->
  nth_error (topArticles (fallbackAnalysis articles)) j = Some tj ->
  at_ articles (originalIndex ti) = Some a ->
  at_ articles (originalIndex tj) = Some b ->
  positiveScore b <= positiveScore a
  /\ (positiveScore b = positiveScore a -> originalIndex ti < originalIndex tj).
Proof.
  unfold AIGoodNewsAgent.fallbackAnalysis. cbn [topArticles].
  fold (kept articles). intros Hij Hi Hj Ha Hb.
  apply rankFrom_nth in Hi as [si [Hsi Ei]].
  apply rankFrom_nth in Hj as [sj [Hsj Ej]].
  pose proof (ordered_nth (kept_better articles) Hij Hsi Hsj) as Hlt.
  apply better_spec in Hlt.
  rewrite Ei in Ha |- *. rewrite Ej in Hb |- *.
  destruct (kept_article articles si (nth_error_In _ _ Hsi) Ha) as [_ <-].
  destruct (kept_article articles sj (nth_error_In _ _ Hsj) Hb) as [_ <-].
  lia.
Qed.

Lemma fallbackAnalysis_best_tie (articles : list Article) (ta : TopArticle)
  (a b : Article) (k : nat) :
  In ta (topArticles (fallbackAnalysis articles)) ->
  at_ articles (originalIndex ta) = Some a ->
  nth_error articles k = Some b ->
  In (Z.of_nat k) (map originalIndex (topArticles (fallbackAnalysis articles)))
  \/ (positiveScore b <= positiveScore a
      /\ (positiveScore b = positiveScore a -> originalIndex ta < Z.of_nat k)).
Proof.
  unfold AIGoodNewsAgent.fallbackAnalysis. cbn [topArticles].
  fold (kept articles). intros Hta Ha Hb.
  apply rankFrom_In in Hta as [s [Hs [_ [_ [_ [_ Hi]]]]]].
  rewrite Hi in Ha |- *.
  destruct (kept_article articles s Hs Ha) as [_ Hsc].
  pose (sb := {| scoredArticle := b; score := positiveScore b;
                 scoredIndex := Z.of_nat k |}).
  set (sorted := sortBy byScore (scoreFrom articles 0)).
  assert (Hin : In sb sorted).
  { apply sortBy_In, scoreFrom_In. exists k. simpl. repeat split. exact Hb. }
  rewrite <- (firstn_skipn 3 sorted) in Hin.
  apply in_app_or in Hin as [Hin|Hin].
  - left. rewrite rankFrom_indices. apply in_map_iff. exists sb. auto.
  - right.
    assert (Ho : ordered better (firstn 3 sorted ++ skipn 3 sorted)).
    { rewrite firstn_skipn. apply sortBy_better. }
    pose proof (ordered_app _ _ _ _ Ho Hs Hin) as H.
    apply better_spec in H. cbn [score scoredIndex sb] in H. lia.
Qed.

(** *** The stages and the state *)

Lemma analyzeWithGemini_cases (articles : list Article) (st : State) :
  analyzeWithGemini articles st
  = if negb (truthy geminiApiKey) then (Ok (fallbackAnalysis articles), st)
    else
      match gemini (AnalysisPrompt articles) with
      | Ok t =>
          match JSON_parse t with
          | Ok analysis => (Ok analysis, called (AnalysisPrompt articles) st)
          | Throw _ =>
              (Ok (fallbackAnalysis articles), called (AnalysisPrompt articles) st)
          end
      | Throw _ =>
          (Ok (fallbackAnalysis articles), called (AnalysisPrompt articles) st)
      end.
Proof.
  unfold AIGoodNewsAgent.analyzeWithGemini.
  destruct (negb (truthy geminiApiKey)); [reflexivity|].
  unfold tryCatch, bind, callGeminiAPI, lift, ret, called.
  destruct (gemini (AnalysisPrompt articles)) as [t|e]; [|reflexivity].
  destruct (JSON_parse t); reflexivity.
Qed.

Lemma generateLinkedInPost_cases (analysis : Analysis) (articles : list Article)
  (st : State) :
  generateLinkedInPost analysis articles st
  = if negb (truthy geminiApiKey)
    then (generateFallbackPost analysis articles, st)
    else
      match at_ (topArticles analysis) 0 with
      | None => (Throw typeError, st)
      | Some topArticle =>
          match at_ articles (originalIndex topArticle) with
          | None => (Throw typeError, st)
          | Some originalArticle =>
              let prompt := PostPrompt topArticle (source originalArticle) in
              match gemini prompt with
              | Ok post =>
                  (Ok (formatLinkedInPost post (url originalArticle)),
                   called prompt st)
              | Throw _ =>
                  (generateFallbackPost analysis articles, called prompt st)
              end
          end
      end.
Proof.
  unfold AIGoodNewsAgent.generateLinkedInPost.
  destruct (negb (truthy geminiApiKey)); [reflexivity|].
  unfold bind, lift, defined.
  destruct (at_ (topArticles analysis) 0) as [topArticle|]; [|reflexivity].
  destruct (at_ articles (originalIndex topArticle)) as [originalArticle|];
    [|reflexivity].
  unfold tryCatch, bind, callGeminiAPI, ret, lift, called.
  destruct (gemini _); reflexivity.
Qed.

Lemma analyzeWithGemini_seen (articles : list Article) (st : State) :
  sameSeen st (snd (analyzeWithGemini articles st)).
Proof.
  rewrite analyzeWithGemini_cases.
  destruct (negb _); [split; reflexivity|].
  destruct (gemini _) as [t|e]; [destruct (JSON_parse t)|]; split; reflexivity.
Qed.

Lemma generateLinkedInPost_seen (analysis : Analysis) (articles : list Article)
  (st : State) :
  sameSeen st (snd (generateLinkedInPost analysis articles st)).
Proof.
  rewrite generateLinkedInPost_cases.
  destruct (negb _); [split; reflexivity|].
  destruct (at_ (topArticles analysis) 0) as [ta|]; [|split; reflexivity].
  destruct (at_ articles (originalIndex ta)) as [a|]; [|split; reflexivity].
  cbv zeta. destruct (gemini _); split; reflexivity.
Qed.


(** *** The claims about the analysis, the post and the run *)

(** C2.  A run leaves the seen list and the file as they were unless
    its first three steps produced a post: when the search finds no new
    article or a step throws, both are unchanged; when a post was
    produced the seen list is the old one with the URLs of the new
    articles appended, and the file holds that list if the write
    succeeded and is unchanged otherwise. *)
Theorem run_marks_seen_after_post (st : State) :
  let st' := snd (run st) in
  match synthesis st with
  | None => seenArticles st' = seenArticles st /\ seenFile st' = seenFile st
  | Some (articles, _, _) =>
      seenArticles st' = markSeen articles (seenArticles st)
      /\ (seenFile st' = Some (seenArticles st') \/ seenFile st' = seenFile st)
  end.
Proof.
  intros st'. subst st'.
  unfold AIGoodNewsAgent.run, AIGoodNewsAgent.synthesis, runBody, tryCatch,
    bind, AIGoodNewsAgent.searchAINews, ret, lift, markArticlesSeen,
    saveSeenArticles.
  set (articles := filter _ _).
  destruct (length articles =? 0)%nat; [split; reflexivity|].
  pose proof (analyzeWithGemini_seen articles st) as [Ha1 Ha2].
  destruct (analyzeWithGemini articles st) as [[analysis|e] st2];
    cbn [fst snd] in *; [|now split].
  pose proof (generateLinkedInPost_seen analysis articles st2) as [Hg1 Hg2].
  destruct (generateLinkedInPost analysis articles st2) as [[post|e] st3];
    cbn [fst snd] in *; [|split; congruence].
  cbn [seenArticles seenFile geminiCalls].
  destruct (writeFileSync _); cbn [fst snd].
  - destruct (resultArticles articles (topArticles analysis));
      cbn [fst snd seenArticles seenFile]; (split; [congruence|now left]).
  - cbn [seenArticles seenFile]. split; [congruence|right; congruence].
Qed.

(** C3, as amended.  Every entry of the local analysis refers to an
    article of the list passed in, the one whose title and description
    it carries.  An analysis parsed from the answer of the backend is
    returned as it is, and [generateLinkedInPost] throws a TypeError
    when the index of its first entry is not an index of the list. *)
Theorem analysis_indices (articles : list Article) (st : State) :
  Forall (refersTo articles) (topArticles (fallbackAnalysis articles))
  /\ (forall t analysis,
        truthy geminiApiKey = true ->
        gemini (AnalysisPrompt articles) = Ok t ->
        JSON_parse t = Ok analysis ->
        fst (analyzeWithGemini articles st) = Ok analysis)
  /\ (forall analysis ta rest,
        topArticles analysis = ta :: rest ->
        at_ articles (originalIndex ta) = None ->
        fst (generateLinkedInPost analysis articles st) = Throw typeError).
Proof.
  split; [|split].
  - apply Forall_forall. intros ta H. now apply fallbackAnalysis_entries in H.
  - intros t analysis Hk Hg Hp. rewrite analyzeWithGemini_cases, Hk, Hg, Hp.
    reflexivity.
  - intros analysis ta rest Ht Hi. rewrite generateLinkedInPost_cases.
    unfold generateFallbackPost, defined. rewrite Ht, at_first, Hi.
    now destruct (negb _).
Qed.

(** C4, as amended.  With an API key, when the two look-ups succeed
    and the backend answers, the post is the text of the backend as it
    is when that text contains http or the article has no URL, and
    otherwise that text followed by a blank line and the source line;
    nothing is cut and no hashtag is added. *)
Theorem generateLinkedInPost_backend (analysis : Analysis)
  (articles : list Article) (st : State) (ta : TopArticle)
  (rest : list TopArticle) (a : Article) (body : str) :
  truthy geminiApiKey = true ->
  topArticles analysis = ta :: rest ->
  at_ articles (originalIndex ta) = Some a ->
  gemini (PostPrompt ta (source a)) = Ok body ->
  fst (generateLinkedInPost analysis articles st)
  = Ok (if includes body (lit "http") || negb (truthy (url a))
        then body
        else body ++ nl ++ nl ++ lit "Source: " ++ url a).
Proof.
  intros Hk Ht Hi Hg. rewrite generateLinkedInPost_cases, Hk, Ht, at_first, Hi.
  cbv zeta. rewrite Hg. cbn [fst negb]. unfold formatLinkedInPost.
  destruct (includes body (lit "http")), (truthy (url a)); reflexivity.
Qed.

(** C6.  Without an API key the analysis is the local one and the
    state is untouched, so no call is made; with a key, when the call
    throws or its text does not parse, the analysis is the local one as
    well and nothing is thrown.  The local analysis has min(3, n)
    entries with the ranks 1 to N, each with the fixed texts and the
    title and description of the article at its index.  The score of an
    article is the number of the positive keywords that its title, a
    space and its description contain in lower case.  The entries come
    by descending score, rank 1 the best, and of two equal scores the
    article found first comes first; an article outside the selection
    has no higher score than a selected one, and with the same score it
    was found later. *)
Theorem analyzeWithGemini_fallback (articles : list Article) (st : State) :
  (truthy geminiApiKey = false ->
   analyzeWithGemini articles st = (Ok (fallbackAnalysis articles), st))
  /\ (truthy geminiApiKey = true ->
      (exists e, gemini (AnalysisPrompt articles) = Throw e)
      \/ (exists t e, gemini (AnalysisPrompt articles) = Ok t
                      /\ JSON_parse t = Throw e) ->
      fst (analyzeWithGemini articles st) = Ok (fallbackAnalysis articles))
  /\ length (topArticles (fallbackAnalysis articles))
     = Nat.min 3 (length articles)
  /\ map rank (topArticles (fallbackAnalysis articles))
     = map (fun k => Z.of_nat (S k)) (seq 0 (Nat.min 3 (length articles)))
  /\ (forall ta,
        In ta (topArticles (fallbackAnalysis articles)) ->
        whyPositive ta = fixedWhyPositive
        /\ keyPoints ta = fixedKeyPoints
        /\ exists a,
             at_ articles (originalIndex ta) = Some a
             /\ topTitle ta = title a /\ summary ta = description a
             /\ forall k b,
                  nth_error articles k = Some b ->
                  In (Z.of_nat k)
                    (map originalIndex (topArticles (fallbackAnalysis articles)))
                  \/ (positiveScore b <= positiveScore a
                      /\ (positiveScore b = positiveScore a ->
                          originalIndex ta < Z.of_nat k)))
  /\ (forall a,
        positiveScore a
        = Z.of_nat
            (length
               (filter
                  (includes (toLowerCase (title a ++ lit " " ++ description a)))
                  positiveKeywords)))
  /\ (forall i j ti tj a b,
        (i < j)%nat ->
        nth_error (topArticles (fallbackAnalysis articles)) i = Some ti ->
        nth_error (topArticles (fallbackAnalysis articles)) j = Some tj ->
        at_ articles (originalIndex ti) = Some a ->
        at_ articles (originalIndex tj) = Some b ->
        positiveScore b <= positiveScore a
        /\ (positiveScore b = positiveScore a ->
            originalIndex ti < originalIndex tj)).
Proof.
  split; [|split; [|split; [|split; [|split; [|split]]]]].
  - intros Hk. now rewrite analyzeWithGemini_cases, Hk.
  - intros Hk H. rewrite analyzeWithGemini_cases, Hk. cbn [negb].
    destruct H as [[e ->]|[t [e [-> ->]]]]; reflexivity.
  - apply fallbackAnalysis_count.
  - apply fallbackAnalysis_ranks.
  - intros ta Hta.
    destruct (fallbackAnalysis_entries articles ta Hta)
      as [[a [Ha [Ht Hd]]] [Hw Hp]].
    repeat split; try assumption.
    exists a. repeat split; try assumption.
    intros k b Hb. eapply fallbackAnalysis_best_tie; eassumption.
  - apply positiveScore_count.
  - intros i j ti tj a b. apply fallbackAnalysis_order.
Qed.

End Facts.

(** *** The claims at concrete inputs *)

(** C3, the claim as stated fails: with a key, the backend answers
    and its analysis has the index 5 for a list of one article; the
    analysis is returned with that index, and the look-up of the article
    throws in [generateLinkedInPost], which ends the run with a failure
    result. *)
Lemma analyzeWithGemini_index_unchecked :
  let key := lit "key" in
  let backend := geminiSays (lit "{}") in
  let parse := parseAs outOfRange in
  fst (analyzeWithGemini asciiLower key backend parse [sampleNews] freshState)
  = Ok outOfRange
  /\ map (fun ta => at_ [sampleNews] (originalIndex ta)) (topArticles outOfRange)
     = [None]
  /\ fst (generateLinkedInPost key backend outOfRange [sampleNews] freshState)
     = Throw typeError
  /\ fst (run asciiLower key [] nothingFound oneFound backend parse writeOk
            freshState)
     = Failure typeError.
Proof.
  vm_compute. repeat split.
Qed.

(** C3, as amended, at a list of one article and an analysis of the
    backend with the index 5. *)
Lemma analysis_indices_witness :
  let key := lit "key" in
  let backend := geminiSays (lit "{}") in
  let parse := parseAs outOfRange in
  Forall (refersTo [sampleNews])
    (topArticles (fallbackAnalysis asciiLower [sampleNews]))
  /\ fst (analyzeWithGemini asciiLower key backend parse [sampleNews] freshState)
     = Ok outOfRange
  /\ fst (generateLinkedInPost key backend outOfRange [sampleNews] freshState)
     = Throw typeError.
Proof.
  intros key backend parse.
  destruct (@analysis_indices asciiLower key backend parse [sampleNews] freshState)
    as [H1 [H2 H3]].
  split; [exact H1|split].
  - apply (H2 (lit "{}") outOfRange); reflexivity.
  - apply (H3 outOfRange
             {| rank := 1;
                topTitle := lit "A breakthrough in protein folding";
                summary := lit "Researchers report progress.";
                whyPositive := lit "It helps medicine.";
                keyPoints := [lit "Faster"];
                originalIndex := 5 |} []); reflexivity.
Defined.

(** C4, the claim as stated fails: the text of the backend is the
    post, with the source line after it; no hashtag is in it, and a text
    of 4000 code units is kept whole. *)
Lemma generateLinkedInPost_backend_as_is :
  let key := lit "key" in
  let analysis := fallbackAnalysis asciiLower [sampleNews] in
  let short := lit "AI is moving fast." in
  let long := repeat 97%N 4000 in
  fst (generateLinkedInPost key (geminiSays short) analysis [sampleNews] freshState)
  = Ok (short ++ nl ++ nl ++ lit "Source: https://e.co/a")
  /\ includes (short ++ nl ++ nl ++ lit "Source: https://e.co/a") (lit "#") = false
  /\ fst (generateLinkedInPost key (geminiSays long) analysis [sampleNews] freshState)
     = Ok (long ++ nl ++ nl ++ lit "Source: https://e.co/a")
  /\ len (long ++ nl ++ nl ++ lit "Source: https://e.co/a") = 4024.
Proof.
  vm_compute. repeat split.
Qed.

(** C4, as amended, at a backend text without a link. *)
Lemma generateLinkedInPost_backend_witness :
  let key := lit "key" in
  let analysis := fallbackAnalysis asciiLower [sampleNews] in
  let short := lit "AI is moving fast." in
  fst (generateLinkedInPost key (geminiSays short) analysis [sampleNews] freshState)
  = Ok (if includes short (lit "http") || negb (truthy (url sampleNews))
        then short
        else short ++ nl ++ nl ++ lit "Source: " ++ url sampleNews).
Proof.
  intros key analysis short.
  apply (@generateLinkedInPost_backend key (geminiSays short) analysis
           [sampleNews] freshState
           (hd (Build_TopArticle 0 [] [] [] [] 0) (topArticles analysis))
           [] sampleNews short);
    reflexivity.
Defined.

(** C6 without a key, with a backend that is down, and with a text
    that does not parse. *)
Lemma analyzeWithGemini_fallback_witness :
  analyzeWithGemini asciiLower [] geminiDown parseFails [sampleNews; otherNews]
    freshState
  = (Ok (fallbackAnalysis asciiLower [sampleNews; otherNews]), freshState)
  /\ fst (analyzeWithGemini asciiLower (lit "key") geminiDown parseFails
            [sampleNews; otherNews] freshState)
     = Ok (fallbackAnalysis asciiLower [sampleNews; otherNews])
  /\ fst (analyzeWithGemini asciiLower (lit "key") (geminiSays (lit "not JSON"))
            parseFails [sampleNews; otherNews] freshState)
     = Ok (fallbackAnalysis asciiLower [sampleNews; otherNews])
  /\ map (positiveScore asciiLower) [otherNews; sampleNews] = [0; 3]
  /\ map originalIndex (topArticles (fallbackAnalysis asciiLower [otherNews; sampleNews]))
     = [1; 0].
Proof.
  split; [|split; [|split; [|split; reflexivity]]].
  - apply (proj1 (@analyzeWithGemini_fallback asciiLower [] geminiDown parseFails
                    [sampleNews; otherNews] freshState)).
    reflexivity.
  - apply (proj1 (proj2 (@analyzeWithGemini_fallback asciiLower (lit "key")
                           geminiDown parseFails [sampleNews; otherNews]
                           freshState))).
    + reflexivity.
    + left. exists (lit "HTTP 503"). reflexivity.
  - apply (proj1 (proj2 (@analyzeWithGemini_fallback asciiLower (lit "key")
                           (geminiSays (lit "not JSON")) parseFails
                           [sampleNews; otherNews] freshState))).
    + reflexivity.
    + right. exists (lit "not JSON"), (lit "Unexpected token"). split; reflexivity.
Defined.

(** A run that finds nothing new and a run that produces a post. *)
Lemma run_marks_seen_after_post_examples :
  snd (run asciiLower [] [] nothingFound nothingFound geminiDown parseFails writeOk
         freshState)
  = freshState
  /\ seenArticles
       (snd (run asciiLower [] [] nothingFound oneFound geminiDown parseFails
               writeOk freshState))
     = [lit "https://e.co/a"]
  /\ seenFile
       (snd (run asciiLower [] [] nothingFound oneFound geminiDown parseFails
               writeOk freshState))
     = Some [lit "https://e.co/a"].
Proof.
  vm_compute. repeat split.
Qed.

End AIGoodNewsAgentFacts.

(** ** More facts about linkedin-ai-news-agent.js *)

Module LinkedInAINewsAgentMore.
Import JS JSFacts LinkedInAINewsAgent LinkedInAINewsAgentFacts.

Open Scope list_scope.

(** *** Helpers on lists and on the sort *)

Lemma truthy_len (s : str) : truthy s = true -> (0 < len s)%Z.
Proof. destruct s; [discriminate|]. unfold len. simpl. lia. Qed.

Lemma insertSorted_first {A} (before : A -> A -> bool) (x : A) (l : list A) :
  Forall (fun y => before x y = true) l -> insertSorted before x l = x :: l.
Proof.
  destruct l as [|y r]; simpl; [reflexivity|].
  intros H. inversion H as [|? ? Hy _]; subst. now rewrite Hy.
Qed.

Lemma sortBy_ordered_id {A} (before : A -> A -> bool) (l : list A) :
  ordered before l -> sortBy before l = l.
Proof.
  induction 1 as [|x l Hx Hl IH]; [reflexivity|].
  change (sortBy before (x :: l)) with (insertSorted before x (sortBy before l)).
  rewrite IH. now apply insertSorted_first.
Qed.

Lemma filter_all {A} (p : A -> bool) (l : list A) :
  (forall a, In a l -> p a = true) -> filter p l = l.
Proof.
  induction l as [|x r IH]; simpl; intros H; [reflexivity|].
  rewrite (H x) by now left. f_equal. apply IH. intros a Ha. apply H. now right.
Qed.

Lemma filterIndexed_all {A} (p : A -> Z -> bool) (l : list A) (i : Z) :
  (forall k a, nth_error l k = Some a -> p a (i + Z.of_nat k)%Z = true) ->
  filterIndexed p l i = l.
Proof.
  revert i; induction l as [|x r IH]; intros i H; simpl; [reflexivity|].
  pose proof (H 0%nat x eq_refl) as H0.
  replace (i + Z.of_nat 0)%Z with i in H0 by lia. rewrite H0. f_equal.
  apply IH. intros k a Hk.
  replace (i + 1 + Z.of_nat k)%Z with (i + Z.of_nat (S k))%Z by lia.
  now apply H.
Qed.

Section More.

Variable toLowerCase : str -> str.
Variable hostname : str -> option str.
Variable regExpEngine : str -> str -> result nat.
Variable config : Config.
Variable network : nat -> str -> HttpOutcome.

Local Abbreviation filterAndRank := (filterAndRankArticles toLowerCase config).
Local Abbreviation isPreferred := (LinkedInAINewsAgent.isPreferred toLowerCase config).
Local Abbreviation before :=
  (fun a b : Article => Qle_bool (compareArticles toLowerCase config a b) 0).

(** *** The ranking *)

Lemma before_iff (a b : Article) :
  before a b = true <->
  (isPreferred a = true /\ isPreferred b = false)
  \/ (isPreferred a = isPreferred b /\ (relevanceScore b <= relevanceScore a)%Q).
Proof.
  unfold compareArticles.
  destruct (isPreferred a), (isPreferred b); cbn [andb negb];
    rewrite Qle_bool_iff.
  - split; [intros H; right; split; [reflexivity|lra]|].
    intros [[_ H]|[_ H]]; [discriminate|lra].
  - split; [intros _; left; now split|intros _; lra].
  - split; [intros H; exfalso; lra|].
    intros [[H _]|[H _]]; discriminate.
  - split; [intros H; right; split; [reflexivity|lra]|].
    intros [[H _]|[_ H]]; [discriminate|lra].
Qed.

Lemma before_total (a b : Article) : before a b = true \/ before b a = true.
Proof.
  rewrite !before_iff.
  destruct (isPreferred a), (isPreferred b); try tauto;
    destruct (Qlt_le_dec (relevanceScore a) (relevanceScore b)) as [H|H];
    try (apply Qlt_le_weak in H); tauto.
Qed.

Lemma before_trans (a b c : Article) :
  before a b = true -> before b c = true -> before a c = true.
Proof.
  rewrite !before_iff.
  destruct (isPreferred a), (isPreferred b), (isPreferred c);
    intros [[H1 H2]|[H1 H2]] [[H3 H4]|[H3 H4]]; try discriminate; try tauto;
    right; (split; [reflexivity|eapply Qle_trans; eassumption]).
Qed.

Lemma filterAndRank_ordered (articles : list Article) :
  ordered before (filterAndRank articles).
Proof.
  unfold filterAndRankArticles, slice0.
  apply ordered_firstn, sortBy_ordered.
  - intros x y. apply before_total.
  - intros x y z. apply before_trans.
Qed.

Lemma uniqueArticles_NoDup_id (articles : list Article) :
  NoDup (map url articles) -> uniqueArticles articles = articles.
Proof.
  intros Hnd. unfold uniqueArticles. apply filterIndexed_all.
  intros k a Hk. apply Z.eqb_eq. unfold findIndex.
  pose proof (@findIndexFrom_found _ (fun x => eqb (url x) (url a)) articles 0%Z
                k a Hk (eqb_refl _)) as Hb.
  set (j := findIndexFrom (fun x => eqb (url x) (url a)) articles 0) in *.
  assert (Hj : j = (0 + Z.of_nat (Z.to_nat j))%Z) by lia.
  pose proof (findIndexFrom_first _ _ _ Hj (Z.le_refl 0)) as Hf.
  destruct (nth_error articles (Z.to_nat j)) as [x|] eqn:Ex.
  - apply find_some in Hf as [_ Hx]. apply eqb_eq in Hx.
    assert (Z.to_nat j = k); [|lia].
    apply (proj1 (NoDup_nth_error (map url articles)) Hnd).
    + rewrite length_map. apply nth_error_Some. congruence.
    + rewrite !nth_error_map, Ex, Hk. simpl. now rewrite Hx.
  - apply nth_error_None in Ex.
    assert (k < length articles)%nat by (apply nth_error_Some; congruence).
    lia.
Qed.


Lemma filterAndRank_urls_NoDup (articles : list Article) :
  NoDup (map url (filterAndRank articles)).
Proof.
  unfold filterAndRankArticles, slice0.
  apply NoDup_map_firstn.
  eapply Permutation_NoDup.
  - apply Permutation_map. symmetry. apply sortBy_perm.
  - apply NoDup_map_filter, uniqueArticles_NoDup.
Qed.

Lemma filterAndRank_length (articles : list Article) :
  (length (filterAndRank articles) <= maxResults (search config))%nat.
Proof. unfold filterAndRankArticles, slice0. apply firstn_le_length. Qed.

(** The result is ranked: it has at most [maxResults] articles; of two
    of them the earlier is from a preferred source whenever the later
    is, and when both are or both are not, the earlier has the higher or
    the same relevance score. *)
Theorem filterAndRankArticles_ranked (articles : list Article) (i j : nat)
  (a b : Article) :
  (i < j)%nat ->
  nth_error (filterAndRank articles) i = Some a ->
  nth_error (filterAndRank articles) j = Some b ->
  (j < maxResults (search config))%nat
  /\ (isPreferred b = true -> isPreferred a = true)
  /\ (isPreferred a = isPreferred b -> (relevanceScore b <= relevanceScore a)%Q).
Proof.
  intros Hij Ha Hb.
  pose proof (ordered_nth (filterAndRank_ordered articles) Hij Ha Hb) as H.
  apply before_iff in H.
  split; [|split].
  - pose proof (filterAndRank_length articles).
    assert (j < length (filterAndRank articles))%nat
      by (apply nth_error_Some; congruence).
    lia.
  - destruct H as [[H _]|[H _]]; congruence.
  - destruct H as [[H1 H2]|[_ H]]; [congruence|auto].
Qed.

(** Filtering and ranking a result again changes nothing. *)
Theorem filterAndRankArticles_idempotent (articles : list Article) :
  filterAndRank (filterAndRank articles) = filterAndRank articles.
Proof.
  set (r := filterAndRank articles).
  unfold filterAndRankArticles, slice0.
  rewrite uniqueArticles_NoDup_id by apply filterAndRank_urls_NoDup.
  rewrite filter_all.
  - fold r. rewrite sortBy_ordered_id by apply filterAndRank_ordered.
    apply firstn_all2, filterAndRank_length.
  - intros a Ha. now apply filterAndRank_In in Ha.
Qed.

(** *** The batch of a search *)

Local Abbreviation performSearch :=
  (LinkedInAINewsAgent.performSearch toLowerCase hostname regExpEngine config network).
Local Abbreviation searchKeywords :=
  (LinkedInAINewsAgent.searchKeywords toLowerCase hostname regExpEngine network).
Local Abbreviation searchAINews :=
  (LinkedInAINewsAgent.searchAINews toLowerCase hostname regExpEngine config network).
Local Abbreviation batchArticles :=
  (LinkedInAINewsAgent.batchArticles toLowerCase hostname regExpEngine network).
Local Abbreviation keywordArticles :=
  (LinkedInAINewsAgent.keywordArticles toLowerCase hostname regExpEngine network).
Local Abbreviation parse := (parseSearchResults toLowerCase hostname regExpEngine).

Lemma searchKeywords_articles (keywords : list str) (timeframe : str)
  (articles : list Article) (sent : list Request) :
  fst (searchKeywords keywords timeframe articles sent)
  = articles ++ batchArticles (length sent) keywords.
Proof.
  revert articles sent; induction keywords as [|keyword rest IH];
    intros articles sent; simpl.
  - now rewrite app_nil_r.
  - unfold duckDuckGoSearch, LinkedInAINewsAgent.keywordArticles.
    assert (Hl : length (sent ++ [{| reqQuery := keyword;
                                     reqTimeframe := timeframe |}])
                 = S (length sent)).
    { rewrite length_app. simpl. lia. }
    destruct (network (length sent) keyword) as [e| |data].
    + rewrite IH, Hl. reflexivity.
    + destruct (0 <? _)%Z; rewrite IH, Hl; [|reflexivity].
      now rewrite app_nil_r.
    + destruct (0 <? Z.of_nat (length (parse data keyword)))%Z eqn:E.
      * rewrite IH, Hl, <- app_assoc. reflexivity.
      * rewrite IH, Hl. apply Z.ltb_ge in E.
        destruct (parse data keyword); [reflexivity|simpl in E; lia].
Qed.

Lemma batchArticles_deterministic (keywords : list str) (n m : nat) :
  (forall i j q, network i q = network j q) ->
  batchArticles n keywords = batchArticles m keywords.
Proof.
  intros H. revert n m; induction keywords as [|keyword rest IH]; intros n m;
    simpl; [reflexivity|].
  unfold LinkedInAINewsAgent.keywordArticles.
  now rewrite (H n m keyword), (IH (S n) (S m)).
Qed.

Lemma batchArticles_incl (keywords : list str) (n i : nat) (keyword : str) :
  nth_error keywords i = Some keyword ->
  incl (keywordArticles (n + i) keyword) (batchArticles n keywords).
Proof.
  revert n i; induction keywords as [|k rest IH]; intros n i Hk.
  - destruct i; discriminate.
  - destruct i as [|i]; simpl in *.
    + injection Hk as ->. rewrite Nat.add_0_r. apply incl_appl, incl_refl.
    + apply incl_appr. replace (n + S i)%nat with (S n + i)%nat by lia.
      now apply IH.
Qed.

(** A keyword whose request is answered contributes all the articles
    parsed from its answer, whatever happens to the requests of the
    other keywords. *)
Theorem performSearch_keeps_answered (timeframe : str) (sent : list Request)
  (i : nat) (keyword : str) (data : SearchData) (a : Article) :
  nth_error (aiKeywords config) i = Some keyword ->
  network (length sent + i) keyword = Json data ->
  In a (parse data keyword) ->
  In a (fst (performSearch timeframe sent)).
Proof.
  intros Hk Hn Ha. unfold LinkedInAINewsAgent.performSearch.
  rewrite searchKeywords_articles. simpl.
  apply (@batchArticles_incl (aiKeywords config) (length sent) i keyword Hk).
  unfold LinkedInAINewsAgent.keywordArticles. now rewrite Hn.
Qed.

(** The timeframe does not reach the provider: when the provider
    answers a query the same way at every request, the widened batch is
    the first batch again, and the search stage returns the ranked first
    batch whether it widened or not. *)
Theorem searchAINews_same_batch (sent : list Request) :
  (forall i j q, network i q = network j q) ->
  fst (searchAINews sent) = filterAndRank (fst (performSearch (lit "d") sent)).
Proof.
  intros Hdet. unfold LinkedInAINewsAgent.searchAINews.
  pose proof (searchKeywords_articles (aiKeywords config) (lit "d") [] sent) as H1.
  fold (performSearch (lit "d") sent) in H1.
  destruct (performSearch (lit "d") sent) as [all1 sent1].
  cbn [fst] in *.
  destruct (length all1 =? 0)%nat; [|reflexivity].
  pose proof (searchKeywords_articles (aiKeywords config) (lit "w") [] sent1) as H2.
  fold (performSearch (lit "w") sent1) in H2.
  destruct (performSearch (lit "w") sent1) as [all2 sent2].
  cbn [fst] in *. subst all1 all2. f_equal.
  simpl. now apply batchArticles_deterministic.
Qed.


(** *** Titles, key points and summaries *)

(** A title made from a text is never empty and has at most 100 code
    units. *)
Theorem extractTitleFromText_bounds (t : str) :
  (0 < len (extractTitleFromText t) <= 100)%Z.
Proof.
  unfold extractTitleFromText.
  set (firstSentence := trim (hd [] (splitBy isSentenceEnd t))).
  destruct (100 <? len firstSentence)%Z eqn:E.
  - apply Z.ltb_lt in E. rewrite len_app, substring0_length by lia.
    change (len (lit "...")) with 3%Z. lia.
  - apply Z.ltb_ge in E. destruct (truthy firstSentence) eqn:T.
    + apply truthy_len in T. lia.
    + change (len (lit "AI News Article")) with 15%Z. lia.
Qed.

Lemma addPerTerm_bounds (lowerSentence : str) (terms : list str) (by_ score : Z) :
  (0 <= by_)%Z ->
  (score <= addPerTerm lowerSentence terms by_ score
   <= score + by_ * Z.of_nat (length terms))%Z.
Proof.
  intros Hb. unfold addPerTerm. revert score.
  induction terms as [|term rest IH]; intros score; cbn [fold_left length].
  - lia.
  - destruct (includes lowerSentence term).
    + specialize (IH (score + by_)%Z). nia.
    + specialize (IH score). nia.
Qed.

(** The importance of a sentence lies between 0 and 29. *)
Theorem calculateImportance_bounds (sentence : str) :
  (0 <= calculateImportance toLowerCase sentence <= 29)%Z.
Proof.
  unfold calculateImportance.
  generalize (toLowerCase sentence). intros s.
  match goal with
  | |- (_ <= addPerTerm s ?t1 1 (addPerTerm s ?t2 2 (addPerTerm s ?t3 3 0)) <= _)%Z =>
      pose proof (@addPerTerm_bounds s t3 3 0 ltac:(lia)) as H3;
      pose proof (@addPerTerm_bounds s t2 2 (addPerTerm s t3 3 0) ltac:(lia)) as H2;
      pose proof (@addPerTerm_bounds s t1 1
                    (addPerTerm s t2 2 (addPerTerm s t3 3 0)) ltac:(lia)) as H1;
      rewrite length_map in H1, H2, H3; cbn [length] in H1, H2, H3
  end.
  lia.
Qed.

Lemma isKeyPoint_length (sentence : str) :
  isKeyPoint toLowerCase sentence = true -> (30 < len sentence < 200)%Z.
Proof.
  unfold isKeyPoint. intros H.
  apply andb_true_iff in H as [H H2]. apply andb_true_iff in H as [_ H1].
  apply Z.ltb_lt in H1, H2. lia.
Qed.

(** [extractKeyPoints] returns at most three key points, the most
    important first; each is a trimmed sentence of the summary of more
    than 30 and fewer than 200 code units that [isKeyPoint] accepts, with
    the importance [calculateImportance] gives it. *)
Theorem extractKeyPoints_spec (a : Article) :
  let points := extractKeyPoints toLowerCase a in
  (length points <= 3)%nat
  /\ ordered (fun x y => (importance y - importance x <=? 0)%Z) points
  /\ forall kp,
       In kp points ->
       isKeyPoint toLowerCase (text kp) = true
       /\ (30 < len (text kp) < 200)%Z
       /\ importance kp = calculateImportance toLowerCase (text kp)
       /\ exists sentence,
            In sentence (splitByRuns isSentenceEnd (summary a))
            /\ text kp = trim sentence.
Proof.
  unfold extractKeyPoints, slice0. split; [apply firstn_le_length|]. split.
  - apply ordered_firstn, sortBy_ordered.
    + intros x y. destruct (importance y - importance x <=? 0)%Z eqn:E;
        [now left|right]. apply Z.leb_gt in E. apply Z.leb_le. lia.
    + intros x y z. rewrite !Z.leb_le. lia.
  - intros kp H. apply In_firstn in H. apply sortBy_In in H.
    apply in_flat_map in H as [sentence [Hs Hk]].
    apply In_firstn in Hs. apply filter_In in Hs as [Hs _].
    destruct (isKeyPoint toLowerCase (trim sentence)) eqn:E; [|destruct Hk].
    destruct Hk as [<-|[]]. cbn [text importance].
    repeat split; try assumption.
    + now apply isKeyPoint_length in E.
    + now apply isKeyPoint_length in E.
    + now exists sentence.
Qed.

(** For a limit of 3 or more the summary of a post has at most that
    many code units; it is the text chosen (the first key point, or the
    summary of the article when there is none) or, when that is longer,
    its first [maxLength - 3] code units and an ellipsis. *)
Theorem createSummary_bounds (a : Article) (points : list KeyPoint) (maxLength : Z) :
  (3 <= maxLength)%Z ->
  let chosen := match points with kp :: _ => text kp | [] => summary a end in
  (len (createSummary a points maxLength) <= maxLength)%Z
  /\ (createSummary a points maxLength = chosen
      \/ ((maxLength < len chosen)%Z
          /\ createSummary a points maxLength
             = firstn (Z.to_nat (maxLength - 3)) chosen ++ lit "...")).
Proof.
  intros H chosen. unfold createSummary. fold chosen.
  destruct (maxLength <? len chosen)%Z eqn:E.
  - apply Z.ltb_lt in E. split.
    + rewrite len_app, substring0_length by lia.
      change (len (lit "...")) with 3%Z. lia.
    + right. split; [exact E|reflexivity].
  - apply Z.ltb_ge in E. split; [exact E|now left].
Qed.

(** *** Hashtags *)

Lemma setAdd_NoDup (x : str) (s : list str) : NoDup s -> NoDup (setAdd x s).
Proof.
  intros H. unfold setAdd. destruct (existsb (eqb x) s) eqn:E; [exact H|].
  apply NoDup_app; [exact H|repeat constructor; auto|].
  intros y Hy [Hx|[]]. subst y.
  assert (existsb (eqb x) s = true); [|congruence].
  apply existsb_exists. exists x. split; [exact Hy|apply eqb_refl].
Qed.

Lemma setAdd_In (x y : str) (s : list str) :
  In y (setAdd x s) -> y = x \/ In y s.
Proof.
  unfold setAdd. destruct (existsb (eqb x) s); [now right|].
  intros H. apply in_app_or in H as [H|[<-|[]]]; auto.
Qed.

(** The hashtags of an article are distinct, and each is one of the
    two generic tags or the tag of a keyword of the map that the title
    and summary in lower case contain. *)
Theorem generateHashtags_origin (a : Article) :
  NoDup (generateHashtags toLowerCase config a)
  /\ forall tag,
       In tag (generateHashtags toLowerCase config a) ->
       tag = lit "#ArtificialIntelligence" \/ tag = lit "#AI"
       \/ exists keyword,
            In (keyword, tag) hashtagMap
            /\ includes (toLowerCase (title a ++ lit " " ++ summary a)) keyword
               = true.
Proof.
  unfold generateHashtags, slice0.
  set (t := toLowerCase (title a ++ lit " " ++ summary a)).
  set (start := setAdd (lit "#AI") (setAdd (lit "#ArtificialIntelligence") [])).
  assert (H0 : NoDup start /\
               forall tag, In tag start ->
                 tag = lit "#ArtificialIntelligence" \/ tag = lit "#AI"
                 \/ exists keyword,
                      In (keyword, tag) hashtagMap /\ includes t keyword = true).
  { split.
    - apply setAdd_NoDup, setAdd_NoDup. constructor.
    - intros tag H. apply setAdd_In in H as [->|H]; [auto|].
      apply setAdd_In in H as [->|[]]; auto. }
  assert (H : forall kvs tags,
             incl kvs hashtagMap ->
             (NoDup tags /\
              forall tag, In tag tags ->
                tag = lit "#ArtificialIntelligence" \/ tag = lit "#AI"
                \/ exists keyword,
                     In (keyword, tag) hashtagMap /\ includes t keyword = true) ->
             let r :=
               fold_left
                 (fun tags kv =>
                    if includes t (fst kv) then setAdd (snd kv) tags else tags)
                 kvs tags in
             NoDup r /\
             forall tag, In tag r ->
               tag = lit "#ArtificialIntelligence" \/ tag = lit "#AI"
               \/ exists keyword,
                    In (keyword, tag) hashtagMap /\ includes t keyword = true).
  { induction kvs as [|[k v] rest IH]; intros tags Hin [Hn Ht]; cbn [fold_left].
    - now split.
    - apply IH; [intros x Hx; apply Hin; now right|].
      cbn [fst snd]. destruct (includes t k) eqn:E; [|now split].
      split; [now apply setAdd_NoDup|].
      intros tag Htag. apply setAdd_In in Htag as [->|Htag]; [|now apply Ht].
      right. right. exists k. split; [apply Hin; now left|exact E]. }
  destruct (H hashtagMap start (incl_refl _) H0) as [Hn Ht].
  split.
  - clear - Hn. revert Hn. generalize (maxHashtags (posts config)).
    match goal with |- forall n, NoDup ?l -> _ => generalize l end.
    intros l n Hn. rewrite <- (firstn_skipn n l) in Hn.
    now apply NoDup_app_remove_r in Hn.
  - intros tag Htag. apply In_firstn in Htag. now apply Ht.
Qed.


(** *** Posts of a run and the run *)

Open Scope nat_scope.

Local Abbreviation createLinkedInPost :=
  (LinkedInAINewsAgent.createLinkedInPost toLowerCase config).
Local Abbreviation styleAt := (LinkedInAINewsAgent.styleAt config).
Local Abbreviation postsFrom := (LinkedInAINewsAgent.postsFrom toLowerCase config).
Local Abbreviation generateLinkedInPosts :=
  (LinkedInAINewsAgent.generateLinkedInPosts toLowerCase config).
Local Abbreviation run :=
  (LinkedInAINewsAgent.run toLowerCase hostname regExpEngine config network).

Lemma postsFrom_nth (random : nat -> nat) (articles : list Article) (i k : nat) :
  nth_error (postsFrom random articles i) k
  = option_map (fun a => createLinkedInPost (random (i + k)) a (styleAt (i + k)))
      (nth_error articles k).
Proof.
  revert i k; induction articles as [|a rest IH]; intros i [|k]; simpl;
    try reflexivity.
  - now rewrite Nat.add_0_r.
  - rewrite IH. now replace (S i + k)%nat with (i + S k)%nat by lia.
Qed.

Lemma postsFrom_length (random : nat -> nat) (articles : list Article) (i : nat) :
  length (postsFrom random articles i) = length articles.
Proof.
  revert i; induction articles as [|a rest IH]; intros i; simpl; [reflexivity|].
  now rewrite IH.
Qed.

Lemma generateLinkedInPosts_length (random : nat -> nat) (articles : list Article) :
  length (generateLinkedInPosts random articles) = Nat.min (length articles) 3.
Proof.
  unfold LinkedInAINewsAgent.generateLinkedInPosts, slice0.
  rewrite postsFrom_length, length_firstn. lia.
Qed.

(** One post is made for each of the first three articles, in order:
    the post [k] carries the URL of the article [k] and the style at
    [k mod n] of the [n] configured styles, so the styles rotate. *)
Theorem generateLinkedInPosts_rotation (random : nat -> nat)
  (articles : list Article) :
  length (generateLinkedInPosts random articles) = Nat.min (length articles) 3
  /\ forall k post,
       nth_error (generateLinkedInPosts random articles) k = Some post ->
       exists a,
         nth_error articles k = Some a
         /\ (k < 3)%nat
         /\ post = createLinkedInPost (random k) a (styleAt k)
         /\ sourceUrl post = url a
         /\ (styles (posts config) <> [] ->
             nth_error (styles (posts config))
               (k mod length (styles (posts config)))
             = Some (style post)).
Proof.
  split; [apply generateLinkedInPosts_length|].
  intros k post H.
  assert (Hk : (k < Nat.min (length articles) 3)%nat).
  { rewrite <- generateLinkedInPosts_length with (random := random).
    apply nth_error_Some. congruence. }
  unfold LinkedInAINewsAgent.generateLinkedInPosts, slice0 in H.
  rewrite postsFrom_nth in H. cbn [Nat.add] in H.
  rewrite nth_error_firstn in H.
  destruct (k <? Nat.min (length articles) 3)%nat eqn:E;
    [|apply Nat.ltb_ge in E; lia].
  destruct (nth_error articles k) as [a|]; [|discriminate].
  injection H as <-. exists a. repeat split; try lia.
  intros Hs. cbn [style]. unfold LinkedInAINewsAgent.styleAt.
  apply nth_error_nth'. apply Nat.mod_upper_bound.
  destruct (styles (posts config)); [congruence|discriminate].
Qed.

Lemma distinct_spec (values : list str) :
  NoDup (distinct values) /\ forall v, In v (distinct values) <-> In v values.
Proof.
  unfold distinct.
  assert (H : forall vs seen,
             NoDup seen ->
             NoDup (fold_left (fun seen v => setAdd v seen) vs seen)
             /\ forall v,
                  In v (fold_left (fun seen v => setAdd v seen) vs seen)
                  <-> In v seen \/ In v vs).
  { induction vs as [|x rest IH]; intros seen Hn; cbn [fold_left].
    - split; [exact Hn|]. intros v. simpl. tauto.
    - destruct (IH (setAdd x seen) (setAdd_NoDup x Hn)) as [H1 H2].
      split; [exact H1|]. intros v. rewrite H2. simpl.
      unfold setAdd. destruct (existsb (eqb x) seen) eqn:E.
      + apply existsb_exists in E as [y [Hy Hxy]]. apply eqb_eq in Hxy. subst y.
        split; [tauto|]. intros [H|[<-|H]]; auto.
      + rewrite in_app_iff. simpl. tauto. }
  destruct (H values [] (NoDup_nil _)) as [H1 H2].
  split; [exact H1|]. intros v. rewrite H2. simpl. tauto.
Qed.

(** What a run returns.  With no keyword configured and the agent not
    yet initialized, the result is an error and no request is sent.
    Otherwise the agent is initialized, the result carries the articles
    of the search stage, it is a success exactly when there is at least
    one article, and it then holds one post for each of the first three
    articles, the sources of the articles and the styles of the posts,
    each once; a partial result is never returned. *)
Theorem run_outcome (random : nat -> nat) (st : AgentState) :
  let r := fst (run random st) in
  let st' := snd (run random st) in
  let articles := fst (searchAINews (sent st)) in
  if negb (initialized st) && (length (aiKeywords config) =? 0)%nat
  then r = ErrorResult (lit "AI keywords configuration is required") [] []
       /\ st' = st
  else
    initialized st' = true
    /\ sent st' = snd (searchAINews (sent st))
    /\ dataArticles r = articles
    /\ success r = negb (length articles =? 0)%nat
    /\ length (dataPosts r) = Nat.min (length articles) 3
    /\ match r with
       | SuccessResult _ _ sourcesUsed stylesUsed =>
           NoDup sourcesUsed
           /\ (forall s, In s sourcesUsed <-> In s (map source articles))
           /\ NoDup stylesUsed
           /\ (forall s, In s stylesUsed <-> In s (map style (dataPosts r)))
       | EmptyResult _ => articles = []
       | PartialResult _ _ _ => False
       | ErrorResult _ _ _ => False
       end.
Proof.
  cbv zeta. unfold LinkedInAINewsAgent.run, initialize.
  destruct (initialized st) eqn:Ei; cbn [negb andb].
  - destruct (searchAINews (sent st)) as [articles sent'] eqn:Es.
    cbn [fst snd sent LinkedInAINewsAgent.initialized].
    destruct (length articles =? 0)%nat eqn:El.
    + cbn [fst snd dataArticles dataPosts success createEmptyResult
           LinkedInAINewsAgent.initialized sent].
      apply Nat.eqb_eq in El. destruct articles; [|discriminate].
      repeat split; auto.
    + pose proof (generateLinkedInPosts_length random articles) as Hl.
      apply Nat.eqb_neq in El.
      destruct (length (generateLinkedInPosts random articles) =? 0)%nat eqn:Ep.
      * apply Nat.eqb_eq in Ep. lia.
      * cbn [fst snd dataArticles dataPosts success createSuccessResult
             LinkedInAINewsAgent.initialized sent negb].
        repeat split; auto; try apply distinct_spec.
  - destruct (length (aiKeywords config) =? 0)%nat eqn:Ek.
    + split; reflexivity.
    + destruct (searchAINews (sent st)) as [articles sent'] eqn:Es.
      cbn [fst snd sent LinkedInAINewsAgent.initialized].
      rewrite Es.
      destruct (length articles =? 0)%nat eqn:El.
      * cbn [fst snd dataArticles dataPosts success createEmptyResult
             LinkedInAINewsAgent.initialized sent].
        apply Nat.eqb_eq in El. destruct articles; [|discriminate].
        repeat split; auto.
      * pose proof (generateLinkedInPosts_length random articles) as Hl.
        apply Nat.eqb_neq in El.
        destruct (length (generateLinkedInPosts random articles) =? 0)%nat eqn:Ep.
        -- apply Nat.eqb_eq in Ep. lia.
        -- cbn [fst snd dataArticles dataPosts success createSuccessResult
                LinkedInAINewsAgent.initialized sent negb].
           repeat split; auto; try apply distinct_spec.
Qed.

End More.

(** *** The cache *)

Open Scope nat_scope.

Lemma mapSet_length (key : str) (value : CacheEntry) (m : Cache) :
  length (mapSet key value m) <= S (length m).
Proof.
  induction m as [|[k v] rest IH]; simpl; [lia|].
  destruct (eqb k key); simpl; lia.
Qed.

Lemma startsWith_app (p s : str) : startsWith p (p ++ s) = true.
Proof.
  induction p as [|c p IH]; simpl; [reflexivity|].
  now rewrite N.eqb_refl, IH.
Qed.

(** Caching keeps the cache within its limit: a cache of at most
    [maxEntries] entries has at most [maxEntries] entries after
    [cacheArticles]. *)
Theorem cacheArticles_bounded (cfg : CacheConfig) (keyTime stampTime : nat)
  (articles : list Article) (q : str) (cache : Cache) :
  length cache <= maxEntries cfg ->
  length (cacheArticles cfg keyTime stampTime articles q cache) <= maxEntries cfg.
Proof.
  intros H. unfold cacheArticles.
  destruct (negb (enabled cfg) || (length articles =? 0)); [exact H|].
  cbv zeta.
  set (cache' := mapSet _ _ cache).
  pose proof (mapSet_length
                (lit "articles_" ++ q ++ lit "_" ++ ofNat keyTime)
                {| data := articles; timestamp := Z.of_nat stampTime; query := q |}
                cache) as Hl.
  fold cache' in Hl.
  destruct (maxEntries cfg <? length cache') eqn:E.
  - destruct cache'; simpl in *; lia.
  - now apply Nat.ltb_ge in E.
Qed.

(** What is cached can be read back: with the cache enabled and room
    for an entry, the articles cached in an empty cache are what
    [getCachedArticles] returns, cut to [maxResults], as long as the
    entry is younger than [duration]; with the cache disabled nothing is
    stored and nothing is returned. *)
Theorem cache_round_trip (cfg : CacheConfig) (maxResults keyTime stampTime : nat)
  (now : nat -> nat) (articles : list Article) (q : str) (cache : Cache) :
  (enabled cfg = true -> 1 <= maxEntries cfg ->
   (Z.of_nat (now 0%nat) - duration cfg < Z.of_nat stampTime)%Z ->
   getCachedArticles cfg maxResults now
     (cacheArticles cfg keyTime stampTime articles q [])
   = firstn maxResults articles)
  /\ (enabled cfg = false ->
      cacheArticles cfg keyTime stampTime articles q cache = cache
      /\ getCachedArticles cfg maxResults now cache = []).
Proof.
  split.
  - intros He Hm Hf. unfold cacheArticles, getCachedArticles. rewrite He.
    cbn [negb orb].
    destruct (length articles =? 0) eqn:El.
    + apply Nat.eqb_eq in El. destruct articles; [|discriminate].
      simpl. now destruct maxResults.
    + cbn [mapSet length].
      destruct (maxEntries cfg <? 1) eqn:E; [apply Nat.ltb_lt in E; lia|].
      cbn [freshFrom data timestamp].
      rewrite startsWith_app. apply Z.ltb_lt in Hf. rewrite Hf.
      cbn [andb]. now rewrite app_nil_r.
  - intros He. unfold cacheArticles, getCachedArticles. now rewrite He.
Qed.

(** *** The properties at concrete inputs *)

(** Two articles of one preferred source: the higher score comes
    first. *)
Lemma filterAndRankArticles_ranked_witness :
  (1 < maxResults (search CONFIG))
  /\ (relevanceScore lowerRanked <= relevanceScore firstCopy)%Q.
Proof.
  pose proof (@filterAndRankArticles_ranked asciiLower CONFIG
                [lowerRanked; firstCopy] 0 1 firstCopy lowerRanked
                ltac:(lia) eq_refl eq_refl) as [H1 [_ H3]].
  split; [exact H1|]. apply H3. reflexivity.
Defined.

(** The first keyword is answered with [oneTopic]. *)
Lemma performSearch_keeps_answered_witness :
  In firstKeywordArticle
    (fst (performSearch asciiLower httpsHost rejectingEngine CONFIG answering
            (lit "d") [])).
Proof.
  apply (@performSearch_keeps_answered asciiLower httpsHost rejectingEngine
           CONFIG answering (lit "d") [] 0 (lit "artificial intelligence")
           oneTopic firstKeywordArticle).
  - reflexivity.
  - reflexivity.
  - vm_compute. left. reflexivity.
Defined.

(** A provider without an answer for any request. *)
Lemma searchAINews_same_batch_witness :
  fst (searchAINews asciiLower httpsHost rejectingEngine CONFIG silent [])
  = filterAndRankArticles asciiLower CONFIG
      (fst (performSearch asciiLower httpsHost rejectingEngine CONFIG silent
              (lit "d") [])).
Proof.
  apply (@searchAINews_same_batch asciiLower httpsHost rejectingEngine CONFIG
           silent []).
  intros i j q. reflexivity.
Defined.

Lemma createSummary_bounds_witness :
  (len (createSummary firstCopy [] 100) <= 100)%Z.
Proof.
  apply (@createSummary_bounds firstCopy [] 100%Z). lia.
Defined.

Lemma cacheArticles_bounded_witness :
  length (cacheArticles sampleCache 5 5 [firstCopy] (lit "ai_news_search") []) <= 100.
Proof.
  apply (@cacheArticles_bounded sampleCache 5 5 [firstCopy] (lit "ai_news_search") []).
  simpl. lia.
Defined.

Lemma cache_round_trip_witness :
  getCachedArticles sampleCache 10 (fun _ => 6)
    (cacheArticles sampleCache 5 5 [firstCopy] (lit "ai_news_search") [])
  = [firstCopy].
Proof.
  apply (proj1 (@cache_round_trip sampleCache 10 5 5 (fun _ => 6) [firstCopy]
                  (lit "ai_news_search") [])).
  - reflexivity.
  - simpl. lia.
  - simpl. lia.
Defined.


Lemma extractKeyPoints_spec_witness :
  In firstKeyPoint (extractKeyPoints asciiLower firstCopy)
  /\ (30 < len (text firstKeyPoint) < 200)%Z.
Proof.
  assert (H : In firstKeyPoint (extractKeyPoints asciiLower firstCopy)).
  { vm_compute. left. reflexivity. }
  split; [exact H|].
  exact (proj1 (proj2 (proj2 (proj2 (extractKeyPoints_spec asciiLower firstCopy))
                         firstKeyPoint H))).
Defined.

Lemma generateHashtags_origin_witness :
  let tag := lit "#OpenAI" in
  In tag (generateHashtags asciiLower CONFIG firstCopy)
  /\ (tag = lit "#ArtificialIntelligence" \/ tag = lit "#AI"
      \/ exists keyword,
           In (keyword, tag) hashtagMap
           /\ includes (asciiLower (title firstCopy ++ lit " " ++ summary firstCopy))
                keyword = true).
Proof.
  intros tag.
  assert (H : In tag (generateHashtags asciiLower CONFIG firstCopy)).
  { vm_compute. right. right. right. left. reflexivity. }
  split; [exact H|].
  exact (proj2 (generateHashtags_origin asciiLower CONFIG firstCopy) tag H).
Defined.

(** The second post of two articles is a question about the second
    article. *)
Lemma generateLinkedInPosts_rotation_witness :
  let post := createLinkedInPost asciiLower CONFIG 0 lowerRanked (lit "question") in
  nth_error
    (generateLinkedInPosts asciiLower CONFIG (fun _ => 0) [firstCopy; lowerRanked]) 1
  = Some post
  /\ exists a, nth_error [firstCopy; lowerRanked] 1 = Some a /\ sourceUrl post = url a.
Proof.
  intros post.
  assert (H : nth_error
                (generateLinkedInPosts asciiLower CONFIG (fun _ => 0)
                   [firstCopy; lowerRanked]) 1
              = Some post) by reflexivity.
  split; [exact H|].
  destruct (proj2 (generateLinkedInPosts_rotation asciiLower CONFIG (fun _ => 0)
                     [firstCopy; lowerRanked]) 1 post H)
    as [a [Ha [_ [_ [Hu _]]]]].
  exists a. split; [exact Ha|exact Hu].
Defined.

(** A first run with every request answered. *)
Lemma run_outcome_witness :
  let r :=
    fst (run asciiLower httpsHost rejectingEngine CONFIG answering (fun _ => 0)
           newAgentState) in
  success r
  = negb (length
            (fst (searchAINews asciiLower httpsHost rejectingEngine CONFIG
                    answering (sent newAgentState))) =? 0).
Proof.
  exact (proj1 (proj2 (proj2 (proj2
           (run_outcome asciiLower httpsHost rejectingEngine CONFIG answering
              (fun _ => 0) newAgentState))))).
Defined.


End LinkedInAINewsAgentMore.


(** ** More facts about ai-agent.js and server.js *)

Module AIGoodNewsAgentMore.
Import JS JSFacts AIGoodNewsAgent AIGoodNewsAgentFacts.

Open Scope list_scope.
Open Scope nat_scope.

(** *** The seen list *)

Lemma existsb_eqb_In (u : str) (seen : list str) :
  existsb (eqb u) seen = true <-> In u seen.
Proof.
  rewrite existsb_exists. split.
  - intros [y [Hy H]]. apply eqb_eq in H. now subst.
  - intros H. exists u. split; [exact H|apply eqb_refl].
Qed.

Lemma markSeen_spec (articles : list Article) (seen : list str) :
  exists extra,
    markSeen articles seen = seen ++ extra
    /\ (forall u, In u extra <-> In u (map url articles) /\ ~ In u seen)
    /\ (NoDup seen -> NoDup (markSeen articles seen)).
Proof.
  unfold markSeen. revert seen.
  induction articles as [|a rest IH]; intros seen; cbn [fold_left map].
  - exists []. rewrite app_nil_r. split; [reflexivity|]. split; [|auto].
    intros u. simpl. tauto.
  - destruct (existsb (eqb (url a)) seen) eqn:E; cbn [negb].
    + apply existsb_eqb_In in E.
      destruct (IH seen) as [extra [H1 [H2 H3]]].
      exists extra. split; [exact H1|]. split; [|exact H3].
      intros u. rewrite H2. simpl. split; [tauto|].
      intros [[<-|H] Hn]; tauto.
    + assert (Hn : ~ In (url a) seen).
      { intros H. apply existsb_eqb_In in H. congruence. }
      destruct (IH (seen ++ [url a])) as [extra [H1 [H2 H3]]].
      exists (url a :: extra). split; [now rewrite H1, <- app_assoc|].
      split.
      * intros u. simpl. rewrite H2, in_app_iff. simpl.
        split.
        -- intros [<-|[H Hu]]; [tauto|]. tauto.
        -- intros [[<-|H] Hu]; [now left|].
           destruct (list_eq_dec N.eq_dec (url a) u) as [->|Hne]; [now left|].
           right. split; [exact H|]. intros [Hs|[Heq|[]]]; tauto.
      * intros Hnd. apply H3. apply NoDup_app; [exact Hnd|repeat constructor; auto|].
        intros y Hy [<-|[]]. tauto.
Qed.

Section More.

Variable toLowerCase : str -> str.
Variable geminiApiKey : str.
Variable newsApiKey : str.
Variable searchWithNewsAPI : list str -> list Article.
Variable searchWithDuckDuckGo : list str -> list Article.
Variable gemini : Prompt -> result str.
Variable JSON_parse : str -> result Analysis.
Variable writeFileSync : list str -> result unit.

Local Abbreviation fallbackAnalysis := (AIGoodNewsAgent.fallbackAnalysis toLowerCase).
Local Abbreviation analyzeWithGemini :=
  (AIGoodNewsAgent.analyzeWithGemini toLowerCase geminiApiKey gemini JSON_parse).
Local Abbreviation generateLinkedInPost :=
  (AIGoodNewsAgent.generateLinkedInPost geminiApiKey gemini).
Local Abbreviation searchAINews :=
  (AIGoodNewsAgent.searchAINews newsApiKey searchWithNewsAPI searchWithDuckDuckGo).
Local Abbreviation run :=
  (AIGoodNewsAgent.run toLowerCase geminiApiKey newsApiKey searchWithNewsAPI
     searchWithDuckDuckGo gemini JSON_parse writeFileSync).

Local Abbreviation found :=
  (AIGoodNewsAgent.found newsApiKey searchWithNewsAPI searchWithDuckDuckGo).
Local Abbreviation synthesis :=
  (AIGoodNewsAgent.synthesis toLowerCase geminiApiKey newsApiKey searchWithNewsAPI
     searchWithDuckDuckGo gemini JSON_parse).

(** *** The search and the run, step by step *)

Lemma searchAINews_unfold (st : State) :
  searchAINews st
  = (Ok (filter (fun a => negb (existsb (eqb (url a)) (seenArticles st))) found),
     st).
Proof. reflexivity. Qed.

Lemma run_unfold (st : State) :
  run st
  = let articles :=
      filter (fun a => negb (existsb (eqb (url a)) (seenArticles st))) found in
    if (length articles =? 0) then (Failure noNewArticles, st)
    else
      match analyzeWithGemini articles st with
      | (Throw e, st2) => (Failure e, st2)
      | (Ok analysis, st2) =>
          match generateLinkedInPost analysis articles st2 with
          | (Throw e, st3) => (Failure e, st3)
          | (Ok post, st3) =>
              match writeFileSync (markSeen articles (seenArticles st3)) with
              | Throw e => (Failure e, marked articles st3)
              | Ok _ =>
                  match resultArticles articles (topArticles analysis) with
                  | Ok entries =>
                      (Success entries post (overallTrend analysis),
                       saved (marked articles st3))
                  | Throw e => (Failure e, saved (marked articles st3))
                  end
              end
          end
      end.
Proof.
  unfold AIGoodNewsAgent.run, runBody, tryCatch, bind,
    AIGoodNewsAgent.searchAINews, ret, lift, markArticlesSeen, saveSeenArticles.
  fold found. cbv zeta.
  destruct (length _ =? 0); [reflexivity|].
  destruct (analyzeWithGemini _ st) as [[analysis|e] st2]; [|reflexivity].
  destruct (generateLinkedInPost analysis _ st2) as [[post|e] st3]; [|reflexivity].
  cbn [seenArticles seenFile geminiCalls].
  destruct (writeFileSync _); [|reflexivity].
  destruct (resultArticles _ _); reflexivity.
Qed.

Lemma analyzeWithGemini_calls (articles : list Article) (st : State) :
  exists extra,
    geminiCalls (snd (analyzeWithGemini articles st)) = geminiCalls st ++ extra
    /\ length extra <= 1
    /\ (truthy geminiApiKey = false -> extra = []).
Proof.
  rewrite analyzeWithGemini_cases.
  destruct (truthy geminiApiKey); cbn [negb].
  - exists [AnalysisPrompt articles].
    split; [|split; [simpl; lia|discriminate]].
    destruct (gemini _) as [t|e]; [destruct (JSON_parse t)|]; reflexivity.
  - exists []. cbn [snd]. rewrite app_nil_r. auto.
Qed.

Lemma generateLinkedInPost_calls (analysis : Analysis) (articles : list Article)
  (st : State) :
  exists extra,
    geminiCalls (snd (generateLinkedInPost analysis articles st))
    = geminiCalls st ++ extra
    /\ length extra <= 1
    /\ (truthy geminiApiKey = false -> extra = []).
Proof.
  rewrite generateLinkedInPost_cases.
  destruct (truthy geminiApiKey); cbn [negb].
  - destruct (at_ (topArticles analysis) 0) as [ta|].
    + destruct (at_ articles (originalIndex ta)) as [a|].
      * exists [PostPrompt ta (source a)].
        split; [|split; [simpl; lia|discriminate]].
        cbv zeta. destruct (gemini _); reflexivity.
      * exists []. cbn [snd]. rewrite app_nil_r.
        split; [reflexivity|split; [simpl; lia|discriminate]].
    + exists []. cbn [snd]. rewrite app_nil_r.
      split; [reflexivity|split; [simpl; lia|discriminate]].
  - exists []. cbn [snd]. rewrite app_nil_r. auto.
Qed.

Lemma resultArticles_ok (articles : list Article) (tops : list TopArticle) :
  (forall ta, In ta tops -> exists a, at_ articles (originalIndex ta) = Some a) ->
  exists entries,
    resultArticles articles tops = Ok entries
    /\ map entry entries = tops
    /\ forall e, In e entries ->
         exists a, at_ articles (originalIndex (entry e)) = Some a
                   /\ entryUrl e = url a /\ entrySource e = source a.
Proof.
  induction tops as [|ta rest IH]; intros H; cbn [resultArticles].
  - exists []. repeat split. intros e [].
  - destruct (H ta (or_introl eq_refl)) as [a Ha]. rewrite Ha. cbn [defined].
    destruct IH as [entries [H1 [H2 H3]]]; [intros t Ht; apply H; now right|].
    rewrite H1. eexists. split; [reflexivity|]. split; [simpl; now rewrite H2|].
    intros e [<-|He]; [|now apply H3].
    exists a. cbn [entry entryUrl entrySource]. auto.
Qed.

Lemma resultArticles_entries (articles : list Article) (tops : list TopArticle)
  (entries : list ResultArticle) :
  resultArticles articles tops = Ok entries ->
  forall e, In e entries ->
    exists a, In a articles /\ entryUrl e = url a /\ entrySource e = source a.
Proof.
  revert entries; induction tops as [|ta rest IH]; intros entries H;
    cbn [resultArticles] in H.
  - injection H as <-. intros e [].
  - unfold at_, defined in H.
    destruct (originalIndex ta <? 0)%Z; [discriminate|].
    destruct (nth_error articles (Z.to_nat (originalIndex ta))) as [a|] eqn:Ea;
      [|discriminate].
    destruct (resultArticles articles rest) as [rs|]; [|discriminate].
    injection H as <-. intros e [<-|He].
    + exists a. cbn [entryUrl entrySource]. repeat split.
      eapply nth_error_In, Ea.
    + now apply (IH rs).
Qed.

(** *** Properties of the search, the post and the run *)

(** The search stage returns the articles of the back end in use whose
    URL is not in the seen list, and leaves the agent as it is. *)
Theorem searchAINews_unseen (st : State) :
  exists articles,
    searchAINews st = (Ok articles, st)
    /\ forall a, In a articles <-> In a found /\ ~ In (url a) (seenArticles st).
Proof.
  eexists. split; [apply searchAINews_unfold|].
  intros a. rewrite filter_In, negb_true_iff.
  split; intros [H1 H2]; (split; [exact H1|]).
  - intros H. apply existsb_eqb_In in H. congruence.
  - destruct (existsb _ _) eqn:E; [|reflexivity].
    apply existsb_eqb_In in E. tauto.
Qed.

(** The seen list only grows: after a run it is the list before the
    run followed by URLs that were not in it, and it has no duplicates
    when it had none; the file is as before or holds the new list. *)
Theorem run_seen_grows (st : State) :
  let st' := snd (run st) in
  exists extra,
    seenArticles st' = seenArticles st ++ extra
    /\ (forall u, In u extra -> ~ In u (seenArticles st))
    /\ (NoDup (seenArticles st) -> NoDup (seenArticles st'))
    /\ (seenFile st' = seenFile st \/ seenFile st' = Some (seenArticles st')).
Proof.
  cbv zeta. rewrite run_unfold. cbv zeta.
  set (articles := filter _ found).
  assert (Hsame : forall st2, sameSeen st st2 ->
            exists extra,
              seenArticles st2 = seenArticles st ++ extra
              /\ (forall u, In u extra -> ~ In u (seenArticles st))
              /\ (NoDup (seenArticles st) -> NoDup (seenArticles st2))
              /\ (seenFile st2 = seenFile st \/ seenFile st2 = Some (seenArticles st2))).
  { intros st2 [H1 H2]. exists []. rewrite app_nil_r, H1, H2.
    split; [reflexivity|]. split; [intros u []|]. split; [tauto|now left]. }
  destruct (length articles =? 0); [apply Hsame; split; reflexivity|].
  pose proof (analyzeWithGemini_seen toLowerCase geminiApiKey gemini JSON_parse
                articles st) as Ha.
  destruct (analyzeWithGemini articles st) as [[analysis|e] st2];
    cbn [snd] in *; [|now apply Hsame].
  pose proof (generateLinkedInPost_seen geminiApiKey gemini analysis articles st2)
    as Hg.
  destruct (generateLinkedInPost analysis articles st2) as [[post|e] st3];
    cbn [snd] in *.
  2:{ apply Hsame. destruct Ha, Hg. split; congruence. }
  assert (H3 : sameSeen st st3) by (destruct Ha, Hg; split; congruence).
  destruct H3 as [H31 H32].
  destruct (markSeen_spec articles (seenArticles st3)) as [extra [E1 [E2 E3]]].
  assert (Hm : exists extra0,
             markSeen articles (seenArticles st3) = seenArticles st ++ extra0
             /\ (forall u, In u extra0 -> ~ In u (seenArticles st))
             /\ (NoDup (seenArticles st) ->
                 NoDup (markSeen articles (seenArticles st3)))).
  { exists extra. rewrite <- H31. repeat split; auto.
    intros u Hu. now apply E2 in Hu. }
  destruct Hm as [extra0 [M1 [M2 M3]]].
  destruct (writeFileSync _); [destruct (resultArticles _ _)|];
    cbn [snd saved marked seenArticles seenFile];
    exists extra0; repeat split; auto.
Qed.

(** A run calls the generative backend at most twice, and not at all
    without an API key. *)
Theorem run_backend_calls (st : State) :
  exists extra,
    geminiCalls (snd (run st)) = geminiCalls st ++ extra
    /\ length extra <= 2
    /\ (truthy geminiApiKey = false -> extra = []).
Proof.
  rewrite run_unfold. cbv zeta.
  set (articles := filter _ found).
  destruct (length articles =? 0).
  { exists []. cbn [snd]. rewrite app_nil_r. simpl. auto. }
  destruct (analyzeWithGemini_calls articles st) as [x1 [A1 [A2 A3]]].
  destruct (analyzeWithGemini articles st) as [[analysis|e] st2]; cbn [snd] in *.
  2:{ exists x1. repeat split; auto; lia. }
  destruct (generateLinkedInPost_calls analysis articles st2) as [x2 [G1 [G2 G3]]].
  assert (H : geminiCalls (snd (generateLinkedInPost analysis articles st2))
              = geminiCalls st ++ (x1 ++ x2)
              /\ length (x1 ++ x2) <= 2
              /\ (truthy geminiApiKey = false -> x1 ++ x2 = [])).
  { rewrite G1, A1, <- app_assoc, length_app. repeat split; [lia|].
    intros Hk. now rewrite A3, G3. }
  destruct (generateLinkedInPost analysis articles st2) as [[post|e] st3];
    cbn [snd] in *; [|now exists (x1 ++ x2)].
  exists (x1 ++ x2).
  destruct (writeFileSync _); [destruct (resultArticles _ _)|];
    cbn [snd saved marked geminiCalls]; exact H.
Qed.

(** Without an API key a run with at least one new article succeeds
    whenever the list can be written: it returns the entries of the
    local analysis, min(3, n) of them, each with the URL and the source
    of the article at its index, the fixed trend, and the template post
    about the best article. *)
Theorem run_without_key (st : State) :
  let articles :=
    filter (fun a => negb (existsb (eqb (url a)) (seenArticles st))) found in
  truthy geminiApiKey = false ->
  articles <> [] ->
  writeFileSync (markSeen articles (seenArticles st)) = Ok tt ->
  exists entries post,
    run st = (Success entries post fixedTrend, saved (marked articles st))
    /\ map entry entries = topArticles (fallbackAnalysis articles)
    /\ length entries = Nat.min 3 (length articles)
    /\ generateFallbackPost (fallbackAnalysis articles) articles = Ok post
    /\ forall e, In e entries ->
         exists a, at_ articles (originalIndex (entry e)) = Some a
                   /\ entryUrl e = url a /\ entrySource e = source a.
Proof.
  intros articles Hk Hne Hw. rewrite run_unfold. cbv zeta. fold articles.
  destruct (length articles =? 0) eqn:El.
  { apply Nat.eqb_eq in El. destruct articles; [congruence|discriminate]. }
  rewrite analyzeWithGemini_cases, Hk. cbn [negb]. cbv iota.
  rewrite generateLinkedInPost_cases, Hk. cbn [negb].
  assert (Hrefs : forall ta, In ta (topArticles (fallbackAnalysis articles)) ->
            exists a, at_ articles (originalIndex ta) = Some a).
  { intros ta Hta.
    destruct (fallbackAnalysis_entries toLowerCase geminiApiKey JSON_parse
                articles ta Hta) as [[a [Ha _]] _]. eauto. }
  destruct (resultArticles_ok articles _ Hrefs) as [entries [R1 [R2 R3]]].
  pose proof (fallbackAnalysis_count toLowerCase articles) as Hc.
  assert (Hpost : exists post,
             generateFallbackPost (fallbackAnalysis articles) articles = Ok post).
  { unfold generateFallbackPost.
    destruct (topArticles (fallbackAnalysis articles)) as [|ta rest] eqn:Et.
    - apply Nat.eqb_neq in El. cbn [length] in Hc. lia.
    - rewrite at_first. cbn [defined].
      destruct (Hrefs ta (or_introl eq_refl)) as [a Ha]. rewrite Ha.
      cbn [defined]. eauto. }
  destruct Hpost as [post Hp]. rewrite Hp, Hw, R1.
  exists entries, post. repeat split; auto.
  now rewrite <- Hc, <- R2, length_map.
Qed.

(** With an API key, when the two look-ups succeed and the call to the
    backend throws, the post is the template post: the error of the
    backend does not leave [generateLinkedInPost]. *)
Theorem generateLinkedInPost_falls_back (analysis : Analysis)
  (articles : list Article) (st : State) (ta : TopArticle)
  (rest : list TopArticle) (a : Article) (e : str) :
  truthy geminiApiKey = true ->
  topArticles analysis = ta :: rest ->
  at_ articles (originalIndex ta) = Some a ->
  gemini (PostPrompt ta (source a)) = Throw e ->
  exists post,
    fst (generateLinkedInPost analysis articles st) = Ok post
    /\ generateFallbackPost analysis articles = Ok post.
Proof.
  intros Hk Ht Hi Hg.
  rewrite generateLinkedInPost_cases, Hk, Ht, at_first. cbn [negb]. cbv iota beta.
  rewrite Hi. cbv zeta iota beta.
  rewrite Hg. cbn [fst]. unfold generateFallbackPost.
  rewrite Ht, at_first. cbn [defined]. rewrite Hi. cbn [defined]. eauto.
Qed.

End More.

(** *** The source line *)

Lemma includes_app_r (a b s : str) :
  includes b s = true -> includes (a ++ b) s = true.
Proof.
  intros H. induction a as [|x a IH]; [exact H|].
  cbn [app includes]. rewrite IH. apply orb_true_r.
Qed.

(** The post given to [formatLinkedInPost] is always the beginning of
    its result, whatever the URL.  Formatting the result again changes
    nothing more when the URL is empty or contains http: the source
    line is added at most once. *)
Theorem formatLinkedInPost_idempotent (post sourceUrl : str) :
  (exists rest, formatLinkedInPost post sourceUrl = post ++ rest)
  /\ (includes sourceUrl (lit "http") = true \/ truthy sourceUrl = false ->
      formatLinkedInPost (formatLinkedInPost post sourceUrl) sourceUrl
      = formatLinkedInPost post sourceUrl).
Proof.
  unfold formatLinkedInPost at 1 3 4.
  destruct (negb (includes post (lit "http")) && truthy sourceUrl) eqn:E.
  - split; [eauto|]. intros [H|H].
    + unfold formatLinkedInPost.
      rewrite !app_assoc. rewrite includes_app_r by exact H. reflexivity.
    + rewrite H, andb_false_r in E. discriminate.
  - split; [exists []; now rewrite app_nil_r|]. intros _.
    unfold formatLinkedInPost. now rewrite E.
Qed.

(** *** Helpers shared with the server *)

Lemma filter_none {A} (p : A -> bool) (l : list A) :
  (forall x, In x l -> p x = false) -> filter p l = [].
Proof.
  induction l as [|x r IH]; intros H; [reflexivity|].
  cbn [filter]. rewrite (H x (or_introl eq_refl)).
  apply IH. intros y Hy. apply H. now right.
Qed.

Lemma at_map {A B} (f : A -> B) (l : list A) (i : Z) :
  at_ (map f l) i = option_map f (at_ l i).
Proof.
  unfold at_. destruct (i <? 0)%Z; [reflexivity|]. apply nth_error_map.
Qed.

Lemma generateFallbackPost_source (analysis : Analysis) (articles : list Article)
  (ta : TopArticle) (a : Article) :
  at_ (topArticles analysis) 0 = Some ta ->
  at_ articles (originalIndex ta) = Some a ->
  exists prefix,
    generateFallbackPost analysis articles
    = Ok (prefix ++ lit "Source: " ++ url a).
Proof.
  intros H1 H2. unfold generateFallbackPost. rewrite H1. cbn [defined].
  rewrite H2. cbn [defined].
  rewrite !app_assoc.
  match goal with |- exists p, Ok ((?front ++ _) ++ _) = _ => exists front end.
  now rewrite <- app_assoc.
Qed.

(** *** Sample runs *)

Lemma run_without_key_witness :
  exists entries post,
    AIGoodNewsAgent.run asciiLower [] [] nothingFound oneFound geminiDown
      parseFails writeOk freshState
    = (Success entries post fixedTrend, saved (marked [sampleNews] freshState))
    /\ length entries = 1.
Proof.
  destruct (@run_without_key asciiLower [] [] nothingFound oneFound geminiDown
              parseFails writeOk freshState)
    as [entries [post [H1 [_ [H3 _]]]]];
    [reflexivity|discriminate|reflexivity|].
  exists entries, post. split; [exact H1|exact H3].
Defined.

Lemma generateLinkedInPost_falls_back_witness :
  exists post,
    fst (AIGoodNewsAgent.generateLinkedInPost (lit "key") geminiDown
           (AIGoodNewsAgent.fallbackAnalysis asciiLower [sampleNews])
           [sampleNews] freshState)
    = Ok post
    /\ generateFallbackPost
         (AIGoodNewsAgent.fallbackAnalysis asciiLower [sampleNews]) [sampleNews]
       = Ok post.
Proof.
  apply (@generateLinkedInPost_falls_back (lit "key") geminiDown
           (AIGoodNewsAgent.fallbackAnalysis asciiLower [sampleNews])
           [sampleNews] freshState
           (hd (Build_TopArticle 0 [] [] [] [] 0)
              (topArticles (AIGoodNewsAgent.fallbackAnalysis asciiLower [sampleNews])))
           [] sampleNews (lit "HTTP 503"));
    reflexivity.
Defined.

(** A post without a link and a URL with http; an empty URL; a URL
    without http, where the post is still the beginning. *)
Lemma formatLinkedInPost_idempotent_witness :
  formatLinkedInPost
    (formatLinkedInPost (lit "AI is moving fast.") (url sampleNews))
    (url sampleNews)
  = formatLinkedInPost (lit "AI is moving fast.") (url sampleNews)
  /\ formatLinkedInPost (formatLinkedInPost (lit "AI is moving fast.") []) []
     = formatLinkedInPost (lit "AI is moving fast.") []
  /\ exists rest,
       formatLinkedInPost (lit "AI is moving fast.") (lit "e.co/a")
       = lit "AI is moving fast." ++ rest.
Proof.
  split; [|split].
  - apply (proj2 (@formatLinkedInPost_idempotent (lit "AI is moving fast.")
                    (url sampleNews))).
    left. reflexivity.
  - apply (proj2 (@formatLinkedInPost_idempotent (lit "AI is moving fast.") [])).
    right. reflexivity.
  - apply (proj1 (@formatLinkedInPost_idempotent (lit "AI is moving fast.")
                    (lit "e.co/a"))).
Defined.

End AIGoodNewsAgentMore.

(** ** Facts about server.js *)

Module ServerFacts.
Import JS JSFacts AIGoodNewsAgent AIGoodNewsAgentFacts AIGoodNewsAgentMore Server.

Open Scope list_scope.
Open Scope nat_scope.

Section Facts.

Variable toLowerCase : str -> str.
Variable geminiApiKey : str.
Variable newsApiKey : str.
Variable searchWithNewsAPI : list str -> list Article.
Variable searchWithDuckDuckGo : list str -> list Article.
Variable gemini : Prompt -> result str.
Variable JSON_parse : str -> result Analysis.
Variable writeFileSync : list str -> result unit.

Local Abbreviation generate :=
  (Server.generate toLowerCase geminiApiKey newsApiKey searchWithNewsAPI
     searchWithDuckDuckGo gemini JSON_parse writeFileSync).
Local Abbreviation regeneratePost := (Server.regeneratePost geminiApiKey gemini).
Local Abbreviation found :=
  (AIGoodNewsAgent.found newsApiKey searchWithNewsAPI searchWithDuckDuckGo).
Local Abbreviation unseen :=
  (fun seen : list str =>
     filter (fun a => negb (existsb (eqb (url a)) seen)) found).

(** What a request that answers 200 leaves in the file. *)
Lemma generate_ok (file : option (list str)) :
  status (fst (generate file)) = 200 ->
  unseen (loadSeenArticles file) <> []
  /\ snd (generate file)
     = Some (markSeen (unseen (loadSeenArticles file)) (loadSeenArticles file)).
Proof.
  unfold Server.generate. rewrite run_unfold. cbv zeta.
  change (seenArticles (newAgent file)) with (loadSeenArticles file).
  set (articles := filter _ found).
  destruct (length articles =? 0) eqn:El; [discriminate|].
  pose proof (analyzeWithGemini_seen toLowerCase geminiApiKey gemini JSON_parse
                articles (newAgent file)) as Ha.
  destruct (AIGoodNewsAgent.analyzeWithGemini _ _ _ _ articles (newAgent file))
    as [[analysis|e] st2]; cbn [snd] in Ha; [|discriminate].
  pose proof (generateLinkedInPost_seen geminiApiKey gemini analysis articles st2)
    as Hg.
  destruct (AIGoodNewsAgent.generateLinkedInPost _ _ analysis articles st2)
    as [[post|e] st3]; cbn [snd] in Hg; [|discriminate].
  destruct (writeFileSync _); [|discriminate].
  destruct (resultArticles _ _); [|discriminate].
  intros _. split.
  - intros H. rewrite H in El. discriminate.
  - cbn [snd fst saved marked seenFile seenArticles].
    destruct Ha as [Ha _], Hg as [Hg _]. rewrite Hg, Ha. reflexivity.
Qed.

Lemma unseen_after (seen : list str) :
  unseen (markSeen (unseen seen) seen) = [].
Proof.
  apply filter_none. intros a Ha. apply negb_false_iff, existsb_eqb_In.
  destruct (markSeen_spec (unseen seen) seen) as [extra [H1 [H2 _]]].
  rewrite H1. apply in_app_iff.
  destruct (existsb (eqb (url a)) seen) eqn:E.
  - left. now apply existsb_eqb_In.
  - right. apply H2. split.
    + apply in_map, filter_In. split; [exact Ha|]. now rewrite E.
    + intros H. apply existsb_eqb_In in H. congruence.
Qed.

(** *** POST /api/generate *)

(** After a request answered with 200 the file holds the list the
    agent started from followed by the URLs of the new articles, so it
    holds the URL of every article the back end returned. *)
Theorem generate_saves (file : option (list str)) :
  status (fst (generate file)) = 200 ->
  exists extra,
    snd (generate file) = Some (loadSeenArticles file ++ extra)
    /\ extra <> []
    /\ (forall u, In u extra -> ~ In u (loadSeenArticles file))
    /\ forall a, In a found -> In (url a) (loadSeenArticles file ++ extra).
Proof.
  intros H. destruct (generate_ok file H) as [Hne Hf].
  destruct (markSeen_spec (unseen (loadSeenArticles file)) (loadSeenArticles file))
    as [extra [H1 [H2 _]]].
  exists extra. rewrite Hf, H1. split; [reflexivity|]. split; [|split].
  - destruct (unseen (loadSeenArticles file)) as [|a rest] eqn:E; [congruence|].
    assert (Ha : In a (unseen (loadSeenArticles file))) by (rewrite E; now left).
    apply filter_In in Ha as [_ Ha]. apply negb_true_iff in Ha.
    intros ->. apply (proj2 (H2 (url a))).
    split; [now left|]. intros Hs. apply existsb_eqb_In in Hs. congruence.
  - intros u Hu. now apply H2.
  - intros a Ha. apply in_app_iff.
    destruct (existsb (eqb (url a)) (loadSeenArticles file)) eqn:E.
    + left. now apply existsb_eqb_In.
    + right. apply H2. split.
      * apply in_map, filter_In. split; [exact Ha|]. now rewrite E.
      * intros Hs. apply existsb_eqb_In in Hs. congruence.
Qed.

(** When the back end returns the same articles again, the request
    after one answered with 200 is answered with 500 and the error of
    a run without new articles, and leaves the file as it is. *)
Theorem generate_repeat (file : option (list str)) :
  status (fst (generate file)) = 200 ->
  generate (snd (generate file))
  = ({| status := 500; body := RunBody (Failure noNewArticles) |},
     snd (generate file)).
Proof.
  intros H. destruct (generate_ok file H) as [_ Hf]. rewrite Hf.
  unfold Server.generate at 1. rewrite run_unfold. cbv zeta.
  change (seenArticles (newAgent (Some ?l))) with l.
  rewrite unseen_after. reflexivity.
Qed.

(** *** POST /api/regenerate-post *)

(** The handler never changes the file, and it answers 400 exactly
    when the body has no article. *)
Theorem regeneratePost_file (articles : option (list ResultArticle))
  (trend : str) (file : option (list str)) :
  snd (regeneratePost articles trend file) = file
  /\ (status (fst (regeneratePost articles trend file)) = 400
      <-> articles = None \/ articles = Some []).
Proof.
  unfold Server.regeneratePost.
  destruct articles as [[|e rest]|].
  - split; [reflexivity|]. split; auto.
  - cbv zeta.
    pose proof (generateLinkedInPost_seen geminiApiKey gemini
                  {| topArticles := map entry (e :: rest); overallTrend := trend |}
                  (map mockArticle (e :: rest)) (newAgent file)) as [_ Hs].
    destruct (AIGoodNewsAgent.generateLinkedInPost _ _ _ _ _) as [[post|err] st];
      cbn [fst snd status] in *.
    + split; [exact Hs|]. split; [discriminate|]. intros [|]; discriminate.
    + split; [exact Hs|]. split; [discriminate|]. intros [|]; discriminate.
  - split; [reflexivity|]. split; auto.
Qed.

(** Without an API key the handler looks the original index of the
    first entry up in the entries of the request: when it is the index
    of an entry, the answer is 200 and the template post ends in the
    URL of that entry; otherwise the answer is 500. *)
Theorem regeneratePost_index (e : ResultArticle) (rest : list ResultArticle)
  (trend : str) (file : option (list str)) :
  truthy geminiApiKey = false ->
  match at_ (e :: rest) (originalIndex (entry e)) with
  | Some r =>
      exists prefix,
        fst (regeneratePost (Some (e :: rest)) trend file)
        = {| status := 200;
             body := PostBody (prefix ++ lit "Source: " ++ entryUrl r) |}
  | None =>
      fst (regeneratePost (Some (e :: rest)) trend file)
      = {| status := 500;
           body := ErrorBody (lit "Regeneration failed: " ++ typeError) |}
  end.
Proof.
  intros Hk. unfold Server.regeneratePost. cbv zeta.
  rewrite generateLinkedInPost_cases, Hk. cbn [negb].
  destruct (at_ (e :: rest) (originalIndex (entry e))) as [r|] eqn:E.
  - destruct (@generateFallbackPost_source
                {| topArticles := map entry (e :: rest); overallTrend := trend |}
                (map mockArticle (e :: rest)) (entry e) (mockArticle r))
      as [prefix Hp].
    + reflexivity.
    + now rewrite at_map, E.
    + exists prefix. rewrite Hp. reflexivity.
  - unfold generateFallbackPost. cbn [topArticles map].
    rewrite at_first. cbn [defined].
    change (mockArticle e :: map mockArticle rest) with (map mockArticle (e :: rest)).
    rewrite at_map, E. reflexivity.
Qed.

End Facts.

Lemma generate_saves_witness :
  exists extra,
    snd (Server.generate asciiLower [] [] nothingFound oneFound geminiDown
           parseFails writeOk None)
    = Some (loadSeenArticles None ++ extra)
    /\ extra <> [].
Proof.
  destruct (@generate_saves asciiLower [] [] nothingFound oneFound geminiDown
              parseFails writeOk None) as [extra [H1 [H2 _]]];
    [reflexivity|].
  exists extra. split; [exact H1|exact H2].
Defined.

Lemma generate_repeat_witness :
  let first :=
    Server.generate asciiLower [] [] nothingFound oneFound geminiDown parseFails
      writeOk None in
  Server.generate asciiLower [] [] nothingFound oneFound geminiDown parseFails
    writeOk (snd first)
  = ({| status := 500; body := RunBody (Failure noNewArticles) |}, snd first).
Proof.
  intros first.
  apply (@generate_repeat asciiLower [] [] nothingFound oneFound geminiDown
           parseFails writeOk None).
  reflexivity.
Defined.

Lemma regeneratePost_index_witness :
  exists prefix,
    fst (Server.regeneratePost [] geminiDown (Some [sampleEntry]) fixedTrend None)
    = {| status := 200;
         body := PostBody (prefix ++ lit "Source: " ++ url sampleNews) |}.
Proof.
  apply (@regeneratePost_index [] geminiDown sampleEntry [] fixedTrend None).
  reflexivity.
Defined.

End ServerFacts.

(** ** Facts about the search back ends of ai-agent.js *)

Module AIGoodNewsSearchFacts.
Import JS JSFacts AIGoodNewsAgent AIGoodNewsSearch.

Open Scope list_scope.
Open Scope nat_scope.

Lemma extractTitle_length (t : str) : (len (extractTitle t) <= 100)%Z.
Proof.
  unfold extractTitle, substring0, len. cbv zeta.
  rewrite length_firstn. lia.
Qed.

Section Facts.

Variable hostname : str -> option str.
Variable clock : nat -> str.
Variable duckDuckGo : nat -> str -> Answer Topic.
Variable newsAPI : nat -> str -> Answer NewsItem.

Local Abbreviation extractDomain := (AIGoodNewsSearch.extractDomain hostname).
Local Abbreviation topicArticles := (AIGoodNewsSearch.topicArticles hostname clock).
Local Abbreviation duckDuckGoFrom :=
  (AIGoodNewsSearch.duckDuckGoFrom hostname clock duckDuckGo).
Local Abbreviation searchWithDuckDuckGo :=
  (AIGoodNewsSearch.searchWithDuckDuckGo hostname clock duckDuckGo).
Local Abbreviation newsAPIFrom := (AIGoodNewsSearch.newsAPIFrom newsAPI).
Local Abbreviation searchWithNewsAPI := (AIGoodNewsSearch.searchWithNewsAPI newsAPI).

(** The article [a] is built from the related topic [topic]. *)
Local Abbreviation fromTopic topic a :=
  (truthy (FirstURL topic) = true /\ truthy (Text topic) = true
   /\ url a = FirstURL topic /\ description a = Text topic
   /\ content a = Text topic /\ title a = extractTitle (Text topic)
   /\ source a = extractDomain (FirstURL topic)).

Lemma topicArticles_origin (topics : list Topic) (articles : list Article)
  (a : Article) :
  In a (topicArticles topics articles) ->
  In a articles \/ exists topic, In topic topics /\ fromTopic topic a.
Proof.
  revert articles; induction topics as [|topic rest IH]; intros articles H;
    cbn [AIGoodNewsSearch.topicArticles] in H; [now left|].
  destruct (truthy (FirstURL topic)) eqn:E1;
    [destruct (truthy (Text topic)) eqn:E2|]; cbn [andb] in H;
    apply IH in H.
  - destruct H as [H|[t [Ht H]]]; [|right; exists t; split; [now right|exact H]].
    apply in_app_iff in H as [H|[<-|[]]]; [now left|].
    right. exists topic. cbn. repeat split; auto.
  - destruct H as [H|[t [Ht H]]]; [now left|].
    right; exists t; split; [now right|exact H].
  - destruct H as [H|[t [Ht H]]]; [now left|].
    right; exists t; split; [now right|exact H].
Qed.

Lemma topicArticles_keeps (topics : list Topic) (articles : list Article)
  (a : Article) :
  In a articles -> In a (topicArticles topics articles).
Proof.
  revert articles; induction topics as [|topic rest IH]; intros articles H;
    cbn [AIGoodNewsSearch.topicArticles]; [exact H|].
  destruct (truthy (FirstURL topic) && truthy (Text topic)); apply IH;
    [apply in_app_iff; now left|exact H].
Qed.

Lemma topicArticles_usable (topics : list Topic) (articles : list Article)
  (topic : Topic) :
  In topic topics ->
  truthy (FirstURL topic) = true -> truthy (Text topic) = true ->
  exists a, In a (topicArticles topics articles) /\ fromTopic topic a.
Proof.
  revert articles; induction topics as [|t rest IH]; intros articles H H1 H2;
    [destruct H|]. destruct H as [<-|H]; cbn [AIGoodNewsSearch.topicArticles].
  - rewrite H1, H2. cbn [andb]. eexists. split.
    + apply topicArticles_keeps, in_app_iff. right. now left.
    + cbn. repeat split; auto.
  - destruct (truthy (FirstURL t) && truthy (Text t)); now apply IH.
Qed.

Lemma duckDuckGoFrom_origin (keywords : list str) (n : nat)
  (articles : list Article) (a : Article) :
  In a (duckDuckGoFrom n keywords articles) ->
  In a articles
  \/ exists i keyword topics topic,
       nth_error keywords i = Some keyword
       /\ duckDuckGo (n + i) keyword = Parsed (Some topics)
       /\ In topic topics /\ fromTopic topic a.
Proof.
  revert n articles; induction keywords as [|keyword rest IH]; intros n articles H;
    cbn [AIGoodNewsSearch.duckDuckGoFrom] in H; [now left|].
  assert (Hshift : forall acc,
            In a (duckDuckGoFrom (S n) rest acc) ->
            In a acc
            \/ exists i keyword0 topics topic,
                 nth_error (keyword :: rest) i = Some keyword0
                 /\ duckDuckGo (n + i) keyword0 = Parsed (Some topics)
                 /\ In topic topics /\ fromTopic topic a).
  { intros acc Hacc. apply IH in Hacc as [Hacc|[i [k [ts [t [H1 [H2 H3]]]]]]];
      [now left|].
    right. exists (S i), k, ts, t. cbn [nth_error].
    replace (n + S i) with (S n + i) by lia. auto. }
  destruct (duckDuckGo n keyword) as [e|[topics|]] eqn:E;
    [now apply Hshift| |now apply Hshift].
  apply Hshift in H as [H|H]; [|now right].
  apply topicArticles_origin in H as [H|[t [Ht H]]]; [now left|].
  right. exists 0, keyword, topics, t. cbn [nth_error].
  rewrite Nat.add_0_r. auto.
Qed.

Lemma duckDuckGoFrom_keeps (keywords : list str) (n : nat)
  (articles : list Article) (a : Article) :
  In a articles -> In a (duckDuckGoFrom n keywords articles).
Proof.
  revert n articles; induction keywords as [|keyword rest IH]; intros n articles H;
    cbn [AIGoodNewsSearch.duckDuckGoFrom]; [exact H|].
  destruct (duckDuckGo n keyword) as [e|[topics|]]; apply IH; try exact H.
  now apply topicArticles_keeps.
Qed.

Lemma newsAPIFrom_flat (keywords : list str) (n : nat) (articles : list Article) :
  newsAPIFrom n keywords articles
  = articles
    ++ flat_map
         (fun nk : nat * str =>
            match newsAPI (fst nk) (snd nk) with
            | Parsed (Some items) => map newsArticle items
            | _ => []
            end)
         (combine (seq n (length keywords)) keywords).
Proof.
  revert n articles; induction keywords as [|keyword rest IH]; intros n articles;
    cbn [AIGoodNewsSearch.newsAPIFrom length seq combine flat_map fst snd].
  - now rewrite app_nil_r.
  - destruct (newsAPI n keyword) as [e|[items|]]; rewrite IH;
      [reflexivity|now rewrite app_assoc|reflexivity].
Qed.

(** *** The DuckDuckGo back end *)

(** Every article of the DuckDuckGo back end is built from a related
    topic of the answer to one of the keywords: the URL and the text of
    the topic are not empty, they are the URL and the description of
    the article, the content is the description, the source is the
    domain of the URL, and the title is the first sentence of the text,
    at most 100 units long. *)
Theorem searchWithDuckDuckGo_articles (keywords : list str) (a : Article) :
  In a (searchWithDuckDuckGo keywords) ->
  (exists i keyword topics topic,
     nth_error keywords i = Some keyword
     /\ duckDuckGo i keyword = Parsed (Some topics)
     /\ In topic topics
     /\ url a = FirstURL topic /\ description a = Text topic)
  /\ truthy (url a) = true /\ truthy (description a) = true
  /\ content a = description a
  /\ source a = extractDomain (url a)
  /\ title a = extractTitle (description a)
  /\ (len (title a) <= 100)%Z.
Proof.
  intros H. apply duckDuckGoFrom_origin in H as [[]|H].
  destruct H as [i [keyword [topics [topic [H1 [H2 [H3 H4]]]]]]].
  destruct H4 as [T1 [T2 [T3 [T4 [T5 [T6 T7]]]]]].
  split; [exists i, keyword, topics, topic; auto|].
  rewrite T3, T4, T5, T6, T7. repeat split; auto.
  apply extractTitle_length.
Qed.

(** A keyword whose request fails does not stop the search: every
    related topic with a URL and a text in the answer to any keyword
    yields an article, whatever the other requests end in. *)
Theorem searchWithDuckDuckGo_keeps_answered (keywords : list str) (i : nat)
  (keyword : str) (topics : list Topic) (topic : Topic) :
  nth_error keywords i = Some keyword ->
  duckDuckGo i keyword = Parsed (Some topics) ->
  In topic topics ->
  truthy (FirstURL topic) = true -> truthy (Text topic) = true ->
  exists a,
    In a (searchWithDuckDuckGo keywords)
    /\ url a = FirstURL topic /\ description a = Text topic.
Proof.
  unfold AIGoodNewsSearch.searchWithDuckDuckGo.
  change i with (0 + i) at 2. generalize 0 as n. generalize (@nil Article) as acc.
  revert i. induction keywords as [|k rest IH]; intros i acc n H1 H2 H3 H4 H5.
  - destruct i; discriminate.
  - cbn [AIGoodNewsSearch.duckDuckGoFrom]. destruct i as [|i]; cbn [nth_error] in H1.
    + injection H1 as ->. rewrite Nat.add_0_r in H2. rewrite H2.
      destruct (topicArticles_usable topics acc topic H3 H4 H5)
        as [a [Ha [_ [_ [Hu [Hd _]]]]]].
      exists a. split; [now apply duckDuckGoFrom_keeps|auto].
    + replace (n + S i) with (S n + i) in H2 by lia.
      destruct (duckDuckGo n k) as [e|[ts|]]; now apply (IH i).
Qed.

(** *** The NewsAPI back end *)

(** The articles of the NewsAPI back end are the articles of the
    answers, keyword by keyword in the order of the keywords; a keyword
    whose request fails or whose answer has no article list adds
    nothing. *)
Theorem searchWithNewsAPI_flat (keywords : list str) :
  searchWithNewsAPI keywords
  = flat_map
      (fun nk : nat * str =>
         match newsAPI (fst nk) (snd nk) with
         | Parsed (Some items) => map newsArticle items
         | _ => []
         end)
      (numbered keywords).
Proof.
  unfold AIGoodNewsSearch.searchWithNewsAPI, numbered.
  now rewrite newsAPIFrom_flat.
Qed.

End Facts.

Lemma searchWithDuckDuckGo_articles_witness :
  let a :=
    hd sampleNews
      (AIGoodNewsSearch.searchWithDuckDuckGo LinkedInAINewsAgent.httpsHost midnight secondTopics
         keywords) in
  truthy (url a) = true /\ (len (title a) <= 100)%Z.
Proof.
  intros a.
  destruct (@searchWithDuckDuckGo_articles LinkedInAINewsAgent.httpsHost midnight secondTopics
              keywords a) as [_ [H1 [_ [_ [_ [_ H2]]]]]].
  - left. reflexivity.
  - split; [exact H1|exact H2].
Defined.

Lemma searchWithDuckDuckGo_keeps_answered_witness :
  exists a,
    In a (AIGoodNewsSearch.searchWithDuckDuckGo LinkedInAINewsAgent.httpsHost midnight secondTopics
            keywords)
    /\ url a = FirstURL sampleTopic /\ description a = Text sampleTopic.
Proof.
  apply (@searchWithDuckDuckGo_keeps_answered LinkedInAINewsAgent.httpsHost midnight secondTopics
           keywords 1 (lit "AI advancement") [sampleTopic] sampleTopic);
    try reflexivity.
  now left.
Defined.

End AIGoodNewsSearchFacts.
